(** * Data-Craw: the stock ingestion core

    A shallow embedding of the crawler ([src/crawlers/stock_crawler.py]), of
    the Airflow tasks ([src/dags/stock_data_pipeline.py]), of the transfer
    utility ([src/utils/fix_data_transfer.py]) and of the reader of the tables
    ([src/api/routes/stock_routes.py]), followed by the properties of the
    ingestion core.

    Conventions of the embedding.
    - A pandas cell is an [option]: [None] is the missing cell (NaN, None,
      SQL NULL).  Numbers are exact rationals; a quotient by zero, which pandas
      turns into a non-finite float, is collapsed into the missing cell.
    - A data frame is a list of column names and a list of rows, each row a
      finite map from column name to value (a missing key is a missing cell).
    - Writing a frame to CSV and reading it back keeps columns and cells.
    - A naive [datetime] is a number of microseconds.
    - Python exceptions are the [Raise] results of [result].
    - What the outside world answers (providers, clock, hash seed, random
      stream, storage faults) is an explicit input. *)

From Stdlib Require Import ZArith QArith Qround List Ascii String Lia Lqa.
From stdpp Require Import base gmap strings list sorting.

Open Scope string_scope.
Open Scope list_scope.
Open Scope stdpp_scope.

(** ** Python results *)

Inductive exn :=
| NameError (name : string)
| ImportError (module : string)
| KeyError (key : string)
| IndexError (what : string)
| ValueError (what : string)
| ProviderError
| StorageError (what : string).

Inductive result (A : Type) :=
| Ok (a : A)
| Raise (e : exn).
Arguments Ok {A} a.
Arguments Raise {A} e.

Definition bind {A B : Type} (m : result A) (k : A → result B) : result B :=
  match m with
  | Ok a => k a
  | Raise e => Raise e
  end.

(** [try: body except Exception: handler] *)
Definition try_except {A : Type} (body : result A) (handler : exn → result A) : result A :=
  match body with
  | Ok a => Ok a
  | Raise e => handler e
  end.

(** A [for] loop whose body may raise: the first exception leaves the loop. *)
Fixpoint for_each {A B : Type} (body : A → result B) (xs : list A) : result (list B) :=
  match xs with
  | [] => Ok []
  | x :: xs' =>
      bind (body x) (λ y, bind (for_each body xs') (λ ys, Ok (y :: ys)))
  end.

(** ** Values, rows and frames *)

Inductive value :=
| VStr (s : string)
| VNum (q : Q)
| VTime (t : Z).

#[global] Instance Q_eq_dec : EqDecision Q.
Proof. solve_decision. Defined.

#[global] Instance value_eq_dec : EqDecision value.
Proof. solve_decision. Defined.

Abbreviation row := (gmap string value).

Record DataFrame := {
  columns : list string;
  rows : list row }.

(** [pd.DataFrame()] *)
Definition empty_frame : DataFrame := {| columns := []; rows := [] |}.

(** [len(df)] *)
Definition len (df : DataFrame) : nat := length (rows df).

(** [df.empty]: some axis has length zero. *)
Definition df_empty (df : DataFrame) : bool :=
  match columns df, rows df with
  | _ :: _, _ :: _ => false
  | _, _ => true
  end.

Definition num (v : option value) : option Q :=
  match v with
  | Some (VNum q) => Some q
  | _ => None
  end.

(** [df[c]] as a numeric series. *)
Definition series (df : DataFrame) (c : string) : list (option Q) :=
  map (λ r : row, num (r !! c)) (rows df).

Definition set_cell (c : string) (v : option value) (r : row) : row :=
  match v with
  | Some x => <[c := x]> r
  | None => delete c r
  end.

(** [df[c] = xs] for a numeric series of the frame's length; a new column
    goes last. *)
Definition assign (df : DataFrame) (c : string) (xs : list (option Q)) : DataFrame :=
  {| columns := if bool_decide (c ∈ columns df) then columns df else columns df ++ [c];
     rows := zip_with (λ (r : row) x, set_cell c (VNum <$> x) r) (rows df) xs |}.

(** [df[c] = s] for one string in every row. *)
Definition assign_const (df : DataFrame) (c : string) (v : value) : DataFrame :=
  {| columns := if bool_decide (c ∈ columns df) then columns df else columns df ++ [c];
     rows := map (λ r : row, <[c := v]> r) (rows df) |}.

(** The cell of column [c] at position [i]; missing when the column or the
    position does not exist. *)
Definition cell_at (df : DataFrame) (c : string) (i : nat) : option Q :=
  if bool_decide (c ∈ columns df)
  then (rows df !! i) ≫= (λ r : row, num (r !! c))
  else None.

(** ** The pandas operations the crawler calls *)

Module Pandas.

Definition Qsum (xs : list Q) : Q := foldr Qplus 0%Q xs.

Definition Qlen (xs : list Q) : Q := inject_Z (Z.of_nat (length xs)).

Definition mean (xs : list Q) : Q := (Qsum xs / Qlen xs)%Q.

(** Sum of squared deviations over [n - 1] (pandas' default [ddof=1]). *)
Definition sample_variance (xs : list Q) : Q :=
  (Qsum (map (λ x, (x - mean xs) * (x - mean xs)) xs) / (Qlen xs - 1))%Q.

(** The trailing window of size [w] that ends at position [i]. *)
Definition window {A : Type} (w i : nat) (xs : list A) : list A :=
  take (Nat.min w (S i)) (drop (S i - w) xs).

(** The observations of a window: its cells that are not missing. *)
Definition observations (ws : list (option Q)) : list Q := omap id ws.

(** [s.rolling(window=w)] followed by an aggregate: with the default
    [min_periods = w] the aggregate is missing unless the window holds [w]
    observations. *)
Definition rolling (w : nat) (agg : list Q → option Q) (xs : list (option Q))
    : list (option Q) :=
  imap (λ i _,
          let obs := observations (window w i xs) in
          if (w <=? length obs)%nat then agg obs else None) xs.

Definition rolling_mean (w : nat) : list (option Q) → list (option Q) :=
  rolling w (λ obs, Some (mean obs)).

Section with_sqrt.
(** The floating-point square root. *)
Variable sqrtQ : Q → Q.

Definition sample_std (xs : list Q) : Q := sqrtQ (sample_variance xs).

Definition rolling_std (w : nat) : list (option Q) → list (option Q) :=
  rolling w (λ obs, if (length obs <=? 1)%nat then None else Some (sample_std obs)).
End with_sqrt.

(** Elementwise [a / b]. *)
Definition div_cell (a b : option Q) : option Q :=
  match a, b with
  | Some x, Some y => if Qeq_bool y 0 then None else Some (x / y)%Q
  | _, _ => None
  end.

(** [s.pct_change()]: [s[t] / s[t-1] - 1], missing at the first position
    and wherever one of the two cells is missing (no cell is filled from the
    one before it, as in pandas 3; older versions fill first). *)
Definition pct_change (xs : list (option Q)) : list (option Q) :=
  match xs with
  | [] => []
  | _ :: tl =>
      None :: zip_with (λ prev cur, (λ q, (q - 1)%Q) <$> div_cell cur prev) xs tl
  end.

(** [s * k] *)
Definition scale (k : Q) (xs : list (option Q)) : list (option Q) :=
  map (fmap (λ q, (q * k)%Q)) xs.

(** [a / b] on two series. *)
Definition div_series (a b : list (option Q)) : list (option Q) :=
  zip_with div_cell a b.

End Pandas.

(** ** The outside world of one call *)

(** One bar of a Yahoo Finance reply; a cell can be missing. *)
Record Bar := {
  bar_time : Z;
  bar_open : option Q;
  bar_high : option Q;
  bar_low : option Q;
  bar_close : option Q;
  bar_volume : option Q }.

(** One entry of an Alpha Vantage time series: the instant of its label and
    its fields as the JSON object has them, key by key ("1. open", ...), each
    with the number [astype(float)] reads. *)
Record AlphaBar := {
  ab_time : Z;
  ab_fields : list (string * Q) }.

(** What an Alpha Vantage request comes to.  [AlphaFails]: the request, the
    status check or the decoding of the body raises, or a label or a value
    of the series does not read as an instant or a number (all of them end
    in the same handler).  [AlphaJson]: a JSON object, with the keys the code
    looks at ("Error Message", "Note" about the call frequency,
    "Information", and the time series, [None] when its key is not there).
    The labels of a series are distinct, as are the keys of an entry. *)
Inductive alpha_reply :=
| AlphaFails
| AlphaJson (error_message note information : bool) (time_series : option (list AlphaBar)).

Record Env := {
  (** [os.environ.get("ALPHA_VANTAGE_API_KEY")] *)
  env_api_key : option string;
  (** whether [import yfinance] succeeds *)
  yfinance_installed : bool;
  (** [yf.Ticker(symbol).history(period, interval)] and the reshaping of its
      frame: the bars, or an exception *)
  yf_history : string → string → string → result (list Bar);
  (** [requests.get] on the Alpha Vantage endpoint, by function, symbol,
      interval and output size *)
  alpha_get : string → string → string → string → alpha_reply;
  (** [datetime.now()] *)
  clock : Z;
  (** [hash] on strings, fixed for one interpreter process *)
  hash : string → Z;
  (** the [k]-th value of [random.random()] after [random.seed(s)] *)
  random_stream : Z → nat → Q;
  (** the floating-point sine and square root *)
  float_sin : Q → Q;
  float_sqrt : Q → Q }.

(** ** Name resolution in [stock_crawler.py] *)

(** The names bound at module level: the imports, [logger], the flag and
    the class. *)
Definition module_globals : list string :=
  ["requests"; "pd"; "time"; "datetime"; "timedelta"; "os"; "logging";
   "List"; "Dict"; "Any"; "Optional"; "logger"; "has_yfinance"; "StockCrawler"].

(** The builtins the module uses. *)
Definition builtins : list string :=
  ["len"; "int"; "max"; "min"; "range"; "hash"; "str"; "list"; "float";
   "Exception"; "ImportError"].

(** Looking a name up from inside a function with the given local names. *)
Definition resolve (locals : list string) (name : string) : result unit :=
  if bool_decide (name ∈ locals ++ module_globals ++ builtins)
  then Ok tt
  else Raise (NameError name).

(** ** [str.split] *)

(** [s.split(sep)] for a non-empty separator: the pieces between the
    occurrences of [sep], found from left to right; [skip] counts the
    characters of an occurrence that are still to be passed over. *)
Fixpoint split_from (sep : string) (skip : nat) (s : string) : list string :=
  match s with
  | EmptyString => [EmptyString]
  | String c s' =>
      match skip with
      | S k => split_from sep k s'
      | O =>
          if String.prefix sep s
          then EmptyString :: split_from sep (String.length sep - 1) s'
          else
            match split_from sep 0 s' with
            | [] => [String c EmptyString]
            | h :: t => String c h :: t
            end
      end
  end.

Definition split_str (sep s : string) : list string := split_from sep 0 s.

(** The values of a list in the order of their first occurrence. *)
Fixpoint first_seen {A : Type} `{EqDecision A} (l : list A) : list A :=
  match l with
  | [] => []
  | x :: l' => x :: filter (λ y, y ≠ x) (first_seen l')
  end.

(** ** [class StockCrawler] *)

Module StockCrawler.

Record t := {
  api_key : option string;
  data_source : string }.

(** Truth value of an optional string. *)
Definition truthy (o : option string) : bool :=
  match o with
  | Some s => negb (s =? "")
  | None => false
  end.

(** [_check_yfinance_available]: returns the crawler and the module flag
    [has_yfinance]. *)
Definition _check_yfinance_available (env : Env) (has_yfinance : bool) (self : t)
    : t * bool :=
  if negb has_yfinance then
    if yfinance_installed env then (self, true)
    else ({| api_key := api_key self; data_source := "mock" |}, false)
  else (self, has_yfinance).

(** [__init__] *)
Definition __init__ (env : Env) (has_yfinance : bool)
    (key : option string) (source : string) : t * bool :=
  let key := if truthy key then key else env_api_key env in
  let source :=
    if (source =? "alphavantage") && negb (truthy key) then "yahoo" else source in
  let self := {| api_key := key; data_source := source |} in
  if source =? "yahoo" then _check_yfinance_available env has_yfinance self
  else (self, has_yfinance).

(** *** Frames out of provider replies *)

Definition record_of (fields : list (string * option value)) : row :=
  foldr (λ kv acc, set_cell kv.1 kv.2 acc) ∅ fields.

Definition yahoo_row (symbol : string) (timeframe : option string) (b : Bar) : row :=
  record_of [("symbol", Some (VStr symbol));
             ("timestamp", Some (VTime (bar_time b)));
             ("timeframe", VStr <$> timeframe);
             ("open", VNum <$> bar_open b);
             ("high", VNum <$> bar_high b);
             ("low", VNum <$> bar_low b);
             ("close", VNum <$> bar_close b);
             ("volume", VNum <$> bar_volume b)].

(** The frame after [reset_index], [rename], the added columns and the
    selection of columns. *)
Definition yahoo_frame (symbol : string) (timeframe : option string) (bars : list Bar)
    : DataFrame :=
  {| columns :=
       match timeframe with
       | Some _ => ["symbol"; "timestamp"; "timeframe"; "open"; "high"; "low"; "close"; "volume"]
       | None => ["symbol"; "timestamp"; "open"; "high"; "low"; "close"; "volume"]
       end;
     rows := map (yahoo_row symbol timeframe) bars |}.

(** [col.split('. ')[1]]: [IndexError] on a key without the separator. *)
Definition column_name (key : string) : result string :=
  match split_str ". " key with
  | _ :: name :: _ => Ok name
  | _ => Raise (IndexError "list index out of range")
  end.

(** The field of an entry under a key. *)
Definition ab_field (b : AlphaBar) (key : string) : option Q :=
  (λ found : nat * (string * Q), found.2.2)
    <$> list_find (λ kv : string * Q, kv.1 = key) (ab_fields b).

(** [pd.DataFrame.from_dict(time_series, orient='index')]: the columns are
    the keys of the entries in the order they are first met, the index the
    labels in the order the columns first list them; an entry without a
    field has no row, and a cell whose entry lacks the key is missing. *)
Definition alpha_keys (bars : list AlphaBar) : list string :=
  first_seen (bars ≫= (λ b, (ab_fields b).*1)).

Definition alpha_index (bars : list AlphaBar) : list AlphaBar :=
  omap (λ t, (λ found : nat * AlphaBar, found.2)
               <$> list_find (λ b : AlphaBar, ab_time b = t) bars)
    (first_seen
       (alpha_keys bars ≫=
          (λ key, ab_time <$> filter (λ b, key ∈ (ab_fields b).*1) bars))).

(** The row of an entry after the columns are renamed, [df['symbol'] =
    symbol], and the index has become the column [timestamp]. *)
Definition alpha_row (symbol : string) (renamed : list (string * string)) (b : AlphaBar)
    : row :=
  record_of (("timestamp", Some (VTime (ab_time b)))
             :: ("symbol", Some (VStr symbol))
             :: map (λ kn : string * string, (kn.2, VNum <$> ab_field b kn.1)) renamed).

(** The frame made of a time series.  A frame of the embedding holds one
    cell for a column name: the keys are taken to stay distinct when they are
    renamed, and none to be renamed to [index], [level_0] or [timestamp]. *)
Definition alpha_frame (symbol : string) (bars : list AlphaBar) : result DataFrame :=
  let keys := alpha_keys bars in
  bind (for_each column_name keys) (λ names,
    Ok {| columns :=
            "timestamp" :: (if bool_decide ("symbol" ∈ names) then names
                            else names ++ ["symbol"]);
          rows := map (alpha_row symbol (zip keys names)) (alpha_index bars) |}).

(** *** The synthetic generators *)

Definition minute : Z := 60000000.
Definition hour : Z := 3600000000.
Definition day : Z := 86400000000.

(** [timestamp.hour] *)
Definition hour_of (t : Z) : Z := ((t / hour) mod 24)%Z.

Definition base_price (symbol : string) : Q :=
  let base := if symbol =? "AAPL" then 150 # 1 else 100 # 1 in
  if symbol =? "MSFT" then 300 # 1
  else if symbol =? "GOOG" then 2500 # 1
  else if symbol =? "AMZN" then 120 # 1
  else if symbol =? "META" then 450 # 1
  else if symbol =? "TSLA" then 200 # 1
  else base.

(** [random.uniform(a, b)] as the [k]-th draw after [random.seed(seed)]. *)
Definition uniform (env : Env) (seed : Z) (k : nat) (a b : Q) : Q :=
  (a + (b - a) * random_stream env seed k)%Q.

(** [max(a, b)] and [min(a, b)]: the first argument unless the second is
    strictly beyond it. *)
Definition pymax (a b : Q) : Q := if Qle_bool b a then a else b.
Definition pymin (a b : Q) : Q := if Qle_bool a b then a else b.

(** [int(x)]: truncation towards zero. *)
Definition int (x : Q) : Z := if (0 <=? Qnum x)%Z then Qfloor x else Qceiling x.

Definition mock_step (interval : string) : Z :=
  if interval =? "1min" then minute
  else if interval =? "5min" then (5 * minute)%Z
  else if interval =? "15min" then (15 * minute)%Z
  else if interval =? "30min" then (30 * minute)%Z
  else hour.

(** The body of the loop of [_get_mock_data], at index [i]. *)
Definition mock_row (env : Env) (symbol interval : string) (i : nat) : row :=
  let timestamp := (clock env - Z.of_nat i * mock_step interval)%Z in
  let seed := (Z.of_nat i + hash env symbol)%Z in
  let daily_cycle := ((5 # 1) * (inject_Z (hour_of timestamp) / (24 # 1)))%Q in
  let randomness := uniform env seed 0 (- (2 # 1)) (2 # 1) in
  let close := (base_price symbol + daily_cycle + randomness)%Q in
  let open_price := (close - uniform env seed 1 (- (1 # 1)) (1 # 1))%Q in
  let high := (pymax open_price close + uniform env seed 2 (1 # 10) (1 # 1))%Q in
  let low := (pymin open_price close - uniform env seed 3 (1 # 10) (1 # 1))%Q in
  let volume := int (uniform env seed 4 (1000000 # 1) (5000000 # 1)) in
  record_of [("symbol", Some (VStr symbol));
             ("timestamp", Some (VTime timestamp));
             ("open", Some (VNum open_price));
             ("high", Some (VNum high));
             ("low", Some (VNum low));
             ("close", Some (VNum close));
             ("volume", Some (VNum (inject_Z volume)))].

Definition base_columns : list string :=
  ["symbol"; "timestamp"; "open"; "high"; "low"; "close"; "volume"].

(** [_get_mock_data] *)
Definition _get_mock_data (env : Env) (symbol interval : string) : DataFrame :=
  {| columns := base_columns;
     rows := map (mock_row env symbol interval) (seq 0 100) |}.

(** The body of the loop of [_get_mock_daily_data], at index [i]. *)
Definition mock_daily_row (env : Env) (symbol : string) (i : nat) : row :=
  let timestamp := (clock env - Z.of_nat i * day)%Z in
  let seed := (Z.of_nat i + hash env symbol)%Z in
  let monthly_trend := ((10 # 1) * (inject_Z (Z.of_nat i) / (365 # 1)))%Q in
  let weekly_cycle := ((5 # 1) * (inject_Z (Z.of_nat (i mod 7)) / (7 # 1)))%Q in
  let randomness := uniform env seed 0 (- (5 # 1)) (5 # 1) in
  let close := (base_price symbol + monthly_trend + weekly_cycle + randomness)%Q in
  let open_price := (close - uniform env seed 1 (- (2 # 1)) (2 # 1))%Q in
  let high := (pymax open_price close + uniform env seed 2 (1 # 2) (3 # 1))%Q in
  let low := (pymin open_price close - uniform env seed 3 (1 # 2) (3 # 1))%Q in
  let volume := int (uniform env seed 4 (5000000 # 1) (20000000 # 1)) in
  record_of [("symbol", Some (VStr symbol));
             ("timestamp", Some (VTime timestamp));
             ("open", Some (VNum open_price));
             ("high", Some (VNum high));
             ("low", Some (VNum low));
             ("close", Some (VNum close));
             ("volume", Some (VNum (inject_Z volume)))].

(** [_get_mock_daily_data] *)
Definition _get_mock_daily_data (env : Env) (symbol : string) : DataFrame :=
  {| columns := base_columns;
     rows := map (mock_daily_row env symbol) (seq 0 365) |}.

(** *** [_add_basic_indicators] *)

(** [df['close']] and [df['volume']] raise [KeyError] on a frame without
    the column; the handler returns the frame as it is by then. *)
Definition _add_basic_indicators (env : Env) (df : DataFrame) : DataFrame :=
  if negb (bool_decide ("close" ∈ columns df)) then df
  else
    let df1 :=
      if (20 <=? len df)%nat
      then assign df "sma_20" (Pandas.rolling_mean 20 (series df "close"))
      else df in
    let df2 :=
      if (50 <=? len df1)%nat
      then assign df1 "sma_50" (Pandas.rolling_mean 50 (series df1 "close"))
      else df1 in
    let df3 :=
      if (200 <=? len df2)%nat
      then assign df2 "sma_200" (Pandas.rolling_mean 200 (series df2 "close"))
      else df2 in
    let df4 :=
      assign df3 "daily_return"
        (Pandas.scale (100 # 1) (Pandas.pct_change (series df3 "close"))) in
    let df5 :=
      if (10 <=? len df4)%nat
      then assign df4 "volatility_10d"
             (Pandas.rolling_std (float_sqrt env) 10 (series df4 "daily_return"))
      else df4 in
    if negb (bool_decide ("volume" ∈ columns df5)) then df5
    else
      let df6 :=
        assign df5 "volume_change"
          (Pandas.scale (100 # 1) (Pandas.pct_change (series df5 "volume"))) in
      if bool_decide ("sma_50" ∈ columns df6)
      then assign df6 "rs_50" (Pandas.div_series (series df6 "close") (series df6 "sma_50"))
      else df6.

(** *** [_get_mock_historical_data] *)

Definition mock_points (timeframe period : string) : nat :=
  if timeframe =? "1h" then 24 * 30
  else if timeframe =? "1d" then
    if period =? "1mo" then 30
    else if period =? "3mo" then 90
    else if period =? "6mo" then 180
    else if period =? "1y" then 365
    else if period =? "5y" then 365 * 5
    else 100
  else if timeframe =? "1wk" then 52 * 5
  else if timeframe =? "1mo" then 12 * 10
  else 100.

Definition mock_historical_step (timeframe : string) : Z :=
  if timeframe =? "1h" then hour
  else if timeframe =? "1d" then day
  else if timeframe =? "1wk" then (7 * day)%Z
  else (30 * day)%Z.

(** The names the function assigns. *)
Definition mock_historical_locals : list string :=
  ["self"; "symbol"; "timeframe"; "period"; "points"; "now"; "rows"; "i";
   "timestamp"; "base_price"; "random"; "trend_factor"; "cycle"; "randomness";
   "close"; "open_price"; "high"; "low"; "volume"; "df"].

(** The body of the loop, at index [i]; it reads the name [np]. *)
Definition mock_historical_row (env : Env) (symbol timeframe : string)
    (points i : nat) : result row :=
  let timestamp := (clock env - Z.of_nat i * mock_historical_step timeframe)%Z in
  let seed := (Z.of_nat i + hash env symbol)%Z in
  let progress := (1 - inject_Z (Z.of_nat i) / inject_Z (Z.of_nat points))%Q in
  let long_term := bool_decide (timeframe ∈ ["1mo"; "1wk"]) in
  let trend_factor := if long_term then ((20 # 1) * progress)%Q else ((10 # 1) * progress)%Q in
  bind (resolve mock_historical_locals "np") (λ _,
    let cycle :=
      if long_term
      then ((10 # 1) * float_sin env (inject_Z (Z.of_nat i) / (10 # 1)))%Q
      else ((5 # 1) * float_sin env (inject_Z (Z.of_nat i) / (5 # 1)))%Q in
    let randomness := uniform env seed 0 (- (5 # 1)) (5 # 1) in
    let close := (base_price symbol + trend_factor + cycle + randomness)%Q in
    let open_price := (close - uniform env seed 1 (- (2 # 1)) (2 # 1))%Q in
    let high := (pymax open_price close + uniform env seed 2 (1 # 2) (3 # 1))%Q in
    let low := (pymin open_price close - uniform env seed 3 (1 # 2) (3 # 1))%Q in
    let volume := int (uniform env seed 4 (5000000 # 1) (20000000 # 1)) in
    Ok (record_of [("symbol", Some (VStr symbol));
                   ("timestamp", Some (VTime timestamp));
                   ("timeframe", Some (VStr timeframe));
                   ("open", Some (VNum open_price));
                   ("high", Some (VNum high));
                   ("low", Some (VNum low));
                   ("close", Some (VNum close));
                   ("volume", Some (VNum (inject_Z volume)))])).

Definition historical_columns : list string :=
  ["symbol"; "timestamp"; "timeframe"; "open"; "high"; "low"; "close"; "volume"].

Definition _get_mock_historical_data (env : Env) (symbol timeframe period : string)
    : result DataFrame :=
  let points := mock_points timeframe period in
  bind (for_each (mock_historical_row env symbol timeframe points) (seq 0 points))
    (λ rs,
       let df := {| columns := match rs with [] => [] | _ => historical_columns end;
                    rows := rs |} in
       Ok (_add_basic_indicators env df)).

(** *** The networked adapters *)

Definition interval_map (interval : string) : string :=
  if interval =? "1min" then "1m"
  else if interval =? "5min" then "5m"
  else if interval =? "15min" then "15m"
  else if interval =? "30min" then "30m"
  else "1h".

Definition period_map (yf_interval : string) : string :=
  if yf_interval =? "1m" then "1d"
  else if yf_interval =? "5m" then "5d"
  else if yf_interval =? "15m" then "5d"
  else if yf_interval =? "30m" then "5d"
  else if yf_interval =? "1h" then "60d"
  else if yf_interval =? "1d" then "1y"
  else "60d".

(** [import yfinance as yf] inside a function. *)
Definition import_yfinance (env : Env) : result unit :=
  if yfinance_installed env then Ok tt else Raise (ImportError "yfinance").

(** [_get_yahoo_data] *)
Definition _get_yahoo_data (env : Env) (has_yfinance : bool) (self : t)
    (symbol interval : string) : result DataFrame :=
  try_except
    (if negb has_yfinance then Ok (_get_mock_data env symbol interval)
     else
       bind (import_yfinance env) (λ _,
         let yf_interval := interval_map interval in
         let period := period_map yf_interval in
         bind (yf_history env symbol period yf_interval) (λ bars,
           match bars with
           | [] => Ok empty_frame
           | _ => Ok (yahoo_frame symbol None bars)
           end)))
    (λ _, Ok (_get_mock_data env symbol interval)).

(** [_get_alphavantage_data]; every exception is turned into an empty
    frame. *)
Definition _get_alphavantage_data (env : Env) (self : t)
    (symbol interval outputsize : string) : result DataFrame :=
  try_except
    match alpha_get env "TIME_SERIES_INTRADAY" symbol interval outputsize with
    | AlphaFails => Raise ProviderError
    | AlphaJson error_message note information time_series =>
        if error_message then Ok empty_frame
        else if information then Ok empty_frame
        else
          match time_series with
          | None => Ok empty_frame
          | Some [] => Ok empty_frame
          | Some bars => alpha_frame symbol bars
          end
    end
    (λ _, Ok empty_frame).

(** [get_intraday_data] *)
Definition get_intraday_data (env : Env) (has_yfinance : bool) (self : t)
    (symbol interval outputsize : string) : result DataFrame :=
  if data_source self =? "yahoo" then _get_yahoo_data env has_yfinance self symbol interval
  else if data_source self =? "alphavantage"
  then _get_alphavantage_data env self symbol interval outputsize
  else Ok (_get_mock_data env symbol interval).

(** The names [get_daily_data] assigns. *)
Definition get_daily_data_locals : list string :=
  ["self"; "symbol"; "outputsize"; "ticker"; "df"; "e"; "params"; "response";
   "data"; "time_series"; "col"].

(** [get_daily_data]; the Yahoo branch reads the name [yf]. *)
Definition get_daily_data (env : Env) (self : t) (symbol outputsize : string)
    : result DataFrame :=
  if data_source self =? "yahoo" then
    try_except
      (bind (resolve get_daily_data_locals "yf") (λ _,
         bind (yf_history env symbol "1y" "1d") (λ bars,
           match bars with
           | [] => Ok empty_frame
           | _ => Ok (yahoo_frame symbol None bars)
           end)))
      (λ _, Ok empty_frame)
  else if data_source self =? "alphavantage" then
    try_except
      match alpha_get env "TIME_SERIES_DAILY" symbol "" outputsize with
      | AlphaFails => Raise ProviderError
      | AlphaJson _ _ _ None => Ok empty_frame
      | AlphaJson _ _ _ (Some bars) => alpha_frame symbol bars
      end
      (λ _, Ok empty_frame)
  else Ok (_get_mock_daily_data env symbol).

(** The period after the adjustment for hourly data. *)
Definition clamp_period (yf_timeframe period : string) : string :=
  if (yf_timeframe =? "1h") && bool_decide (period ∈ ["1y"; "2y"; "5y"; "10y"; "max"])
  then "60d" else period.

(** [get_historical_data].  The handler of the Yahoo branch calls the
    synthetic generator outside of any [try]. *)
Definition get_historical_data (env : Env) (has_yfinance : bool) (self : t)
    (symbol timeframe period : string) : result DataFrame :=
  if data_source self =? "yahoo" then
    if negb has_yfinance then
      try_except (_get_mock_historical_data env symbol timeframe period)
        (λ _, _get_mock_historical_data env symbol timeframe period)
    else
      match import_yfinance env with
      | Raise _ => _get_mock_historical_data env symbol timeframe period
      | Ok _ =>
          let period' := clamp_period timeframe period in
          try_except
            (bind (yf_history env symbol period' timeframe) (λ bars,
               match bars with
               | [] => Ok empty_frame
               | _ => Ok (_add_basic_indicators env
                            (yahoo_frame symbol (Some timeframe) bars))
               end))
            (λ _, _get_mock_historical_data env symbol timeframe period')
      end
  else _get_mock_historical_data env symbol timeframe period.

(** *** [get_multiple_stocks] *)

(** The loop of [get_multiple_stocks] from the [k]-th symbol on.  [envs k] is
    the outside world at the [k]-th request, [acc] the dictionary [result]
    built so far and [slept] the number of calls of [time.sleep(65)]. *)
Fixpoint get_multiple_stocks_loop (envs : nat → Env) (has_yfinance : bool) (self : t)
    (interval : string) (k : nat) (symbols : list string)
    (acc : gmap string DataFrame) (slept : nat) : result (gmap string DataFrame * nat) :=
  match symbols with
  | [] => Ok (acc, slept)
  | symbol :: rest =>
      let slept :=
        if (data_source self =? "alphavantage") && (0 <? size acc)%nat
           && (size acc mod 5 =? 0)%nat
        then S slept else slept in
      bind (get_intraday_data (envs k) has_yfinance self symbol interval "full") (λ df,
        get_multiple_stocks_loop envs has_yfinance self interval (S k) rest
          (if df_empty df then acc else <[symbol := df]> acc) slept)
  end.

(** [get_multiple_stocks]: the dictionary and the number of pauses taken. *)
Definition get_multiple_stocks (envs : nat → Env) (has_yfinance : bool) (self : t)
    (symbols : list string) (interval : string) : result (gmap string DataFrame * nat) :=
  get_multiple_stocks_loop envs has_yfinance self interval 0 symbols ∅ 0.

End StockCrawler.

(** ** String helpers *)

(** [s.endswith(suffix)] *)
Definition ends_with (suffix s : string) : bool :=
  let n := String.length s in
  let m := String.length suffix in
  (m <=? n)%nat && (substring (n - m) m s =? suffix).

(** [s.split(sep)] for a one-character separator. *)
Fixpoint split_on (sep : ascii) (s : string) : list string :=
  match s with
  | EmptyString => [EmptyString]
  | String c s' =>
      if Ascii.eqb c sep then EmptyString :: split_on sep s'
      else
        match split_on sep s' with
        | [] => [String c EmptyString]
        | h :: t => String c h :: t
        end
  end.

(** [s.replace(old, new)] for a non-empty [old]: occurrences are replaced
    from left to right; [skip] counts the characters of an occurrence that
    are still to be passed over. *)
Fixpoint replace_from (old new : string) (skip : nat) (s : string) : string :=
  match s with
  | EmptyString => EmptyString
  | String c s' =>
      match skip with
      | S k => replace_from old new k s'
      | O =>
          if String.prefix old s
          then (new ++ replace_from old new (String.length old - 1) s')%string
          else String c (replace_from old new 0 s')
      end
  end.

Definition replace (old new s : string) : string := replace_from old new 0 s.

(** ** The relational store *)

(** An [INSERT INTO t (columns) VALUES ... ON CONFLICT (conflict) DO UPDATE
    SET c = EXCLUDED.c] for the [c] of [update]. *)
Record upsert_stmt := {
  stmt_columns : list string;
  stmt_conflict : list string;
  stmt_update : list string }.

(** The key of a row under a unique constraint: absent as soon as one of
    its columns is NULL, since NULLs never collide. *)
Definition key_of (kc : list string) (r : row) : option (list value) :=
  mapM (λ c, r !! c) kc.

Definition conflict (kc : list string) (r t : row) : bool :=
  match key_of kc r, key_of kc t with
  | Some a, Some b => bool_decide (a = b)
  | _, _ => false
  end.

(** The row proposed for insertion ([EXCLUDED]): the tuple's values under the
    statement's columns, the other columns NULL. *)
Definition excluded (cols : list string) (tup : list (option value)) : row :=
  foldr (λ cv acc, set_cell cv.1 cv.2 acc) ∅ (zip cols tup).

(** [DO UPDATE SET c = EXCLUDED.c] for the listed columns. *)
Definition do_update (ucols : list string) (old new : row) : row :=
  foldr (λ c acc, set_cell c (new !! c) acc) old ucols.

(** One proposed row against the table: the conflicting row is updated in
    place, or the proposed row is added. *)
Fixpoint upsert_row (q : upsert_stmt) (new : row) (T : list row) : list row :=
  match T with
  | [] => [new]
  | r :: T' =>
      if conflict (stmt_conflict q) r new
      then do_update (stmt_update q) r new :: T'
      else r :: upsert_row q new T'
  end.

Definition upsert_all (q : upsert_stmt) (B : list row) (T : list row) : list row :=
  foldl (λ T t, upsert_row q t T) T B.

(** What the database does with the tuples of an upsert statement, the way
    [execute_batch] sends them and the way [execute_values] sends them once
    it has accepted the query: the tuples are applied in order.  A batch that
    the database rejects is not a case of this function but a fault of the
    task that runs it. *)
Definition execute_values (q : upsert_stmt) (tuples : list (list (option value)))
    (T : list row) : list row :=
  upsert_all q (map (excluded (stmt_columns q)) tuples) T.

(** The two tables; [None] while a table is not created.  The columns [id]
    and [created_at], which no statement of the code writes, are left out. *)
Record Database := {
  stock_data : option (list row);
  stock_data_v2 : option (list row) }.

(** [CREATE TABLE IF NOT EXISTS] *)
Definition create_if_absent (T : option (list row)) : option (list row) :=
  match T with
  | None => Some []
  | Some rs => Some rs
  end.

(** A connection with autocommit off: the statements of the open
    transaction act on [working]; [commit] makes them the committed state,
    [rollback] drops them, and closing the connection leaves the committed
    state behind. *)
Record Connection := {
  committed : Database;
  working : Database }.

Definition connect (db : Database) : Connection :=
  {| committed := db; working := db |}.

Definition commit (conn : Connection) : Connection :=
  {| committed := working conn; working := working conn |}.

Definition rollback (conn : Connection) : Connection :=
  {| committed := committed conn; working := committed conn |}.

Definition close (conn : Connection) : Database := committed conn.

(** A statement of the open transaction. *)
Definition execute (f : Database → Database) (conn : Connection) : Connection :=
  {| committed := committed conn; working := f (working conn) |}.

(** [CREATE TABLE IF NOT EXISTS stock_data] and [... stock_data_v2]. *)
Definition create_stock_data (db : Database) : Database :=
  {| stock_data := create_if_absent (stock_data db); stock_data_v2 := stock_data_v2 db |}.

Definition create_stock_data_v2 (db : Database) : Database :=
  {| stock_data := stock_data db; stock_data_v2 := create_if_absent (stock_data_v2 db) |}.

(** A statement on the rows of [stock_data] and of [stock_data_v2]. *)
Definition on_stock_data (f : list row → list row) (db : Database) : Database :=
  {| stock_data := f <$> stock_data db; stock_data_v2 := stock_data_v2 db |}.

Definition on_stock_data_v2 (f : list row → list row) (db : Database) : Database :=
  {| stock_data := stock_data db; stock_data_v2 := f <$> stock_data_v2 db |}.

(** The unique constraint holds in a table. *)
Definition keys (kc : list string) (T : list row) : list (list value) :=
  omap (key_of kc) T.


(** [SELECT COUNT( * ) FROM t WHERE symbol = s AND timeframe = tf] *)
Definition count_rows (symbol timeframe : string) (T : list row) : nat :=
  length (filter (λ r : row, r !! "symbol" = Some (VStr symbol)
                             ∧ r !! "timeframe" = Some (VStr timeframe)) T).

(** ** The object store and the world of a task *)

Record World := {
  (** bucket, then object key; an object is the frame its CSV text holds *)
  minio : gmap string (gmap string DataFrame);
  pg : Database }.

(** Which outside calls raise during one task: the object store is
    unreachable; the database is unreachable (the connection, or the
    statement that creates the table, raises); the database rejects the
    insert statement or its commit (a constraint violation, say). *)
Record Faults := {
  minio_fails : bool;
  pg_connect_fails : bool;
  pg_execute_fails : bool }.

Definition no_faults : Faults :=
  {| minio_fails := false; pg_connect_fails := false; pg_execute_fails := false |}.

(** ** [stock_data_pipeline.py] *)

Module Pipeline.

Definition STOCK_SYMBOLS : list string :=
  ["AAPL"; "MSFT"; "GOOG"; "AMZN"; "META"; "TSLA"; "JPM"; "BAC"; "V"; "MA"].

(** [TIMEFRAMES.get(timeframe_key, TIMEFRAMES['daily'])] as the pair
    (timeframe, period). *)
Definition TIMEFRAMES (timeframe_key : string) : string * string :=
  if timeframe_key =? "hourly" then ("1h", "60d")
  else if timeframe_key =? "daily" then ("1d", "1y")
  else if timeframe_key =? "weekly" then ("1wk", "5y")
  else if timeframe_key =? "monthly" then ("1mo", "10y")
  else ("1d", "1y").

Definition bucket_name : string := "stock-data".

(** The dictionary a crawl task returns. *)
Record CrawlResult := {
  cr_symbol : string;
  cr_timeframe : string;
  cr_file_path : string;
  cr_row_count : nat;
  cr_execution_date : string }.

Definition object_key_of (symbol timeframe_key execution_date : string) : string :=
  (symbol ++ "/" ++ timeframe_key ++ "/" ++ execution_date ++ ".csv")%string.

Definition put_object (bucket key : string) (body : DataFrame)
    (m : gmap string (gmap string DataFrame)) : gmap string (gmap string DataFrame) :=
  <[bucket := <[key := body]> (default ∅ (m !! bucket))]> m.

(** [crawl_stock_data]: the world after the task and what the task returns
    ([Ok None] is Python's [None]). *)
Definition crawl_stock_data (env : Env) (faults : Faults) (has_yfinance : bool)
    (w : World) (symbol timeframe_key execution_date : string)
    : World * result (option CrawlResult) :=
  let '(timeframe, period) := TIMEFRAMES timeframe_key in
  let '(crawler, has_yfinance) :=
    StockCrawler.__init__ env has_yfinance (env_api_key env) "yahoo" in
  match StockCrawler.get_historical_data env has_yfinance crawler symbol timeframe period with
  | Raise e => (w, Raise e)
  | Ok df =>
      if df_empty df then (w, Ok None)
      else if minio_fails faults then (w, Raise (StorageError "minio"))
      else
        let object_key := object_key_of symbol timeframe_key execution_date in
        ({| minio := put_object bucket_name object_key df (minio w); pg := pg w |},
         Ok (Some {| cr_symbol := symbol;
                     cr_timeframe := timeframe_key;
                     cr_file_path := ("s3://" ++ bucket_name ++ "/" ++ object_key)%string;
                     cr_row_count := len df;
                     cr_execution_date := execution_date |}))
  end.

Definition allowed_columns : list string :=
  ["symbol"; "timestamp"; "timeframe"; "open"; "high"; "low"; "close"; "volume";
   "sma_20"; "sma_50"; "sma_200"; "daily_return"; "volatility_10d"; "volume_change";
   "rs_50"].

Definition key_columns : list string := ["symbol"; "timestamp"; "timeframe"].

(** The statement built from the columns of the frame. *)
Definition insert_query (cols : list string) : upsert_stmt :=
  {| stmt_columns := cols;
     stmt_conflict := key_columns;
     stmt_update := filter (λ c, c ∉ key_columns) cols |}.

(** [[row[col] if col in row and pd.notna(row[col]) else None for col in columns]] *)
Definition tuple_of (cols : list string) (r : row) : list (option value) :=
  map (λ c, r !! c) cols.

(** [_split_sql] of [psycopg2.extras]: [execute_values] takes a query with
    exactly one [%s], which it replaces by the list of the tuples; with any
    other number of them it raises [ValueError] before a statement is
    sent. *)
Definition _split_sql (placeholders : nat) : result unit :=
  match placeholders with
  | 0 => Raise (ValueError "the query doesn't contain any '%s' placeholder")
  | 1 => Ok tt
  | _ => Raise (ValueError "the query contains more than one '%s' placeholder")
  end.

(** The body of the inner [try]: [extras.execute_values(cursor, insert_query,
    tuples)], then [conn.commit()].  The query has one [%s] for each column
    ([placeholder_str]), inside the parentheses of [VALUES (...)].  When it
    has exactly one, [execute_values] puts the tuples of a page, each in
    parentheses of its own, in the place of the [%s]: without tuples no
    statement is sent; one tuple gives [VALUES ((v))], a row of one value;
    more give [VALUES ((v1),(v2),...)], one row of more values than the
    statement has columns, which the database refuses.  A statement whose
    [SET] list is empty is a syntax error.  [rejected] tells whether the
    database rejects the statement or the commit for a reason of its own. *)
Definition insert_batch (rejected : bool) (cols : list string)
    (tuples : list (list (option value))) (conn : Connection) : result Connection :=
  bind (_split_sql (length cols)) (λ _,
    if rejected then Raise (StorageError "postgres")
    else
      match tuples with
      | [] => Ok (commit conn)
      | [tuple] =>
          if bool_decide (stmt_update (insert_query cols) = [])
          then Raise (StorageError "syntax error")
          else Ok (commit (execute (on_stock_data_v2
                                      (execute_values (insert_query cols) [tuple])) conn))
      | _ => Raise (StorageError "INSERT has more expressions than target columns")
      end).

(** [insert_to_postgres]; [crawl_result] is what [xcom_pull] hands over. *)
Definition insert_to_postgres (faults : Faults) (w : World)
    (symbol timeframe_key : string) (crawl_result : option CrawlResult)
    : World * result unit :=
  match crawl_result with
  | None => (w, Ok tt)
  | Some cr =>
      if minio_fails faults then (w, Raise (StorageError "minio"))
      else
        let object_key :=
          replace ("s3://" ++ bucket_name ++ "/")%string "" (cr_file_path cr) in
        match (minio w !! bucket_name) ≫= (λ b : gmap string DataFrame, b !! object_key) with
        | None => (w, Raise (StorageError "NoSuchKey"))
        | Some df =>
            if pg_connect_fails faults then (w, Raise (StorageError "postgres"))
            else
              let conn := connect (pg w) in
              let conn := execute create_stock_data_v2 conn in
              let cols := filter (λ c, c ∈ allowed_columns) (columns df) in
              let tuples := map (tuple_of cols) (rows df) in
              (* try: execute_values, commit; except: rollback *)
              let conn :=
                match insert_batch (pg_execute_fails faults) cols tuples conn with
                | Ok conn' => conn'
                | Raise _ => rollback conn
                end in
              ({| minio := minio w; pg := close conn |}, Ok tt)
        end
  end.

(** One work unit: the crawl task, then the insert task with its result. *)
Definition run_unit (env : Env) (crawl_faults insert_faults : Faults)
    (has_yfinance : bool) (w : World) (symbol timeframe_key execution_date : string)
    : World * result unit :=
  match crawl_stock_data env crawl_faults has_yfinance w symbol timeframe_key execution_date with
  | (w', Raise e) => (w', Raise e)
  | (w', Ok crawl_result) =>
      insert_to_postgres insert_faults w' symbol timeframe_key crawl_result
  end.

End Pipeline.

(** ** [fix_data_transfer.py] *)

Module FixDataTransfer.

Definition insert_sql : upsert_stmt :=
  {| stmt_columns := ["symbol"; "timestamp"; "open"; "high"; "low"; "close"; "volume"];
     stmt_conflict := ["symbol"; "timestamp"];
     stmt_update := ["open"; "high"; "low"; "close"; "volume"] |}.

Definition insert_v2_sql : upsert_stmt :=
  {| stmt_columns :=
       ["symbol"; "timestamp"; "timeframe"; "open"; "high"; "low"; "close"; "volume"];
     stmt_conflict := ["symbol"; "timestamp"; "timeframe"];
     stmt_update := ["open"; "high"; "low"; "close"; "volume"] |}.

(** [float(row[c]) if c in row and pd.notna(row[c]) else None] *)
Definition to_float (v : option value) : result (option value) :=
  match v with
  | None => Ok None
  | Some (VNum q) => Ok (Some (VNum q))
  | Some _ => Raise (ValueError "float")
  end.

Definition ohlcv (r : row) : result (list (option value)) :=
  bind (to_float (r !! "open")) (λ o,
  bind (to_float (r !! "high")) (λ h,
  bind (to_float (r !! "low")) (λ l,
  bind (to_float (r !! "close")) (λ c,
  bind (to_float (r !! "volume")) (λ v, Ok [o; h; l; c; v]))))).

(** [row['timestamp']] raises on a frame without the column. *)
Definition data_tuple (df : DataFrame) (r : row) : result (list (option value)) :=
  if bool_decide ("timestamp" ∈ columns df)
  then bind (ohlcv r) (λ vs, Ok (r !! "symbol" :: r !! "timestamp" :: vs))
  else Raise (KeyError "timestamp").

Definition data_tuple_v2 (timeframe : string) (df : DataFrame) (r : row)
    : result (list (option value)) :=
  if bool_decide ("timestamp" ∈ columns df)
  then bind (ohlcv r)
         (λ vs, Ok (r !! "symbol" :: r !! "timestamp" :: Some (VStr timeframe) :: vs))
  else Raise (KeyError "timestamp").

(** What the body of the loop comes to for one file: [continue], the
    statements done, or an exception. *)
Inductive outcome :=
| Skipped
| Written (conn : Connection)
| Failed.

(** The frame after the symbol and timeframe columns are made sure of. *)
Definition prepare (symbol timeframe : string) (df : DataFrame) : DataFrame :=
  let df1 :=
    if bool_decide ("symbol" ∈ columns df) then df
    else assign_const df "symbol" (VStr symbol) in
  if bool_decide ("timeframe" ∈ columns df1) then df1
  else assign_const df1 "timeframe" (VStr timeframe).

(** The body of the [try] for the object [key], up to the commit;
    [content] is what [get_object] and [read_csv] give ([None]: they raise),
    [db_fault] tells whether the database rejects a statement of this
    file.  A statement on a table that is not there raises. *)
Definition process_file (conn : Connection) (key : string)
    (content : option DataFrame) (db_fault : bool) : outcome :=
  if negb (ends_with ".csv" key) then Skipped
  else
    match split_on "/"%char key with
    | symbol :: timeframe :: _ =>
        match content with
        | None => Failed
        | Some df =>
            if df_empty df then Skipped
            else
              let df' := prepare symbol timeframe df in
              match for_each (data_tuple df') (rows df') with
              | Raise _ => Failed
              | Ok [] => Written conn
              | Ok data_tuples =>
                  if db_fault then Failed
                  else
                    match stock_data (working conn), stock_data_v2 (working conn) with
                    | Some _, Some _ =>
                        let conn1 :=
                          execute (on_stock_data (execute_values insert_sql data_tuples))
                            conn in
                        match for_each (data_tuple_v2 timeframe df') (rows df') with
                        | Raise _ => Failed
                        | Ok data_tuples_v2 =>
                            Written
                              (execute (on_stock_data_v2
                                          (execute_values insert_v2_sql data_tuples_v2))
                                 conn1)
                        end
                    | _, _ => Failed
                    end
              end
        end
    | _ => Skipped
    end.

(** The loop over the listing, from index [i]. *)
Fixpoint process_files (objects : gmap string DataFrame) (db_fault : string → bool)
    (i : nat) (listing : list string) (conn : Connection) : Connection :=
  match listing with
  | [] => conn
  | key :: rest =>
      match process_file conn key (objects !! key) (db_fault key) with
      | Skipped => process_files objects db_fault (S i) rest conn
      | Failed => process_files objects db_fault (S i) rest (rollback conn)
      | Written conn' =>
          process_files objects db_fault (S i) rest
            (if (i mod 10 =? 0)%nat then commit conn' else conn')
      end
  end.

(** [load_and_insert_data]; [listing] is what [list_minio_files] returns,
    in its order. *)
Definition load_and_insert_data (w : World) (listing : list string)
    (db_fault : string → bool) : World :=
  let conn := connect (pg w) in
  let conn := execute create_stock_data conn in
  let conn := execute create_stock_data_v2 conn in
  let objects := default ∅ (minio w !! "stock-data") in
  let conn := process_files objects db_fault 0 listing conn in
  {| minio := minio w; pg := close (commit conn) |}.

End FixDataTransfer.

(** ** [stock_routes.py]: the reader of the two tables *)

Module StockRoutes.

(** [timeframe_mapping], looked up with the query parameter [period]. *)
Definition timeframe_mapping (period : string) : option string :=
  if period =? "1h" then Some "hourly"
  else if period =? "1d" then Some "daily"
  else if period =? "1w" then Some "weekly"
  else if period =? "1m" then Some "monthly"
  else None.

(** [db_timeframe = timeframe], replaced by [timeframe_mapping[period]] when
    [period] is a key of the mapping. *)
Definition db_timeframe (period timeframe : string) : string :=
  default timeframe (timeframe_mapping period).

(** The instant in the [timestamp] column of a row; [None] is NULL. *)
Definition instant (r : row) : option Z :=
  match r !! "timestamp" with
  | Some (VTime t) => Some t
  | _ => None
  end.

(** [ORDER BY timestamp DESC]: a row comes before the rows of earlier
    instants; NULLs come first. *)
Definition later (r1 r2 : row) : Prop :=
  match instant r1, instant r2 with
  | None, _ => True
  | Some _, None => False
  | Some a, Some b => (b ≤ a)%Z
  end.

#[global] Instance later_dec : RelDecision later.
Proof. intros r1 r2. unfold later. destruct (instant r1), (instant r2); apply _. Defined.

(** [... ORDER BY timestamp DESC LIMIT limit] on the rows that match. *)
Definition latest (limit : Z) (matching : list row) : list row :=
  take (Z.to_nat limit) (merge_sort later matching).

(** What the handler answers: the JSON list, or [HTTPException(500)]. *)
Inductive response :=
| Json (items : list row)
| InternalServerError.

(** The dictionary built from a row of [stock_data_v2]. *)
Definition v2_item (r : row) : row :=
  StockCrawler.record_of
    [("symbol", r !! "symbol"); ("timestamp", r !! "timestamp");
     ("timeframe", r !! "timeframe");
     ("open", r !! "open"); ("high", r !! "high"); ("low", r !! "low");
     ("close", r !! "close"); ("volume", r !! "volume")].

(** The dictionary built from a row of [stock_data]; the timeframe is the
    one asked for. *)
Definition legacy_item (db_timeframe : string) (r : row) : row :=
  StockCrawler.record_of
    [("symbol", r !! "symbol"); ("timestamp", r !! "timestamp");
     ("timeframe", Some (VStr db_timeframe));
     ("open", r !! "open"); ("high", r !! "high"); ("low", r !! "low");
     ("close", r !! "close"); ("volume", r !! "volume")].

(** The part of [get_stock_data] that reads [stock_data].  A query on a
    table that is not there, and a negative [LIMIT], raise. *)
Definition read_legacy (db : Database) (symbol db_timeframe : string) (limit : Z)
    : response :=
  match stock_data db with
  | None => InternalServerError
  | Some legacy =>
      let matching := filter (λ r : row, r !! "symbol" = Some (VStr symbol)) legacy in
      if (length matching =? 0)%nat then Json []
      else if (limit <? 0)%Z then InternalServerError
      else Json (reverse (map (legacy_item db_timeframe) (latest limit matching)))
  end.

(** [get_stock_data]; [connect_fails] tells whether [get_db_connection]
    raises. *)
Definition get_stock_data (db : Database) (connect_fails : bool)
    (symbol period timeframe : string) (limit : Z) : response :=
  let db_timeframe := db_timeframe period timeframe in
  if connect_fails then InternalServerError
  else
    match stock_data_v2 db with
    | Some v2 =>
        let matching :=
          filter (λ r : row, r !! "symbol" = Some (VStr symbol)
                             ∧ r !! "timeframe" = Some (VStr db_timeframe)) v2 in
        if (0 <? length matching)%nat then
          if (limit <? 0)%Z then InternalServerError
          else Json (reverse (map v2_item (latest limit matching)))
        else read_legacy db symbol db_timeframe limit
    | None => read_legacy db symbol db_timeframe limit
    end.

End StockRoutes.

(** ** Vocabulary of the properties *)

(** The conflict and update columns of a statement are apart. *)
Definition well_formed (q : upsert_stmt) : Prop := stmt_conflict q ## stmt_update q.



(** The upsert statements that reach the database: the two of the transfer
    utility. *)
Inductive code_statement : upsert_stmt → Prop :=
| stmt_legacy : code_statement FixDataTransfer.insert_sql
| stmt_versioned : code_statement FixDataTransfer.insert_v2_sql.

(** The statements of [_add_basic_indicators], one by one. *)
Definition sma_step (n : nat) (c : string) (d : DataFrame) : DataFrame :=
  if (n <=? len d)%nat then assign d c (Pandas.rolling_mean n (series d "close")) else d.

Definition return_step (d : DataFrame) : DataFrame :=
  assign d "daily_return" (Pandas.scale (100 # 1) (Pandas.pct_change (series d "close"))).

Definition volatility_step (env : Env) (d : DataFrame) : DataFrame :=
  if (10 <=? len d)%nat
  then assign d "volatility_10d"
         (Pandas.rolling_std (float_sqrt env) 10 (series d "daily_return"))
  else d.

Definition volume_step (d : DataFrame) : DataFrame :=
  assign d "volume_change" (Pandas.scale (100 # 1) (Pandas.pct_change (series d "volume"))).

Definition rs_step (d : DataFrame) : DataFrame :=
  if bool_decide ("sma_50" ∈ columns d)
  then assign d "rs_50" (Pandas.div_series (series d "close") (series d "sma_50"))
  else d.

(** A step that writes column [c] and leaves the rest of the frame alone. *)
Definition keeps (c : string) (f : DataFrame → DataFrame) : Prop :=
  ∀ d, len (f d) = len d
       ∧ (∀ c', c' ≠ c → series (f d) c' = series d c')
       ∧ (∀ c' i, c' ≠ c → cell_at (f d) c' i = cell_at d c' i)
       ∧ (∀ c', c' ∈ columns d → c' ∈ columns (f d)).

(** The window sizes of the moving averages and their columns. *)
Definition sma_windows : list (nat * string) :=
  [(20, "sma_20"); (50, "sma_50"); (200, "sma_200")].

(** The series of daily returns as the specification words it:
    [(close[t] - close[t-1]) / close[t-1] * 100]. *)
Definition daily_return_formula (previous current : Q) : Q :=
  ((current - previous) / previous * (100 # 1))%Q.

(** The timestamps of a frame, in row order. *)
Definition timestamps (df : DataFrame) : list Z :=
  omap (λ r : row, match r !! "timestamp" with Some (VTime t) => Some t | _ => None end)
       (rows df).

(** Ordered ascending by timestamp, without duplicates. *)
Definition ascending (ts : list Z) : Prop :=
  ∀ i j a b, (i < j)%nat → ts !! i = Some a → ts !! j = Some b → (a < b)%Z.

(** Newest first. *)
Definition descending (ts : list Z) : Prop :=
  ∀ i j a b, (i < j)%nat → ts !! i = Some a → ts !! j = Some b → (b < a)%Z.

(** The same world at another reading of the clock. *)
Definition at_clock (env : Env) (t : Z) : Env :=
  {| env_api_key := env_api_key env;
     yfinance_installed := yfinance_installed env;
     yf_history := yf_history env;
     alpha_get := alpha_get env;
     clock := t;
     hash := hash env;
     random_stream := random_stream env;
     float_sin := float_sin env;
     float_sqrt := float_sqrt env |}.

(** Daily bars with closing prices 100, 101, ... for the examples. *)
Definition sample_bar (i : nat) : Bar :=
  {| bar_time := (Z.of_nat i * StockCrawler.day)%Z;
     bar_open := Some (inject_Z (100 + Z.of_nat i));
     bar_high := Some (inject_Z (101 + Z.of_nat i));
     bar_low := Some (inject_Z (99 + Z.of_nat i));
     bar_close := Some (inject_Z (100 + Z.of_nat i));
     bar_volume := Some (inject_Z 1000) |}.

Definition sample_bars (n : nat) : list Bar := map sample_bar (seq 0 n).

(** A world for the examples: the Yahoo library is installed and answers
    with [bars], Alpha Vantage is throttled (a "Note" and no time series),
    the clock reads 0; the float functions are stand-ins. *)
Definition sample_env (bars : list Bar) : Env :=
  {| env_api_key := Some "demo";
     yfinance_installed := true;
     yf_history := λ _ _ _, Ok bars;
     alpha_get := λ _ _ _ _, AlphaJson false true false None;
     clock := 0;
     hash := λ s, Z.of_nat (String.length s);
     random_stream := λ seed k, 1 # 2;
     float_sin := λ x, x;
     float_sqrt := λ x, x |}.

(** The same world without the Yahoo library and with a failing network. *)
Definition offline_env : Env :=
  {| env_api_key := Some "demo";
     yfinance_installed := false;
     yf_history := λ _ _ _, Raise ProviderError;
     alpha_get := λ _ _ _ _, AlphaFails;
     clock := 0;
     hash := λ s, Z.of_nat (String.length s);
     random_stream := λ seed k, 1 # 2;
     float_sin := λ x, x;
     float_sqrt := λ x, x |}.

(** A world in which both providers fail: Alpha Vantage is throttled and
    the request to Yahoo raises. *)
Definition throttled_env : Env :=
  {| env_api_key := Some "demo";
     yfinance_installed := true;
     yf_history := λ _ _ _, Raise ProviderError;
     alpha_get := λ _ _ _ _, AlphaJson false true false None;
     clock := 0;
     hash := λ s, Z.of_nat (String.length s);
     random_stream := λ seed k, 1 # 2;
     float_sin := λ x, x;
     float_sqrt := λ x, x |}.

Definition empty_world : World :=
  {| minio := ∅; pg := {| stock_data := None; stock_data_v2 := None |} |}.

(** The cell of column [c] at position [i], of any type. *)
Definition raw_at (df : DataFrame) (c : string) (i : nat) : option value :=
  (rows df !! i) ≫= (λ r : row, r !! c).

(** [random.random()] gives a number of the interval [0, 1). *)
Definition unit_interval (env : Env) : Prop :=
  ∀ seed k, (0 <= random_stream env seed k)%Q ∧ (random_stream env seed k < 1)%Q.

(** The columns [_add_basic_indicators] writes. *)
Definition indicator_columns : list string :=
  ["sma_20"; "sma_50"; "sma_200"; "daily_return"; "volatility_10d"; "volume_change"; "rs_50"].

(** A string without the character [c]. *)
Fixpoint free_of (c : ascii) (s : string) : bool :=
  match s with
  | EmptyString => true
  | String a s' => negb (Ascii.eqb a c) && free_of c s'
  end.

(** A bar whose prices are positive numbers with the low under the open and
    the close, the high above them, and a whole volume from [vmin] up to,
    not including, [vmax]. *)
Definition sound_bar (vmin vmax : Z) (r : row) : Prop :=
  ∃ (o h l c : Q) (v : Z),
    r !! "open" = Some (VNum o) ∧ r !! "high" = Some (VNum h)
    ∧ r !! "low" = Some (VNum l) ∧ r !! "close" = Some (VNum c)
    ∧ r !! "volume" = Some (VNum (inject_Z v))
    ∧ (0 < l)%Q ∧ (l < o)%Q ∧ (l < c)%Q ∧ (o < h)%Q ∧ (c < h)%Q
    ∧ (vmin ≤ v < vmax)%Z.

(** The number of the requests [k], [k + 1], ..., [k + n - 1] whose index is
    a positive multiple of five. *)
Fixpoint pauses (k n : nat) : nat :=
  match n with
  | O => O
  | S n' => (if (0 <? k)%nat && (k mod 5 =? 0)%nat then 1 else 0) + pauses (S k) n'
  end.

(** The tuples the transfer utility builds from a row, for the legacy and
    for the versioned table. *)
Definition legacy_tuple (r : row) : list (option value) :=
  [r !! "symbol"; r !! "timestamp";
   r !! "open"; r !! "high"; r !! "low"; r !! "close"; r !! "volume"].

Definition versioned_tuple (timeframe : string) (r : row) : list (option value) :=
  [r !! "symbol"; r !! "timestamp"; Some (VStr timeframe);
   r !! "open"; r !! "high"; r !! "low"; r !! "close"; r !! "volume"].

(** A world after the pipeline alone: a staged file and no table. *)
Definition pipeline_world : World :=
  (Pipeline.run_unit (sample_env (sample_bars 2)) no_faults no_faults true empty_world
     "AAPL" "daily" "2024-01-01_00-00-00").1.

(** A world after a unit of hourly bars and a run of the transfer utility
    on its file: both tables hold its rows, the versioned one under
    "hourly". *)
Definition hourly_world : World :=
  FixDataTransfer.load_and_insert_data
    (Pipeline.run_unit (sample_env (sample_bars 2)) no_faults no_faults true empty_world
       "AAPL" "hourly" "2024-01-01_00-00-00").1
    [Pipeline.object_key_of "AAPL" "hourly" "2024-01-01_00-00-00"] (λ _, false).

(** The same world after a unit of daily bars, whose file is staged and not
    transferred yet. *)
Definition archive_world : World :=
  (Pipeline.run_unit (sample_env (sample_bars 2)) no_faults no_faults true hourly_world
     "AAPL" "daily" "2024-01-01_00-00-00").1.

(** The connection after the files [keys] of a listing, when the utility
    writes each of them and commits after none. *)
Fixpoint written_through (objects : gmap string DataFrame) (db_fault : string → bool)
    (conn : Connection) (keys : list string) : option Connection :=
  match keys with
  | [] => Some conn
  | key :: rest =>
      match FixDataTransfer.process_file conn key (objects !! key) (db_fault key) with
      | FixDataTransfer.Written conn' => written_through objects db_fault conn' rest
      | _ => None
      end
  end.

(** The schema of a frame of bars for one symbol: the seven base columns in
    some order, and in every row the symbol and an instant. *)
Definition base_schema (symbol : string) (df : DataFrame) : Prop :=
  columns df ≡ₚ StockCrawler.base_columns
  ∧ ∀ r, r ∈ rows df →
         r !! "symbol" = Some (VStr symbol) ∧ ∃ t, r !! "timestamp" = Some (VTime t).

(** * Properties *)

(** Membership in a list that is written out, and what follows from it. *)
Ltac in_list := repeat first [apply list_elem_of_here | apply list_elem_of_further].

Ltac by_cases_on H :=
  repeat (apply elem_of_cons in H as [->|H]; [in_list|]); by apply elem_of_nil in H.


(** A closed string is not in a list that is written out. *)
Ltac not_in_list :=
  let H := fresh in
  intros H; repeat (apply elem_of_cons in H as [H|H]; [discriminate H|]);
  by apply elem_of_nil in H.

(** ** The upsert *)

Lemma lookup_set_cell c v (r : row) c' :
  set_cell c v r !! c' = if decide (c = c') then v else r !! c'.
Proof.
  unfold set_cell. destruct v as [x|].
  - by rewrite lookup_insert.
  - by rewrite lookup_delete.
Qed.

Lemma lookup_do_update ucols old new c :
  do_update ucols old new !! c = if decide (c ∈ ucols) then new !! c else old !! c.
Proof.
  unfold do_update. induction ucols as [|u us IH]; simpl; [done|].
  rewrite lookup_set_cell. destruct (decide (u = c)) as [->|Hne].
  - rewrite decide_True by set_solver. done.
  - rewrite IH. destruct (decide (c ∈ us)), (decide (c ∈ u :: us)); done || set_solver.
Qed.

Lemma key_of_ext kc (r r' : row) :
  (∀ c, c ∈ kc → r !! c = r' !! c) → key_of kc r = key_of kc r'.
Proof.
  unfold key_of. induction kc as [|k ks IH]; intros H; [done|].
  simpl. rewrite (H k) by set_solver. rewrite IH; [done|]. intros; apply H; set_solver.
Qed.

Lemma key_of_lookup kc (r : row) k c :
  key_of kc r = Some k → c ∈ kc → is_Some (r !! c).
Proof.
  unfold key_of. revert k. induction kc as [|a ks IH]; intros k Hk Hc; [set_solver|].
  simpl in Hk. destruct (r !! a) as [v|] eqn:Ha; [|done]. simpl in Hk.
  destruct (mapM (λ c0 : string, r !! c0) ks) as [vs|] eqn:Hks; [|done].
  apply elem_of_cons in Hc as [->|Hc]; [by rewrite Ha|]. by eapply IH.
Qed.

Lemma key_of_eq_lookup kc (r t : row) k c :
  key_of kc r = Some k → key_of kc t = Some k → c ∈ kc → r !! c = t !! c.
Proof.
  unfold key_of. revert k. induction kc as [|a ks IH]; intros k Hr Ht Hc; [set_solver|].
  simpl in Hr, Ht.
  destruct (r !! a) as [v|] eqn:Ha; [|done].
  destruct (t !! a) as [v'|] eqn:Ha'; [|done]. simpl in Hr, Ht.
  destruct (mapM (λ c0 : string, r !! c0) ks) as [vs|] eqn:Hks; [|done].
  destruct (mapM (λ c0 : string, t !! c0) ks) as [vs'|] eqn:Hks'; [|done].
  simpl in Hr, Ht. injection Hr as <-. injection Ht as Hv Hvs. subst v' vs'.
  apply elem_of_cons in Hc as [->|Hc]; [by rewrite Ha, Ha'|]. by eapply IH.
Qed.

Lemma key_of_do_update kc ucols old new :
  kc ## ucols → key_of kc (do_update ucols old new) = key_of kc old.
Proof.
  intros Hd. apply key_of_ext. intros c Hc. rewrite lookup_do_update.
  rewrite decide_False; [done|]. set_solver.
Qed.



Lemma conflict_spec kc r t :
  conflict kc r t = true ↔ ∃ k, key_of kc r = Some k ∧ key_of kc t = Some k.
Proof.
  unfold conflict. destruct (key_of kc r) as [a|], (key_of kc t) as [b|]; split;
    try (intros [k [? ?]]; discriminate); try discriminate.
  - intros H%bool_decide_eq_true. subst. eauto.
  - intros [k [[= ->] [= ->]]]. by apply bool_decide_eq_true.
Qed.

Section upsert.
Context (q : upsert_stmt) (Hq : well_formed q).
Local Abbreviation kc := (stmt_conflict q).
Local Abbreviation uc := (stmt_update q).





Lemma conflict_true_key r t k :
  key_of kc t = Some k → conflict kc r t = true ↔ key_of kc r = Some k.
Proof.
  intros Ht. rewrite conflict_spec. rewrite Ht. naive_solver.
Qed.























Lemma upsert_row_written t T k :
  key_of kc t = Some k →
  ∃ r, r ∈ upsert_row q t T ∧ key_of kc r = Some k ∧ ∀ c, c ∈ uc → r !! c = t !! c.
Proof.
  intros Ht. induction T as [|r' T IH]; simpl.
  - exists t. split_and!; [set_solver|done|done].
  - destruct (conflict kc r' t) eqn:E.
    + exists (do_update uc r' t). split_and!; [set_solver| |].
      * rewrite key_of_do_update by done. by apply (conflict_true_key _ _ _ Ht).
      * intros c Hc. rewrite lookup_do_update. by rewrite decide_True.
    + destruct IH as (r & Hr & Hk & Hv). exists r. split_and!; [set_solver|done|done].
Qed.

End upsert.

Lemma code_statement_well_formed q : code_statement q → well_formed q.
Proof.
  intros [|]; unfold well_formed; simpl; intros c Hc Hu;
    repeat (apply elem_of_cons in Hc as [->|Hc]; [revert Hu; not_in_list|]);
    by apply elem_of_nil in Hc.
Qed.

Lemma count_rows_eq symbol timeframe (T T' : list row) :
  T = T' → count_rows symbol timeframe T = count_rows symbol timeframe T'.
Proof. by intros ->. Qed.



(** ** Frames, windows and the enrichment steps *)

Lemma len_assign df c xs : length xs = len df → len (assign df c xs) = len df.
Proof. unfold len, assign. cbn [rows]. intros H. rewrite length_zip_with. lia. Qed.

Lemma columns_assign df c xs c' :
  c' ∈ columns (assign df c xs) ↔ c' = c ∨ c' ∈ columns df.
Proof.
  unfold assign. simpl. case_bool_decide; set_solver.
Qed.

Lemma series_assign_eq df c xs :
  length xs = len df → series (assign df c xs) c = xs.
Proof.
  unfold series, assign, len. simpl. generalize (rows df). intros rs. revert xs.
  induction rs as [|r rs IH]; intros [|x xs] H; simpl in *; try done.
  f_equal; [|apply IH; lia].
  rewrite lookup_set_cell. rewrite decide_True by done. by destruct x.
Qed.

Lemma series_assign_ne df c xs c' :
  c ≠ c' → length xs = len df → series (assign df c xs) c' = series df c'.
Proof.
  unfold series, assign, len. simpl. generalize (rows df). intros rs Hne. revert xs.
  induction rs as [|r rs IH]; intros [|x xs] H; simpl in *; try done.
  f_equal; [|apply IH; lia].
  rewrite lookup_set_cell. by rewrite decide_False.
Qed.

Lemma cell_at_series df c i :
  cell_at df c i = if bool_decide (c ∈ columns df) then mjoin (series df c !! i) else None.
Proof.
  unfold cell_at, series. case_bool_decide; [|done].
  rewrite list_lookup_fmap. by destruct (rows df !! i).
Qed.

Lemma length_series df c : length (series df c) = len df.
Proof. unfold series, len. by rewrite length_map. Qed.

Lemma length_rolling w agg xs : length (Pandas.rolling w agg xs) = length xs.
Proof. unfold Pandas.rolling. by rewrite length_imap. Qed.

Lemma length_pct_change xs : length (Pandas.pct_change xs) = length xs.
Proof.
  unfold Pandas.pct_change. destruct xs as [|x tl]; [done|].
  rewrite !length_cons, length_zip_with, length_cons. lia.
Qed.

Lemma length_scale k xs : length (Pandas.scale k xs) = length xs.
Proof. unfold Pandas.scale. by rewrite length_map. Qed.

Lemma lookup_rolling w agg xs i :
  (i < length xs)%nat →
  Pandas.rolling w agg xs !! i =
    Some (let obs := Pandas.observations (Pandas.window w i xs) in
          if (w <=? length obs)%nat then agg obs else None).
Proof.
  intros Hi. unfold Pandas.rolling. rewrite list_lookup_imap.
  destruct (lookup_lt_is_Some_2 xs i Hi) as [x ->]. done.
Qed.

Lemma length_observations ws : (length (Pandas.observations ws) ≤ length ws)%nat.
Proof.
  unfold Pandas.observations. induction ws as [|[x|] ws IH]; cbn in *; lia.
Qed.

Lemma length_window {A} w i (xs : list A) : (length (Pandas.window w i xs) ≤ Nat.min w (S i))%nat.
Proof. unfold Pandas.window. rewrite length_take. lia. Qed.

Lemma rolling_short w agg xs i :
  (S i < w)%nat → mjoin (Pandas.rolling w agg xs !! i) = None.
Proof.
  intros Hi. destruct (decide (i < length xs)%nat) as [Hlt|Hge].
  - rewrite lookup_rolling by done. simpl.
    pose proof (length_observations (Pandas.window w i xs)).
    pose proof (length_window w i xs).
    destruct (Nat.leb_spec w (length (Pandas.observations (Pandas.window w i xs)))); [lia|done].
  - rewrite (proj2 (lookup_ge_None _ _)); [done|]. rewrite length_rolling. lia.
Qed.

Lemma observations_Some (vs : list Q) : Pandas.observations (map Some vs) = vs.
Proof. unfold Pandas.observations. induction vs; simpl; [done|]. by f_equal. Qed.

Lemma rolling_full w agg xs i vs :
  Pandas.window w i xs = map Some vs → length vs = w →
  (i < length xs)%nat →
  mjoin (Pandas.rolling w agg xs !! i) = agg vs.
Proof.
  intros Hw Hl Hi. rewrite lookup_rolling by done. simpl.
  rewrite Hw, observations_Some, Hl, Nat.leb_refl. done.
Qed.

Lemma cell_at_assign_eq df c xs i :
  length xs = len df → cell_at (assign df c xs) c i = mjoin (xs !! i).
Proof.
  intros H. rewrite cell_at_series, series_assign_eq by done.
  rewrite bool_decide_eq_true_2; [done|]. apply columns_assign. by left.
Qed.

Lemma cell_at_assign_ne df c xs c' i :
  c ≠ c' → length xs = len df → cell_at (assign df c xs) c' i = cell_at df c' i.
Proof.
  intros Hne H. rewrite !cell_at_series, series_assign_ne by done.
  destruct (decide (c' ∈ columns df)) as [Hin|Hnin].
  - rewrite !bool_decide_eq_true_2; [done|done|]. apply columns_assign. by right.
  - rewrite !bool_decide_eq_false_2; [done|done|]. rewrite columns_assign. naive_solver.
Qed.

Lemma cell_at_no_column df c i : c ∉ columns df → cell_at df c i = None.
Proof. intros H. unfold cell_at. by rewrite bool_decide_eq_false_2. Qed.

Lemma length_div_series a b : length a = length b → length (Pandas.div_series a b) = length a.
Proof. intros H. unfold Pandas.div_series. rewrite length_zip_with. lia. Qed.

Lemma enrich_steps env df :
  StockCrawler._add_basic_indicators env df =
    if negb (bool_decide ("close" ∈ columns df)) then df
    else
      let d := volatility_step env (return_step
                 (sma_step 200 "sma_200" (sma_step 50 "sma_50" (sma_step 20 "sma_20" df)))) in
      if negb (bool_decide ("volume" ∈ columns d)) then d
      else rs_step (volume_step d).
Proof. reflexivity. Qed.

Lemma keeps_assign c (g : DataFrame → list (option Q)) :
  (∀ d, length (g d) = len d) → keeps c (λ d, assign d c (g d)).
Proof.
  intros Hg d. split_and!.
  - by apply len_assign.
  - intros c' Hne. by apply series_assign_ne.
  - intros c' i Hne. by apply cell_at_assign_ne.
  - intros c' Hc. apply columns_assign. by right.
Qed.

Lemma keeps_if c (b : DataFrame → bool) f :
  keeps c f → keeps c (λ d, if b d then f d else d).
Proof. intros Hf d. destruct (b d); [apply Hf|done]. Qed.

Lemma keeps_sma n c : keeps c (sma_step n c).
Proof.
  unfold sma_step. apply (keeps_if c (λ d, (n <=? len d)%nat)).
  apply (keeps_assign c (λ d, Pandas.rolling_mean n (series d "close"))).
  intros d. unfold Pandas.rolling_mean. by rewrite length_rolling, length_series.
Qed.

Lemma keeps_return : keeps "daily_return" return_step.
Proof.
  apply (keeps_assign _ (λ d, Pandas.scale (100 # 1) (Pandas.pct_change (series d "close")))).
  intros d. by rewrite length_scale, length_pct_change, length_series.
Qed.

Lemma keeps_volatility env : keeps "volatility_10d" (volatility_step env).
Proof.
  unfold volatility_step. apply (keeps_if _ (λ d, (10 <=? len d)%nat)).
  apply (keeps_assign _ (λ d, Pandas.rolling_std (float_sqrt env) 10 (series d "daily_return"))).
  intros d. unfold Pandas.rolling_std. by rewrite length_rolling, length_series.
Qed.

Lemma keeps_volume : keeps "volume_change" volume_step.
Proof.
  apply (keeps_assign _ (λ d, Pandas.scale (100 # 1) (Pandas.pct_change (series d "volume")))).
  intros d. by rewrite length_scale, length_pct_change, length_series.
Qed.

Lemma keeps_rs : keeps "rs_50" rs_step.
Proof.
  unfold rs_step. apply (keeps_if _ (λ d, bool_decide ("sma_50" ∈ columns d))).
  apply (keeps_assign _ (λ d, Pandas.div_series (series d "close") (series d "sma_50"))).
  intros d. rewrite length_div_series; by rewrite !length_series.
Qed.

Lemma sma_step_cell n c d i :
  c ∉ columns d →
  cell_at (sma_step n c d) c i =
    if (n <=? len d)%nat then mjoin (Pandas.rolling_mean n (series d "close") !! i) else None.
Proof.
  intros Hc. unfold sma_step. destruct (n <=? len d)%nat.
  - apply cell_at_assign_eq. unfold Pandas.rolling_mean. by rewrite length_rolling, length_series.
  - by apply cell_at_no_column.
Qed.

Lemma sma_step_columns n c d c' : c' ∈ columns (sma_step n c d) → c' = c ∨ c' ∈ columns d.
Proof. unfold sma_step. destruct (n <=? len d)%nat; [apply columns_assign|by right]. Qed.

Section enrich.
Context (env : Env) (df : DataFrame).
Hypothesis Hcols : columns df = StockCrawler.historical_columns.
Local Abbreviation out := (StockCrawler._add_basic_indicators env df).
Local Abbreviation close := (series df "close").
Local Abbreviation returns := (Pandas.scale (100 # 1) (Pandas.pct_change close)).
Local Abbreviation d1 := (sma_step 20 "sma_20" df).
Local Abbreviation d2 := (sma_step 50 "sma_50" d1).
Local Abbreviation d3 := (sma_step 200 "sma_200" d2).
Local Abbreviation d4 := (return_step d3).
Local Abbreviation d5 := (volatility_step env d4).

Lemma enrich_out : out = rs_step (volume_step d5).
Proof.
  rewrite enrich_steps. rewrite bool_decide_eq_true_2 by (rewrite Hcols; set_solver).
  cbn [negb]. cbv zeta. rewrite bool_decide_eq_true_2; [done|].
  apply keeps_volatility, keeps_return, keeps_sma, keeps_sma, keeps_sma.
  rewrite Hcols. set_solver.
Qed.

Lemma len_d1 : len d1 = len df.
Proof. apply keeps_sma. Qed.

Lemma len_d2 : len d2 = len df.
Proof. rewrite (proj1 (keeps_sma _ _ _)). apply len_d1. Qed.

Lemma len_d3 : len d3 = len df.
Proof. rewrite (proj1 (keeps_sma _ _ _)). apply len_d2. Qed.

Lemma len_d4 : len d4 = len df.
Proof. rewrite (proj1 (keeps_return _)). apply len_d3. Qed.

Lemma close_d1 : series d1 "close" = close.
Proof. by destruct (keeps_sma 20 "sma_20" df) as (_ & -> & _). Qed.

Lemma close_d2 : series d2 "close" = close.
Proof. destruct (keeps_sma 50 "sma_50" d1) as (_ & -> & _); [apply close_d1|done]. Qed.

Lemma close_d3 : series d3 "close" = close.
Proof. destruct (keeps_sma 200 "sma_200" d2) as (_ & -> & _); [apply close_d2|done]. Qed.

Lemma columns_d3 c :
  c ∈ columns d3 → c ∈ ["sma_200"; "sma_50"; "sma_20"] ∨ c ∈ StockCrawler.historical_columns.
Proof.
  intros [->|[->|[->|H]%sma_step_columns]%sma_step_columns]%sma_step_columns;
    [set_solver..|]. right. by rewrite <- Hcols.
Qed.

Lemma out_cell c i :
  c ∉ ["rs_50"; "volume_change"] → cell_at out c i = cell_at d5 c i.
Proof.
  intros Hc. rewrite enrich_out.
  destruct (keeps_rs (volume_step d5)) as (_ & _ & -> & _); [|set_solver].
  destruct (keeps_volume d5) as (_ & _ & -> & _); [done|set_solver].
Qed.

Lemma enrich_sma_20 i :
  cell_at out "sma_20" i =
    if (20 <=? len df)%nat then mjoin (Pandas.rolling_mean 20 close !! i) else None.
Proof.
  rewrite out_cell by set_solver.
  destruct (keeps_volatility env d4) as (_ & _ & -> & _); [|done].
  destruct (keeps_return d3) as (_ & _ & -> & _); [|done].
  destruct (keeps_sma 200 "sma_200" d2) as (_ & _ & -> & _); [|done].
  destruct (keeps_sma 50 "sma_50" d1) as (_ & _ & -> & _); [|done].
  apply sma_step_cell. rewrite Hcols. set_solver.
Qed.

Lemma enrich_sma_50 i :
  cell_at out "sma_50" i =
    if (50 <=? len df)%nat then mjoin (Pandas.rolling_mean 50 close !! i) else None.
Proof.
  rewrite out_cell by set_solver.
  destruct (keeps_volatility env d4) as (_ & _ & -> & _); [|done].
  destruct (keeps_return d3) as (_ & _ & -> & _); [|done].
  destruct (keeps_sma 200 "sma_200" d2) as (_ & _ & -> & _); [|done].
  rewrite sma_step_cell, len_d1, close_d1; [done|].
  intros [?|H]%sma_step_columns; [done|]. rewrite Hcols in H. set_solver.
Qed.

Lemma enrich_sma_200 i :
  cell_at out "sma_200" i =
    if (200 <=? len df)%nat then mjoin (Pandas.rolling_mean 200 close !! i) else None.
Proof.
  rewrite out_cell by set_solver.
  destruct (keeps_volatility env d4) as (_ & _ & -> & _); [|done].
  destruct (keeps_return d3) as (_ & _ & -> & _); [|done].
  rewrite sma_step_cell, len_d2, close_d2; [done|].
  intros [?|[?|H]%sma_step_columns]%sma_step_columns; [done..|].
  rewrite Hcols in H. set_solver.
Qed.

Lemma enrich_sma n c i :
  (n, c) ∈ sma_windows →
  cell_at out c i =
    if (n <=? len df)%nat then mjoin (Pandas.rolling_mean n close !! i) else None.
Proof.
  unfold sma_windows. rewrite !elem_of_cons, elem_of_nil.
  intros [[= -> ->]|[[= -> ->]|[[= -> ->]|[]]]];
    [apply enrich_sma_20|apply enrich_sma_50|apply enrich_sma_200].
Qed.

Lemma length_returns : length returns = len df.
Proof. by rewrite length_scale, length_pct_change, length_series. Qed.

Lemma enrich_daily_return i : cell_at out "daily_return" i = mjoin (returns !! i).
Proof.
  rewrite out_cell by set_solver.
  destruct (keeps_volatility env d4) as (_ & _ & -> & _); [|done].
  unfold return_step. rewrite cell_at_assign_eq, close_d3; [done|].
  by rewrite length_scale, length_pct_change, length_series.
Qed.

Lemma enrich_volatility i :
  cell_at out "volatility_10d" i =
    if (10 <=? len df)%nat
    then mjoin (Pandas.rolling_std (float_sqrt env) 10 returns !! i)
    else None.
Proof.
  rewrite out_cell by set_solver.
  unfold volatility_step. rewrite len_d4.
  assert (Hret : series d4 "daily_return" = returns).
  { unfold return_step. rewrite series_assign_eq, close_d3; [done|].
    by rewrite length_scale, length_pct_change, length_series. }
  destruct (10 <=? len df)%nat.
  - rewrite cell_at_assign_eq, Hret; [done|].
    unfold Pandas.rolling_std. by rewrite length_rolling, length_series.
  - apply cell_at_no_column. unfold return_step.
    intros [?|[H|H]%columns_d3]%columns_assign; [done|set_solver|].
    unfold StockCrawler.historical_columns in H. set_solver.
Qed.

Lemma enrich_len : len out = len df.
Proof.
  rewrite enrich_out.
  rewrite (proj1 (keeps_rs _)), (proj1 (keeps_volume _)), (proj1 (keeps_volatility _ _)).
  apply len_d4.
Qed.
End enrich.

Lemma observations_all_Some (ws : list (option Q)) :
  Forall is_Some ws → ws = map Some (Pandas.observations ws).
Proof.
  unfold Pandas.observations. induction 1 as [|x ws [v ->] _ IH]; [done|].
  cbn. by rewrite <- IH.
Qed.

Lemma length_window_full {A} w i (xs : list A) :
  (w ≤ S i)%nat → (i < length xs)%nat → length (Pandas.window w i xs) = w.
Proof.
  intros Hw Hi. unfold Pandas.window. rewrite length_take, length_drop. lia.
Qed.

Lemma Forall_window {A} (P : A → Prop) w i (xs : list A) :
  Forall P xs → Forall P (Pandas.window w i xs).
Proof. intros H. unfold Pandas.window. by apply Forall_take, Forall_drop. Qed.

Lemma rolling_present w agg xs i :
  is_Some (mjoin (Pandas.rolling w agg xs !! i)) → (w ≤ S i)%nat ∧ (i < length xs)%nat.
Proof.
  intros H. split.
  - destruct (decide (w ≤ S i)%nat); [done|].
    rewrite rolling_short in H by lia. by destruct H.
  - destruct (decide (i < length xs)%nat); [done|].
    rewrite (proj2 (lookup_ge_None _ _)) in H; [by destruct H|].
    rewrite length_rolling. lia.
Qed.

Lemma rolling_mean_full w xs i :
  (w ≤ S i)%nat → (i < length xs)%nat → Forall is_Some (Pandas.window w i xs) →
  mjoin (Pandas.rolling_mean w xs !! i) =
    Some (Pandas.mean (Pandas.observations (Pandas.window w i xs))).
Proof.
  intros Hw Hi Hall. unfold Pandas.rolling_mean.
  apply (rolling_full w (λ obs, Some (Pandas.mean obs)) xs i
           (Pandas.observations (Pandas.window w i xs))).
  - by apply observations_all_Some.
  - rewrite <- (length_map Some), <- observations_all_Some by done.
    by apply length_window_full.
  - done.
Qed.

Lemma sma_step_skip n c d : (len d < n)%nat → sma_step n c d = d.
Proof.
  intros H. unfold sma_step. destruct (Nat.leb_spec n (len d)); [lia|done].
Qed.

Lemma enrich_short env df :
  columns df = StockCrawler.historical_columns → (len df < 10)%nat →
  columns (StockCrawler._add_basic_indicators env df) =
    StockCrawler.historical_columns ++ ["daily_return"; "volume_change"].
Proof.
  intros Hcols Hlen. rewrite enrich_out by done.
  rewrite (sma_step_skip 20 "sma_20" df), (sma_step_skip 50 "sma_50" df),
    (sma_step_skip 200 "sma_200" df) by lia.
  unfold volatility_step. rewrite (proj1 (keeps_return _)).
  destruct (Nat.leb_spec 10 (len df)); [lia|].
  unfold rs_step, volume_step, return_step, assign. cbn [columns].
  rewrite Hcols. reflexivity.
Qed.

(** C4.  On a frame with the columns the crawler hands to the enrichment, a
    moving average of window [n] (20, 50 or 200) has a value at a point only
    if the point and its predecessors are at least [n] points, is missing
    otherwise, and has the mean of the window as its value whenever the [n]
    closing prices of the window are numbers.  For a frame of length 10
    sma_50 and sma_200 are missing at every point; for a frame of at least 20
    points whose closing prices are numbers sma_20 is missing at the first
    19 points and has a value from the 20th on.  On a frame shorter than
    every window the enrichment returns the frame with the two change
    columns only. *)
Theorem sma_absence_policy (env : Env) (df : DataFrame) :
  columns df = StockCrawler.historical_columns →
  let out := StockCrawler._add_basic_indicators env df in
  let close := series df "close" in
  (∀ n c i, (n, c) ∈ sma_windows → is_Some (cell_at out c i) →
     (n ≤ S i)%nat ∧ (i < len df)%nat)
  ∧ (∀ n c i, (n, c) ∈ sma_windows → (S i < n)%nat → cell_at out c i = None)
  ∧ (∀ n c i, (n, c) ∈ sma_windows → (n ≤ S i)%nat → (i < len df)%nat →
       Forall is_Some (Pandas.window n i close) →
       cell_at out c i = Some (Pandas.mean (Pandas.observations (Pandas.window n i close))))
  ∧ (len df = 10%nat → ∀ i, cell_at out "sma_50" i = None ∧ cell_at out "sma_200" i = None)
  ∧ ((20 ≤ len df)%nat → Forall is_Some close →
       (∀ i, (i < 19)%nat → cell_at out "sma_20" i = None)
       ∧ (∀ i, (19 ≤ i)%nat → (i < len df)%nat → is_Some (cell_at out "sma_20" i)))
  ∧ ((len df < 10)%nat →
       len out = len df
       ∧ columns out = StockCrawler.historical_columns ++ ["daily_return"; "volume_change"]).
Proof.
  intros Hcols out close.
  assert (Honly : ∀ n c i, (n, c) ∈ sma_windows → is_Some (cell_at out c i) →
                    (n ≤ S i)%nat ∧ (i < len df)%nat).
  { intros n c i Hnc. subst out. rewrite (enrich_sma env df Hcols n c i Hnc).
    destruct (n <=? len df)%nat; [|by intros []].
    intros H%rolling_present. by rewrite length_series in H. }
  assert (Hfull : ∀ n c i, (n, c) ∈ sma_windows → (n ≤ S i)%nat → (i < len df)%nat →
       Forall is_Some (Pandas.window n i close) →
       cell_at out c i = Some (Pandas.mean (Pandas.observations (Pandas.window n i close)))).
  { intros n c i Hnc Hn Hi Hall. subst out close.
    rewrite (enrich_sma env df Hcols n c i Hnc).
    destruct (Nat.leb_spec n (len df)); [|lia].
    apply rolling_mean_full; [done|by rewrite length_series|done]. }
  assert (Hnone : ∀ n c i, (n, c) ∈ sma_windows → ¬ ((n ≤ S i)%nat ∧ (i < len df)%nat) →
                    cell_at out c i = None).
  { intros n c i Hnc Hno. destruct (cell_at out c i) eqn:E; [|done].
    exfalso. apply Hno. apply (Honly n c i Hnc). by rewrite E. }
  split_and!.
  - exact Honly.
  - intros n c i Hnc Hi. apply (Hnone n c i Hnc). lia.
  - exact Hfull.
  - intros Hlen i. split.
    + apply (Hnone 50%nat); [unfold sma_windows; set_solver|lia].
    + apply (Hnone 200%nat); [unfold sma_windows; set_solver|lia].
  - intros Hlen Hall. split.
    + intros i Hi. apply (Hnone 20%nat); [unfold sma_windows; set_solver|lia].
    + intros i Hi Hlt. rewrite (Hfull 20%nat "sma_20" i); [done| |lia|done|].
      * unfold sma_windows; set_solver.
      * by apply Forall_window.
  - intros Hlen. split.
    + by apply enrich_len.
    + by apply enrich_short.
Qed.

(** ** Returns and volatility *)

Lemma lookup_pct_change_0 xs : mjoin (Pandas.pct_change xs !! 0%nat) = None.
Proof. by destruct xs. Qed.

Lemma lookup_pct_change_S xs t :
  Pandas.pct_change xs !! S t =
    match xs !! t, xs !! S t with
    | Some prev, Some cur => Some ((λ q, (q - 1)%Q) <$> Pandas.div_cell cur prev)
    | _, _ => None
    end.
Proof.
  unfold Pandas.pct_change. destruct xs as [|x tl]; [done|].
  change ((None :: zip_with (λ prev cur, (λ q, (q - 1)%Q) <$> Pandas.div_cell cur prev)
             (x :: tl) tl) !! S t)
    with (zip_with (λ prev cur, (λ q, (q - 1)%Q) <$> Pandas.div_cell cur prev)
            (x :: tl) tl !! t).
  rewrite lookup_zip_with. change ((x :: tl) !! S t) with (tl !! t).
  destruct ((x :: tl) !! t) as [prev|]; [|done]. simpl.
  by destruct (tl !! t).
Qed.

Lemma lookup_scale k xs i :
  Pandas.scale k xs !! i = fmap (λ q, (q * k)%Q) <$> xs !! i.
Proof. unfold Pandas.scale. apply list_lookup_fmap. Qed.

Lemma return_formula (p c : Q) :
  ¬ (p == 0)%Q → ((c / p - 1) * (100 # 1) == daily_return_formula p c)%Q.
Proof. intros Hp. unfold daily_return_formula. field. exact Hp. Qed.

Lemma rolling_head_missing w agg xs i :
  S i = w → mjoin (xs !! 0%nat) = None → mjoin (Pandas.rolling w agg xs !! i) = None.
Proof.
  intros <- Hhead. destruct (decide (i < length xs)%nat) as [Hi|Hi].
  - rewrite lookup_rolling by done. cbv zeta.
    assert (Hlen : (length (Pandas.observations (Pandas.window (S i) i xs)) ≤ i)%nat).
    { unfold Pandas.window. rewrite Nat.sub_diag, Nat.min_id, drop_0.
      destruct xs as [|[x|] xs]; [simpl in Hi; lia|done|].
      cbn. etrans; [apply length_observations|]. rewrite length_take. lia. }
    destruct (Nat.leb_spec (S i) (length (Pandas.observations (Pandas.window (S i) i xs))));
      [lia|done].
  - rewrite (proj2 (lookup_ge_None _ _)); [done|]. rewrite length_rolling. lia.
Qed.

Lemma mjoin_lookup_Some {A} (xs : list (option A)) i v :
  mjoin (xs !! i) = Some v → xs !! i = Some (Some v).
Proof. destruct (xs !! i) as [[x|]|]; naive_solver. Qed.

Lemma window_values (xs : list (option Q)) i (rs : list Q) :
  (9 ≤ i)%nat → length rs = 10%nat →
  (∀ j, (j < 10)%nat → mjoin (xs !! (i - 9 + j)%nat) = rs !! j) →
  Pandas.window 10 i xs = map Some rs.
Proof.
  intros Hi Hlen Hcells. unfold Pandas.window.
  replace (Nat.min 10 (S i)) with 10%nat by lia. replace (S i - 10)%nat with (i - 9)%nat by lia.
  apply list_eq. intros j. destruct (decide (j < 10)%nat) as [Hj|Hj].
  - rewrite lookup_take_lt, lookup_drop by done. rewrite list_lookup_fmap.
    destruct (lookup_lt_is_Some_2 rs j) as [r Hr]; [lia|].
    rewrite Hr. simpl. apply mjoin_lookup_Some. rewrite Hcells by done. done.
  - rewrite lookup_take_ge by lia. symmetry. apply lookup_ge_None.
    rewrite length_map. lia.
Qed.

Lemma returns_lookup_S (close : list (option Q)) t p c :
  close !! t = Some (Some p) → close !! S t = Some (Some c) → ¬ (p == 0)%Q →
  mjoin (Pandas.scale (100 # 1) (Pandas.pct_change close) !! S t)
    = Some ((c / p - 1) * (100 # 1))%Q.
Proof.
  intros Hp Hc Hnz. rewrite lookup_scale, lookup_pct_change_S, Hp, Hc.
  unfold Pandas.div_cell. destruct (Qeq_bool p 0) eqn:E; [|done].
  apply Qeq_bool_iff in E. done.
Qed.

(** C5.  On a frame with the columns the crawler hands to the enrichment:
    the daily return is missing at the first point and, after a closing
    price that is a number other than zero, is (close[t] - close[t-1]) /
    close[t-1] * 100; the 10-point volatility is missing at the points 0 to
    9, where fewer than 10 returns exist, and at a point [i] from 10 on it is
    the sample standard deviation of the 10 daily returns of the points
    [i - 9] to [i], when these are numbers; so at point 10 of a frame of 15
    points it is the sample standard deviation of the returns of the points 1
    to 10.  Numbers are exact rationals and the square root is the one of the
    environment. *)
Theorem volatility_computation (env : Env) (df : DataFrame) :
  columns df = StockCrawler.historical_columns →
  let out := StockCrawler._add_basic_indicators env df in
  let close := series df "close" in
  cell_at out "daily_return" 0 = None
  ∧ (∀ t p c, close !! t = Some (Some p) → close !! S t = Some (Some c) → ¬ (p == 0)%Q →
       ∃ r, cell_at out "daily_return" (S t) = Some r ∧ (r == daily_return_formula p c)%Q)
  ∧ (∀ i, (i < 10)%nat → cell_at out "volatility_10d" i = None)
  ∧ (∀ i rs, (10 ≤ i)%nat → (i < len df)%nat → length rs = 10%nat →
       (∀ j, (j < 10)%nat → cell_at out "daily_return" (i - 9 + j) = rs !! j) →
       cell_at out "volatility_10d" i = Some (Pandas.sample_std (float_sqrt env) rs))
  ∧ (len df = 15%nat → ∀ rs, length rs = 10%nat →
       (∀ j, (j < 10)%nat → cell_at out "daily_return" (1 + j) = rs !! j) →
       cell_at out "volatility_10d" 10 = Some (Pandas.sample_std (float_sqrt env) rs)).
Proof.
  intros Hcols out close.
  assert (Hvol : ∀ i rs, (10 ≤ i)%nat → (i < len df)%nat → length rs = 10%nat →
       (∀ j, (j < 10)%nat → cell_at out "daily_return" (i - 9 + j) = rs !! j) →
       cell_at out "volatility_10d" i = Some (Pandas.sample_std (float_sqrt env) rs)).
  { intros i rs Hi Hlt Hlen Hcells. subst out.
    rewrite (enrich_volatility env df Hcols).
    destruct (Nat.leb_spec 10 (len df)); [|lia].
    unfold Pandas.rolling_std.
    rewrite (rolling_full 10 _ _ i rs).
    - by rewrite Hlen.
    - apply window_values; [lia|done|].
      intros j Hj. rewrite <- (enrich_daily_return env df Hcols). by apply Hcells.
    - done.
    - by rewrite (length_returns df). }
  split_and!.
  - subst out. rewrite (enrich_daily_return env df Hcols), lookup_scale.
    pose proof (lookup_pct_change_0 (series df "close")) as H0.
    by destruct (Pandas.pct_change (series df "close") !! 0%nat) as [[?|]|].
  - intros t p c Hp Hc Hnz. subst out close.
    rewrite (enrich_daily_return env df Hcols).
    rewrite (returns_lookup_S _ t p c Hp Hc Hnz).
    eexists. split; [done|]. by apply return_formula.
  - intros i Hi. subst out. rewrite (enrich_volatility env df Hcols).
    destruct (10 <=? len df)%nat; [|done].
    unfold Pandas.rolling_std. destruct (decide (i = 9%nat)) as [->|Hne].
    + apply rolling_head_missing; [done|].
      rewrite lookup_scale.
      pose proof (lookup_pct_change_0 (series df "close")) as H0.
      by destruct (Pandas.pct_change (series df "close") !! 0%nat) as [[?|]|].
    + apply rolling_short. lia.
  - exact Hvol.
  - intros Hlen rs Hrs Hcells. apply Hvol; [lia|lia|done|].
    intros j Hj. rewrite <- (Hcells j Hj). f_equal.
Qed.

(** ** The crawler *)

Lemma resolve_yf : resolve StockCrawler.get_daily_data_locals "yf" = Raise (NameError "yf").
Proof. reflexivity. Qed.

Lemma resolve_np : resolve StockCrawler.mock_historical_locals "np" = Raise (NameError "np").
Proof. reflexivity. Qed.

(** C10.  With the Yahoo source [get_daily_data] returns the empty frame
    for every symbol, whatever the provider would answer: the name [yf] is
    bound neither in the function nor in the module, the lookup raises, the
    handler returns the empty frame, and the synthetic generator is not
    called. *)
Theorem get_daily_data_yahoo_empty (env : Env) (self : StockCrawler.t)
    (symbol outputsize : string) :
  StockCrawler.data_source self = "yahoo" →
  StockCrawler.get_daily_data env self symbol outputsize = Ok empty_frame
  ∧ resolve StockCrawler.get_daily_data_locals "yf" = Raise (NameError "yf")
  ∧ df_empty empty_frame = true
  ∧ StockCrawler.get_daily_data env self symbol outputsize
      ≠ Ok (StockCrawler._get_mock_daily_data env symbol).
Proof.
  intros Hsrc.
  assert (Hempty : StockCrawler.get_daily_data env self symbol outputsize = Ok empty_frame).
  { unfold StockCrawler.get_daily_data. rewrite Hsrc. reflexivity. }
  split_and!; [exact Hempty|reflexivity..|].
  rewrite Hempty. intros H.
  apply (f_equal (λ r, match r with Ok df => len df | Raise _ => 0%nat end)) in H.
  discriminate H.
Qed.

Lemma get_daily_data_yahoo_empty_witness :
  let env := sample_env (sample_bars 30) in
  let crawler := (StockCrawler.__init__ env false None "yahoo").1 in
  StockCrawler.get_daily_data env crawler "AAPL" "full" = Ok empty_frame.
Proof.
  intros env crawler.
  apply (get_daily_data_yahoo_empty env crawler "AAPL" "full"). reflexivity.
Defined.

Lemma len_mock_data env symbol interval :
  len (StockCrawler._get_mock_data env symbol interval) = 100%nat.
Proof. reflexivity. Qed.

Lemma mock_data_not_empty env symbol interval :
  df_empty (StockCrawler._get_mock_data env symbol interval) = false.
Proof. reflexivity. Qed.

(** C3, as stated, fails: with Alpha Vantage throttled and Yahoo failing, a
    crawler configured for Alpha Vantage returns the empty frame, not a
    synthetic series. *)
Lemma fallback_counterexample :
  let env := throttled_env in
  let crawler := (StockCrawler.__init__ env false (Some "key") "alphavantage").1 in
  StockCrawler.data_source crawler = "alphavantage"
  ∧ alpha_get env "TIME_SERIES_INTRADAY" "IBM" "60min" "full" = AlphaJson false true false None
  ∧ yf_history env "IBM" "60d" "1h" = Raise ProviderError
  ∧ StockCrawler.get_intraday_data env false crawler "IBM" "60min" "full" = Ok empty_frame
  ∧ ¬ (∃ df, StockCrawler.get_intraday_data env false crawler "IBM" "60min" "full" = Ok df
             ∧ df_empty df = false).
Proof.
  intros env crawler. split_and!; [reflexivity..|].
  intros (df & Hdf & Hne). vm_compute in Hdf. injection Hdf as <-. discriminate.
Qed.

(** C3, amended.  The intraday fetch returns a frame for every symbol,
    interval and data source, and never raises.  With the Yahoo source, when
    the library flag is down, the import fails or the request raises, the
    result is the synthetic series of 100 points.  With the Alpha Vantage
    source, when the request fails or the reply has no time series (as when
    throttled), the result is the empty frame.  Any other source gives the
    synthetic series.  The historical fetch returns the enriched series of
    the provider when Yahoo answers with rows and the empty frame when it
    answers with none; in every other case its result is the result of a
    call of its synthetic generator.  A fetch returns a frame and nothing
    else. *)
Theorem fetch_fallback (env : Env) (has_yfinance : bool) (self : StockCrawler.t)
    (symbol interval outputsize timeframe period : string) :
  let fetch := StockCrawler.get_intraday_data env has_yfinance self symbol interval outputsize in
  let synthetic := StockCrawler._get_mock_data env symbol interval in
  let historical :=
    StockCrawler.get_historical_data env has_yfinance self symbol timeframe period in
  (∃ df, fetch = Ok df)
  ∧ (StockCrawler.data_source self = "yahoo" →
       has_yfinance = false ∨ yfinance_installed env = false
       ∨ (∃ e, yf_history env symbol
                 (StockCrawler.period_map (StockCrawler.interval_map interval))
                 (StockCrawler.interval_map interval) = Raise e) →
       fetch = Ok synthetic ∧ len synthetic = 100%nat ∧ df_empty synthetic = false)
  ∧ (StockCrawler.data_source self = "alphavantage" →
       alpha_get env "TIME_SERIES_INTRADAY" symbol interval outputsize = AlphaFails
       ∨ (∃ e n i, alpha_get env "TIME_SERIES_INTRADAY" symbol interval outputsize
                   = AlphaJson e n i None) →
       fetch = Ok empty_frame)
  ∧ (StockCrawler.data_source self ≠ "yahoo" →
     StockCrawler.data_source self ≠ "alphavantage" →
       fetch = Ok synthetic)
  ∧ (StockCrawler.data_source self = "yahoo" → has_yfinance = true →
     yfinance_installed env = true →
     ∀ bars,
       yf_history env symbol (StockCrawler.clamp_period timeframe period) timeframe = Ok bars →
       historical =
         Ok (match bars with
             | [] => empty_frame
             | _ => StockCrawler._add_basic_indicators env
                      (StockCrawler.yahoo_frame symbol (Some timeframe) bars)
             end))
  ∧ (StockCrawler.data_source self ≠ "yahoo" ∨ has_yfinance = false
     ∨ yfinance_installed env = false
     ∨ (∃ e, yf_history env symbol (StockCrawler.clamp_period timeframe period) timeframe
             = Raise e) →
     ∃ p, historical = StockCrawler._get_mock_historical_data env symbol timeframe p).
Proof.
  intros fetch synthetic historical.
  assert (Hintraday :
    (∃ df, fetch = Ok df)
    ∧ (StockCrawler.data_source self = "yahoo" →
         has_yfinance = false ∨ yfinance_installed env = false
         ∨ (∃ e, yf_history env symbol
                   (StockCrawler.period_map (StockCrawler.interval_map interval))
                   (StockCrawler.interval_map interval) = Raise e) →
         fetch = Ok synthetic ∧ len synthetic = 100%nat ∧ df_empty synthetic = false)
    ∧ (StockCrawler.data_source self = "alphavantage" →
         alpha_get env "TIME_SERIES_INTRADAY" symbol interval outputsize = AlphaFails
         ∨ (∃ e n i, alpha_get env "TIME_SERIES_INTRADAY" symbol interval outputsize
                     = AlphaJson e n i None) →
         fetch = Ok empty_frame)
    ∧ (StockCrawler.data_source self ≠ "yahoo" →
       StockCrawler.data_source self ≠ "alphavantage" →
         fetch = Ok synthetic)).
  { subst fetch synthetic. unfold StockCrawler.get_intraday_data.
    destruct (String.eqb_spec (StockCrawler.data_source self) "yahoo") as [Hy|Hy].
    - assert (Hyahoo : ∀ d,
          d = StockCrawler._get_yahoo_data env has_yfinance self symbol interval →
          (∃ df, d = Ok df)
          ∧ (has_yfinance = false ∨ yfinance_installed env = false
             ∨ (∃ e, yf_history env symbol
                       (StockCrawler.period_map (StockCrawler.interval_map interval))
                       (StockCrawler.interval_map interval) = Raise e) →
             d = Ok (StockCrawler._get_mock_data env symbol interval))).
      { intros d ->. unfold StockCrawler._get_yahoo_data, StockCrawler.import_yfinance.
        destruct has_yfinance; cbn [negb]; [|split; [eauto|done]].
        destruct (yfinance_installed env); cbn [bind try_except]; [|split; [eauto|done]].
        destruct (yf_history env symbol _ _) as [bars|e] eqn:E; cbn [bind try_except].
        - split; [destruct bars; eauto|].
          intros [?|[?|[e He]]]; done.
        - split; [eauto|done]. }
      destruct (Hyahoo _ eq_refl) as [Htotal Hfall].
      split; [done|]. split; [|split; [intros H; rewrite Hy in H; done|done]].
      intros _ Hfail. split; [by apply Hfall|]. split; reflexivity.
    - destruct (String.eqb_spec (StockCrawler.data_source self) "alphavantage") as [Ha|Ha].
      + unfold StockCrawler._get_alphavantage_data.
        split; [|split; [done|split; [|done]]].
        * unfold try_except. repeat case_match; eauto.
        * intros _ [->|(e & n & i & ->)]; [done|]. by destruct e, i.
      + split; [eauto|]. split; [done|]. split; done. }
  destruct Hintraday as (H1 & H2 & H3 & H4).
  split; [exact H1|]. split; [exact H2|]. split; [exact H3|]. split; [exact H4|].
  subst historical. unfold StockCrawler.get_historical_data, StockCrawler.import_yfinance.
  split.
  - intros -> -> -> bars ->. cbn [String.eqb Ascii.eqb Bool.eqb negb bind try_except].
    by destruct bars.
  - intros Hfail.
    destruct (String.eqb_spec (StockCrawler.data_source self) "yahoo") as [Hy|Hy]; [|eauto].
    destruct has_yfinance; cbn [negb].
    + destruct (yfinance_installed env); [|eauto].
      destruct (yf_history env symbol _ timeframe) as [bars|e] eqn:E;
        cbn [bind try_except]; [|eauto].
      destruct Hfail as [?|[?|[?|[e He]]]]; done.
    + exists period.
      by destruct (StockCrawler._get_mock_historical_data env symbol timeframe period).
Qed.

(** The synthetic generator of [get_historical_data] reads the name [np],
    which the module does not bind: it raises for every input. *)
Lemma mock_points_positive timeframe period :
  ∃ n, StockCrawler.mock_points timeframe period = S n.
Proof.
  unfold StockCrawler.mock_points.
  repeat match goal with |- context [if ?b then _ else _] => destruct b end; eexists; reflexivity.
Qed.

Lemma mock_historical_raises env symbol timeframe period :
  StockCrawler._get_mock_historical_data env symbol timeframe period = Raise (NameError "np").
Proof.
  unfold StockCrawler._get_mock_historical_data.
  destruct (mock_points_positive timeframe period) as [n ->]. reflexivity.
Qed.

(** ** The synthetic generator *)

Lemma mock_row_timestamp env symbol interval i :
  StockCrawler.mock_row env symbol interval i !! "timestamp"
    = Some (VTime (clock env - Z.of_nat i * StockCrawler.mock_step interval)).
Proof. reflexivity. Qed.

Lemma mock_row_volume env symbol interval i :
  StockCrawler.mock_row env symbol interval i !! "volume"
    = Some (VNum (inject_Z (StockCrawler.int
        (StockCrawler.uniform env (Z.of_nat i + hash env symbol) 4
           (1000000 # 1) (5000000 # 1))))).
Proof. reflexivity. Qed.

Lemma mock_step_positive interval : (0 < StockCrawler.mock_step interval)%Z.
Proof.
  unfold StockCrawler.mock_step.
  repeat match goal with |- context [if ?b then _ else _] => destruct b end; reflexivity.
Qed.

Lemma timestamps_mock_data env symbol interval :
  timestamps (StockCrawler._get_mock_data env symbol interval)
    = map (λ i, (clock env - Z.of_nat i * StockCrawler.mock_step interval)%Z) (seq 0 100).
Proof.
  unfold timestamps, StockCrawler._get_mock_data. cbn [rows].
  generalize (seq 0 100). intros l. induction l as [|i l IH]; [done|].
  cbn [map omap list_omap]. rewrite mock_row_timestamp. cbn. by rewrite <- IH.
Qed.

Lemma mock_daily_row_timestamp env symbol i :
  StockCrawler.mock_daily_row env symbol i !! "timestamp"
    = Some (VTime (clock env - Z.of_nat i * StockCrawler.day)).
Proof. reflexivity. Qed.

Lemma timestamps_mock_daily_data env symbol :
  timestamps (StockCrawler._get_mock_daily_data env symbol)
    = map (λ i, (clock env - Z.of_nat i * StockCrawler.day)%Z) (seq 0 365).
Proof.
  unfold timestamps, StockCrawler._get_mock_daily_data. cbn [rows].
  generalize (seq 0 365). intros l. induction l as [|i l IH]; [done|].
  cbn [map omap list_omap]. rewrite mock_daily_row_timestamp. cbn. by rewrite <- IH.
Qed.

Lemma descending_steps (now step : Z) (n : nat) :
  (0 < step)%Z →
  descending (map (λ i, (now - Z.of_nat i * step)%Z) (seq 0 n)).
Proof.
  intros Hstep i j a b Hij Ha Hb.
  rewrite list_lookup_fmap in Ha, Hb.
  destruct (seq 0 n !! i) as [i'|] eqn:Ei; [|done].
  destruct (seq 0 n !! j) as [j'|] eqn:Ej; [|done].
  apply lookup_seq in Ei as [-> _]. apply lookup_seq in Ej as [-> _].
  simpl in Ha, Hb. injection Ha as <-. injection Hb as <-. nia.
Qed.

Lemma descending_NoDup ts : descending ts → NoDup ts.
Proof.
  intros Hd. apply NoDup_alt. intros i j x Hi Hj.
  destruct (Nat.lt_trichotomy i j) as [Hlt|[->|Hgt]]; [|done|].
  - pose proof (Hd i j x x Hlt Hi Hj). lia.
  - pose proof (Hd j i x x Hgt Hj Hi). lia.
Qed.

(** C7, as stated, fails: the synthetic series is not in ascending order. *)
Lemma ordering_counterexample :
  ¬ ascending (timestamps (StockCrawler._get_mock_data (sample_env []) "AAPL" "60min")).
Proof.
  intros Hasc.
  pose proof (Hasc 0%nat 1%nat 0%Z (- 3600000000)%Z) as H.
  rewrite timestamps_mock_data in H.
  specialize (H ltac:(lia) eq_refl eq_refl). lia.
Qed.

(** C7, amended.  Every series of the synthetic generators is ordered by
    descending timestamp, the newest point first, and has no duplicate
    timestamp; the Yahoo adapter keeps the bars in the order of the
    provider. *)
Theorem synthetic_series_descending (env : Env) (symbol interval : string) :
  let intraday := StockCrawler._get_mock_data env symbol interval in
  let daily := StockCrawler._get_mock_daily_data env symbol in
  descending (timestamps intraday)
  ∧ NoDup (timestamps intraday)
  ∧ length (timestamps intraday) = 100%nat
  ∧ descending (timestamps daily)
  ∧ NoDup (timestamps daily)
  ∧ length (timestamps daily) = 365%nat
  ∧ (∀ timeframe bars,
       timestamps (StockCrawler.yahoo_frame symbol timeframe bars) = map bar_time bars).
Proof.
  intros intraday daily. subst intraday daily.
  rewrite timestamps_mock_data, timestamps_mock_daily_data.
  assert (H1 := descending_steps (clock env) _ 100 (mock_step_positive interval)).
  assert (H2 := descending_steps (clock env) StockCrawler.day 365 eq_refl).
  split_and!; [done|by apply descending_NoDup|by rewrite length_map, length_seq
              |done|by apply descending_NoDup|by rewrite length_map, length_seq|].
  intros timeframe bars. unfold timestamps, StockCrawler.yahoo_frame. cbn [rows].
  induction bars as [|b bars IH]; [done|].
  cbn [map omap list_omap].
  replace (StockCrawler.yahoo_row symbol timeframe b !! "timestamp")
    with (Some (VTime (bar_time b))).
  - cbn. by rewrite <- IH.
  - unfold StockCrawler.yahoo_row, StockCrawler.record_of. cbn [foldr fst snd].
    rewrite lookup_set_cell. rewrite decide_False by done.
    rewrite lookup_set_cell. rewrite decide_True by done. done.
Qed.

(** C6, as stated, fails: two calls with the same symbol and interval, one
    hour apart, give different series. *)
Lemma determinism_counterexample :
  let env := sample_env [] in
  StockCrawler._get_mock_data env "AAPL" "60min"
    ≠ StockCrawler._get_mock_data (at_clock env StockCrawler.hour) "AAPL" "60min".
Proof.
  intros env H. apply (f_equal timestamps) in H.
  rewrite !timestamps_mock_data in H. discriminate H.
Qed.

(** C6, amended.  The synthetic series is a function of the symbol, the
    interval, the clock reading, the hash of the symbol and the random
    stream: two calls that agree on these give the same series.  Two calls
    at different clock readings still give 100 points each and the same
    volumes, which depend on the seeds [i + hash(symbol)] only. *)
Theorem synthetic_determinism (env1 env2 : Env) (symbol interval : string) :
  hash env1 symbol = hash env2 symbol →
  (∀ seed k, random_stream env1 seed k = random_stream env2 seed k) →
  let s1 := StockCrawler._get_mock_data env1 symbol interval in
  let s2 := StockCrawler._get_mock_data env2 symbol interval in
  len s1 = 100%nat ∧ len s2 = 100%nat
  ∧ series s1 "volume" = series s2 "volume"
  ∧ (clock env1 = clock env2 → s1 = s2).
Proof.
  intros Hhash Hrand s1 s2. subst s1 s2. split_and!; [done..| |].
  - unfold series, StockCrawler._get_mock_data. cbn [rows]. rewrite !map_map.
    apply map_ext. intros i. rewrite !mock_row_volume.
    unfold StockCrawler.uniform. by rewrite Hhash, Hrand.
  - intros Hclock. unfold StockCrawler._get_mock_data. f_equal.
    apply map_ext. intros i. unfold StockCrawler.mock_row, StockCrawler.uniform.
    by rewrite Hclock, Hhash, !Hrand.
Qed.

Lemma synthetic_determinism_witness :
  let env := sample_env [] in
  series (StockCrawler._get_mock_data env "AAPL" "60min") "volume"
    = series (StockCrawler._get_mock_data (at_clock env StockCrawler.hour) "AAPL" "60min")
        "volume".
Proof.
  intros env.
  apply (synthetic_determinism env (at_clock env StockCrawler.hour) "AAPL" "60min");
    reflexivity.
Defined.

(** ** The tasks of the pipeline *)

(** C8, as stated, fails: on an empty fetch the crawl task returns [None],
    not a result record with a row count of zero. *)
Lemma empty_fetch_counterexample :
  let run :=
    Pipeline.crawl_stock_data (sample_env []) no_faults true empty_world
      "AAPL" "daily" "2024-01-01_00-00-00" in
  run.2 = Ok None
  ∧ ¬ (∃ r, run.2 = Ok (Some r) ∧ Pipeline.cr_row_count r = 0%nat).
Proof.
  intros run. split; [reflexivity|].
  intros (r & Hr & _). vm_compute in Hr. discriminate Hr.
Qed.

(** C8, amended.  When the fetch of a work unit returns an empty series,
    the crawl task returns [None] and leaves the world as it is, whatever
    the storage faults; the insert task, handed no crawl result, returns and
    leaves the world as it is; so the unit as a whole writes neither the
    object store nor a table. *)
Theorem empty_fetch_frame (env : Env) (crawl_faults insert_faults : Faults)
    (has_yfinance : bool) (w : World) (symbol timeframe_key execution_date : string)
    (df : DataFrame) :
  let init := StockCrawler.__init__ env has_yfinance (env_api_key env) "yahoo" in
  StockCrawler.get_historical_data env init.2 init.1 symbol
    (Pipeline.TIMEFRAMES timeframe_key).1 (Pipeline.TIMEFRAMES timeframe_key).2 = Ok df →
  df_empty df = true →
  Pipeline.crawl_stock_data env crawl_faults has_yfinance w symbol timeframe_key execution_date
    = (w, Ok None)
  ∧ Pipeline.insert_to_postgres insert_faults w symbol timeframe_key None = (w, Ok tt)
  ∧ Pipeline.run_unit env crawl_faults insert_faults has_yfinance w symbol timeframe_key
      execution_date = (w, Ok tt).
Proof.
  intros init Hfetch Hempty.
  assert (Hcrawl : Pipeline.crawl_stock_data env crawl_faults has_yfinance w symbol
                     timeframe_key execution_date = (w, Ok None)).
  { unfold Pipeline.crawl_stock_data. subst init.
    destruct (Pipeline.TIMEFRAMES timeframe_key) as [timeframe period].
    destruct (StockCrawler.__init__ env has_yfinance (env_api_key env) "yahoo")
      as [crawler flag].
    cbn [fst snd] in Hfetch. by rewrite Hfetch, Hempty. }
  split_and!; [done|done|].
  unfold Pipeline.run_unit. by rewrite Hcrawl.
Qed.

Lemma empty_fetch_frame_witness :
  Pipeline.run_unit (sample_env []) no_faults no_faults true empty_world
    "AAPL" "daily" "2024-01-01_00-00-00" = (empty_world, Ok tt).
Proof.
  apply (empty_fetch_frame (sample_env []) no_faults no_faults true empty_world
           "AAPL" "daily" "2024-01-01_00-00-00" empty_frame); reflexivity.
Defined.

Lemma insert_batch_rejected cols tuples conn :
  ∃ e, Pipeline.insert_batch true cols tuples conn = Raise e.
Proof.
  unfold Pipeline.insert_batch. destruct (length cols) as [|[|n]]; cbn; eauto.
Qed.

Lemma insert_unchanged_on_fault faults w symbol timeframe_key crawl_result :
  pg_execute_fails faults = true →
  (Pipeline.insert_to_postgres faults w symbol timeframe_key crawl_result).1 = w.
Proof.
  intros Hf. unfold Pipeline.insert_to_postgres.
  destruct crawl_result as [cr|]; [|done].
  destruct (minio_fails faults); [done|].
  destruct (_ ≫= _) as [df|]; [|done].
  destruct (pg_connect_fails faults); [done|]. rewrite Hf.
  match goal with |- context [Pipeline.insert_batch true ?c ?t ?k] =>
    destruct (insert_batch_rejected c t k) as [e ->]
  end.
  by destruct w.
Qed.

(** C9.  When the database rejects the insert statement of a work unit, the
    insert task leaves the world, and so both tables, as they were (the
    transaction, table creation included, is rolled back); when the task got
    as far as the statement, it returns instead of raising; and whatever
    another unit does afterwards, crawl or insert, it does as if the failed
    unit had not run. *)
Theorem storage_error_isolation (faults : Faults) (w : World)
    (symbol timeframe_key : string) (cr : Pipeline.CrawlResult) :
  pg_execute_fails faults = true →
  let after := (Pipeline.insert_to_postgres faults w symbol timeframe_key (Some cr)).1 in
  after = w
  ∧ (minio_fails faults = false → pg_connect_fails faults = false →
     is_Some ((minio w !! Pipeline.bucket_name) ≫=
                (λ b : gmap string DataFrame,
                   b !! replace "s3://stock-data/" "" (Pipeline.cr_file_path cr))) →
     (Pipeline.insert_to_postgres faults w symbol timeframe_key (Some cr)).2 = Ok tt)
  ∧ (∀ other_faults other_symbol other_key other_result,
       Pipeline.insert_to_postgres other_faults after other_symbol other_key other_result
       = Pipeline.insert_to_postgres other_faults w other_symbol other_key other_result)
  ∧ (∀ env f1 f2 has_yfinance other_symbol other_key execution_date,
       Pipeline.run_unit env f1 f2 has_yfinance after other_symbol other_key execution_date
       = Pipeline.run_unit env f1 f2 has_yfinance w other_symbol other_key execution_date).
Proof.
  intros Hf after.
  assert (Hafter : after = w) by (by apply insert_unchanged_on_fault).
  split_and!.
  - done.
  - intros Hm Hc [df Hdf]. unfold Pipeline.insert_to_postgres. rewrite Hm.
    change ("s3://" ++ Pipeline.bucket_name ++ "/")%string with "s3://stock-data/".
    rewrite Hdf, Hc, Hf. done.
  - intros. by rewrite Hafter.
  - intros. by rewrite Hafter.
Qed.

Lemma storage_error_isolation_witness :
  let faults := {| minio_fails := false; pg_connect_fails := false; pg_execute_fails := true |} in
  let crawl :=
    Pipeline.crawl_stock_data (sample_env (sample_bars 3)) no_faults true empty_world
      "AAPL" "daily" "2024-01-01_00-00-00" in
  ∃ cr, crawl.2 = Ok (Some cr)
        ∧ (Pipeline.insert_to_postgres faults crawl.1 "AAPL" "daily" (Some cr)).1 = crawl.1.
Proof.
  intros faults crawl. eexists. split; [reflexivity|].
  apply (storage_error_isolation faults). reflexivity.
Defined.

(** ** What a unit leaves in the tables *)

Lemma upsert_row_key_persists q r t T :
  well_formed q → r ∈ T →
  ∃ r', r' ∈ upsert_row q t T ∧ key_of (stmt_conflict q) r' = key_of (stmt_conflict q) r.
Proof.
  intros Hq. induction T as [|r0 T IH]; intros Hr; [set_solver|]. simpl.
  apply elem_of_cons in Hr as [->|Hr].
  - destruct (conflict _ r0 t).
    + exists (do_update (stmt_update q) r0 t). split; [set_solver|].
      by apply key_of_do_update.
    + exists r0. split; [set_solver|done].
  - destruct (conflict _ r0 t).
    + exists r. split; [set_solver|done].
    + destruct (IH Hr) as (r' & Hr' & Hk). exists r'. split; [set_solver|done].
Qed.

Lemma upsert_all_key_persists q r B T :
  well_formed q → r ∈ T →
  ∃ r', r' ∈ upsert_all q B T ∧ key_of (stmt_conflict q) r' = key_of (stmt_conflict q) r.
Proof.
  intros Hq. unfold upsert_all. revert T r.
  induction B as [|t B IH]; intros T r Hr; simpl; [eauto|].
  destruct (upsert_row_key_persists q r t T Hq Hr) as (r1 & Hr1 & Hk1).
  destruct (IH _ _ Hr1) as (r2 & Hr2 & Hk2). exists r2. split; [done|congruence].
Qed.

Lemma upsert_all_key_stored q t B T k :
  well_formed q → t ∈ B → key_of (stmt_conflict q) t = Some k →
  ∃ r, r ∈ upsert_all q B T ∧ key_of (stmt_conflict q) r = Some k.
Proof.
  intros Hq Ht Hk. apply list_elem_of_split in Ht as (B1 & B2 & ->).
  unfold upsert_all. rewrite foldl_app. simpl.
  destruct (upsert_row_written q Hq t (foldl (λ T t, upsert_row q t T) T B1) k Hk)
    as (r & Hr & Hrk & _).
  destruct (upsert_all_key_persists q r B2 _ Hq Hr) as (r' & Hr' & Hk').
  exists r'. split; [done|congruence].
Qed.

Lemma rows_assign_lookup d c xs c' i :
  c ≠ c' → length xs = len d →
  (rows (assign d c xs) !! i) ≫= (λ r : row, r !! c') = (rows d !! i) ≫= (λ r : row, r !! c').
Proof.
  intros Hne Hlen. unfold assign. cbn [rows]. rewrite lookup_zip_with.
  destruct (rows d !! i) as [r|] eqn:Er; [|done]. cbn.
  destruct (lookup_lt_is_Some_2 xs i) as [x ->].
  { rewrite Hlen. unfold len. by eapply lookup_lt_Some. }
  cbn. rewrite lookup_set_cell. by rewrite decide_False.
Qed.

Lemma raw_at_assign d c xs c' i :
  c ≠ c' → length xs = len d → raw_at (assign d c xs) c' i = raw_at d c' i.
Proof. apply rows_assign_lookup. Qed.

Lemma raw_at_sma n c d c' i : c ≠ c' → raw_at (sma_step n c d) c' i = raw_at d c' i.
Proof.
  intros Hne. unfold sma_step. destruct (n <=? len d)%nat; [|done].
  apply raw_at_assign; [done|]. unfold Pandas.rolling_mean.
  by rewrite length_rolling, length_series.
Qed.

Lemma raw_at_return d c' i : "daily_return" ≠ c' → raw_at (return_step d) c' i = raw_at d c' i.
Proof.
  intros Hne. apply raw_at_assign; [done|].
  by rewrite length_scale, length_pct_change, length_series.
Qed.

Lemma raw_at_volatility env d c' i :
  "volatility_10d" ≠ c' → raw_at (volatility_step env d) c' i = raw_at d c' i.
Proof.
  intros Hne. unfold volatility_step. destruct (10 <=? len d)%nat; [|done].
  apply raw_at_assign; [done|]. unfold Pandas.rolling_std.
  by rewrite length_rolling, length_series.
Qed.

Lemma raw_at_volume d c' i : "volume_change" ≠ c' → raw_at (volume_step d) c' i = raw_at d c' i.
Proof.
  intros Hne. apply raw_at_assign; [done|].
  by rewrite length_scale, length_pct_change, length_series.
Qed.

Lemma raw_at_rs d c' i : "rs_50" ≠ c' → raw_at (rs_step d) c' i = raw_at d c' i.
Proof.
  intros Hne. unfold rs_step. destruct (bool_decide _); [|done].
  apply raw_at_assign; [done|]. rewrite length_div_series; by rewrite !length_series.
Qed.

Lemma enrich_columns env df c :
  columns df = StockCrawler.historical_columns →
  c ∈ columns df → c ∈ columns (StockCrawler._add_basic_indicators env df).
Proof.
  intros Hcols Hc. rewrite enrich_out by done.
  by apply keeps_rs, keeps_volume, keeps_volatility, keeps_return,
    keeps_sma, keeps_sma, keeps_sma.
Qed.

Lemma yahoo_row_keys symbol timeframe b :
  StockCrawler.yahoo_row symbol (Some timeframe) b !! "symbol" = Some (VStr symbol)
  ∧ StockCrawler.yahoo_row symbol (Some timeframe) b !! "timestamp" = Some (VTime (bar_time b))
  ∧ StockCrawler.yahoo_row symbol (Some timeframe) b !! "timeframe" = Some (VStr timeframe).
Proof.
  unfold StockCrawler.yahoo_row, StockCrawler.record_of. cbn [foldr fst snd fmap option_fmap option_map].
  split_and!; repeat (rewrite lookup_set_cell; first [rewrite decide_True by done; reflexivity | rewrite decide_False by done]).
Qed.

Lemma key_of_key_columns (r : row) a b c :
  r !! "symbol" = Some a → r !! "timestamp" = Some b → r !! "timeframe" = Some c →
  key_of Pipeline.key_columns r = Some [a; b; c].
Proof. intros Ha Hb Hc. unfold key_of, Pipeline.key_columns. cbn. by rewrite Ha, Hb, Hc. Qed.

Lemma key_columns_lookup (r : row) a b c :
  key_of Pipeline.key_columns r = Some [a; b; c] →
  r !! "symbol" = Some a ∧ r !! "timestamp" = Some b ∧ r !! "timeframe" = Some c.
Proof.
  unfold key_of, Pipeline.key_columns. cbn.
  destruct (r !! "symbol"), (r !! "timestamp"), (r !! "timeframe"); cbn;
    try discriminate. by intros [= -> -> ->].
Qed.

Lemma replace_staged_path key :
  replace "s3://stock-data/" "" ("s3://" ++ Pipeline.bucket_name ++ "/" ++ key)%string
    = replace "s3://stock-data/" "" key.
Proof. destruct key; vm_compute; reflexivity. Qed.

Lemma init_yahoo env has_yfinance key :
  yfinance_installed env = true →
  ∃ crawler, StockCrawler.__init__ env has_yfinance key "yahoo" = (crawler, true)
             ∧ StockCrawler.data_source crawler = "yahoo".
Proof.
  intros Hinst. unfold StockCrawler.__init__, StockCrawler._check_yfinance_available.
  cbn [String.eqb Ascii.eqb Bool.eqb andb]. rewrite Hinst.
  destruct has_yfinance; cbn [negb]; eexists; split; reflexivity.
Qed.

Lemma historical_fetch env crawler symbol timeframe period bars :
  StockCrawler.data_source crawler = "yahoo" →
  yfinance_installed env = true →
  yf_history env symbol (StockCrawler.clamp_period timeframe period) timeframe = Ok bars →
  bars ≠ [] →
  StockCrawler.get_historical_data env true crawler symbol timeframe period
    = Ok (StockCrawler._add_basic_indicators env
            (StockCrawler.yahoo_frame symbol (Some timeframe) bars)).
Proof.
  intros Hsrc Hinst Hbars Hne. unfold StockCrawler.get_historical_data.
  rewrite Hsrc. cbn [String.eqb Ascii.eqb Bool.eqb negb].
  unfold StockCrawler.import_yfinance. rewrite Hinst, Hbars. cbn [bind try_except].
  by destruct bars.
Qed.

Lemma enriched_not_empty env symbol timeframe bars :
  bars ≠ [] →
  df_empty (StockCrawler._add_basic_indicators env
              (StockCrawler.yahoo_frame symbol (Some timeframe) bars)) = false.
Proof.
  intros Hne. set (df := StockCrawler.yahoo_frame symbol (Some timeframe) bars).
  set (out := StockCrawler._add_basic_indicators env df).
  assert (Hlen : len out = length bars).
  { subst out. rewrite enrich_len by done. unfold len, df. cbn [rows StockCrawler.yahoo_frame].
    by rewrite length_map. }
  assert (Hcol : "symbol" ∈ columns out).
  { subst out. apply enrich_columns; [done|]. cbn. set_solver. }
  unfold df_empty. unfold len in Hlen.
  destruct (columns out); [set_solver|].
  destruct (rows out); [|done]. destruct bars; [done|discriminate].
Qed.

(** C2, as stated, fails: after a unit is ingested (its frame is staged and
    the insert task has returned) no row of its series is in the legacy
    table, which has not even been created. *)
Lemma dual_write_counterexample :
  let run :=
    Pipeline.run_unit (sample_env (sample_bars 1)) no_faults no_faults true empty_world
      "AAPL" "daily" "2024-01-01_00-00-00" in
  run.2 = Ok tt
  ∧ is_Some (default ∅ (minio run.1 !! "stock-data")
               !! Pipeline.object_key_of "AAPL" "daily" "2024-01-01_00-00-00")
  ∧ (∃ b, b ∈ sample_bars 1 ∧ bar_time b = 0%Z)
  ∧ stock_data (pg run.1) = None
  ∧ ¬ (∃ r, r ∈ default [] (stock_data (pg run.1))).
Proof.
  intros run. split_and!.
  - reflexivity.
  - vm_compute. eauto.
  - exists (sample_bar 0). split; [in_list|reflexivity].
  - reflexivity.
  - intros [r Hr]. vm_compute in Hr. by apply elem_of_nil in Hr.
Qed.

(** C1.  The code at the failing input: one work unit with one daily bar
    from Yahoo, an empty database and no storage fault, run twice.  The
    crawl task stages the frame and both insert tasks return; but the query
    of the insert task holds one [%s] for each of the ten columns of the
    frame, [execute_values] raises on it before a statement is sent, and the
    rollback of the handler also undoes the creation of the table.  After
    the first and after the second run the versioned table does not exist:
    no row of the frame is stored. *)
Theorem pipeline_upsert_is_rejected :
  let env := sample_env (sample_bars 1) in
  let key := Pipeline.object_key_of "AAPL" "daily" "2024-01-01_00-00-00" in
  let once :=
    Pipeline.run_unit env no_faults no_faults true empty_world
      "AAPL" "daily" "2024-01-01_00-00-00" in
  let twice :=
    Pipeline.run_unit env no_faults no_faults true once.1
      "AAPL" "daily" "2024-01-01_00-00-00" in
  (∃ df, default ∅ (minio once.1 !! "stock-data") !! key = Some df
         ∧ len df = 1%nat
         ∧ let cols := filter (λ c, c ∈ Pipeline.allowed_columns) (columns df) in
           length cols = 10%nat
           ∧ ∀ conn,
               Pipeline.insert_batch false cols (map (Pipeline.tuple_of cols) (rows df)) conn
               = Raise (ValueError "the query contains more than one '%s' placeholder"))
  ∧ once.2 = Ok tt
  ∧ twice.2 = Ok tt
  ∧ stock_data_v2 (pg once.1) = None
  ∧ stock_data_v2 (pg twice.1) = None.
Proof.
  intros env key once twice. split_and!.
  - eexists. split; [vm_compute; reflexivity|]. split; [reflexivity|].
    split; [reflexivity|]. intros conn. reflexivity.
  - reflexivity.
  - reflexivity.
  - reflexivity.
  - reflexivity.
Qed.

Lemma sma_absence_policy_witness :
  let df := StockCrawler.yahoo_frame "AAPL" (Some "1d") (sample_bars 20) in
  let out := StockCrawler._add_basic_indicators (sample_env []) df in
  cell_at out "sma_20" 18 = None
  ∧ is_Some (cell_at out "sma_20" 19)
  ∧ cell_at out "sma_50" 19 = None.
Proof.
  intros df out.
  destruct (sma_absence_policy (sample_env []) df eq_refl) as (_ & Hnone & _ & _ & Hlong & _).
  split; [|split].
  - apply (Hnone 20%nat); [apply list_elem_of_here|lia].
  - apply Hlong; [vm_compute; lia|repeat constructor; eexists; reflexivity|lia|vm_compute; lia].
  - apply (Hnone 50%nat); [apply list_elem_of_further, list_elem_of_here|lia].
Defined.

Lemma volatility_computation_witness :
  let df := StockCrawler.yahoo_frame "AAPL" (Some "1d") (sample_bars 15) in
  let out := StockCrawler._add_basic_indicators (sample_env []) df in
  cell_at out "volatility_10d" 9 = None
  ∧ ∃ rs, length rs = 10%nat
          ∧ cell_at out "volatility_10d" 10
            = Some (Pandas.sample_std (float_sqrt (sample_env [])) rs).
Proof.
  intros df out.
  destruct (volatility_computation (sample_env []) df eq_refl) as (_ & _ & Hshort & _ & Hten).
  split; [apply Hshort; lia|].
  exists (omap (λ j, cell_at out "daily_return" j) (seq 1 10)).
  split; [vm_compute; reflexivity|].
  apply Hten; [vm_compute; reflexivity|vm_compute; reflexivity|].
  intros j Hj.
  do 10 (destruct j as [|j]; [vm_compute; reflexivity|]). lia.
Defined.

(** ** The fallback of the historical fetch *)

(** Without the Yahoo library the historical fetch, and with it the crawl
    task, ends in the [NameError] of the synthetic generator. *)
Lemma historical_fallback_raises :
  let crawler := (StockCrawler.__init__ offline_env false None "yahoo").1 in
  StockCrawler.get_historical_data offline_env false crawler "AAPL" "1d" "1y"
    = Raise (NameError "np")
  ∧ Pipeline.crawl_stock_data offline_env no_faults false empty_world
      "AAPL" "daily" "2024-01-01_00-00-00" = (empty_world, Raise (NameError "np")).
Proof.
  intros crawler. split.
  - unfold StockCrawler.get_historical_data. cbn [StockCrawler.data_source crawler].
    subst crawler. cbn. apply mock_historical_raises.
  - unfold Pipeline.crawl_stock_data. cbn. by rewrite mock_historical_raises.
Qed.

(** ** The transfer utility *)

Lemma ohlcv_numeric (r : row) :
  (∀ c, c ∈ ["open"; "high"; "low"; "close"; "volume"] →
        r !! c = None ∨ ∃ q, r !! c = Some (VNum q)) →
  FixDataTransfer.ohlcv r
    = Ok [r !! "open"; r !! "high"; r !! "low"; r !! "close"; r !! "volume"].
Proof.
  intros Hnum. unfold FixDataTransfer.ohlcv.
  assert (Hf : ∀ c, c ∈ ["open"; "high"; "low"; "close"; "volume"] →
            FixDataTransfer.to_float (r !! c) = Ok (r !! c)).
  { intros c Hc. destruct (Hnum c Hc) as [->|[q ->]]; reflexivity. }
  rewrite !Hf by in_list. reflexivity.
Qed.

Lemma for_each_ok {A B} (f : A → result B) (g : A → B) xs :
  (∀ x, x ∈ xs → f x = Ok (g x)) → for_each f xs = Ok (map g xs).
Proof.
  induction xs as [|x xs IH]; intros H; [done|]. cbn [for_each map].
  rewrite (H x) by in_list. cbn [bind]. rewrite IH; [done|].
  intros y Hy. apply H. by apply list_elem_of_further.
Qed.

Lemma key_of_legacy (t : row) a b :
  t !! "symbol" = Some a → t !! "timestamp" = Some b →
  key_of (stmt_conflict FixDataTransfer.insert_sql) t = Some [a; b].
Proof. intros Ha Hb. unfold key_of. cbn. by rewrite Ha, Hb. Qed.

Lemma key_of_legacy_lookup (r : row) a b :
  key_of (stmt_conflict FixDataTransfer.insert_sql) r = Some [a; b] →
  r !! "symbol" = Some a ∧ r !! "timestamp" = Some b.
Proof.
  unfold key_of. cbn.
  destruct (r !! "symbol"), (r !! "timestamp"); cbn; try discriminate.
  by intros [= -> ->].
Qed.

Lemma excluded_cons c cols v tup c' :
  excluded (c :: cols) (v :: tup) !! c' = if decide (c = c') then v else excluded cols tup !! c'.
Proof. unfold excluded. cbn [zip zip_with foldr fst snd]. apply lookup_set_cell. Qed.

(** The utility run on one staged file: every row of the file with a symbol
    and a timestamp has a row in the legacy table and one in the versioned
    table, the latter under the timeframe read off the path. *)
Lemma transfer_writes_both (w : World) (key symbol timeframe : string)
    (rest : list string) (df : DataFrame) :
  ends_with ".csv" key = true →
  split_on "/"%char key = symbol :: timeframe :: rest →
  default ∅ (minio w !! "stock-data") !! key = Some df →
  df_empty df = false →
  "symbol" ∈ columns df → "timestamp" ∈ columns df → "timeframe" ∈ columns df →
  (∀ r c, r ∈ rows df → c ∈ ["open"; "high"; "low"; "close"; "volume"] →
          r !! c = None ∨ ∃ q, r !! c = Some (VNum q)) →
  let after := FixDataTransfer.load_and_insert_data w [key] (λ _, false) in
  ∀ r0 a b, r0 ∈ rows df → r0 !! "symbol" = Some a → r0 !! "timestamp" = Some b →
    (∃ r, r ∈ default [] (stock_data (pg after))
          ∧ r !! "symbol" = Some a ∧ r !! "timestamp" = Some b)
    ∧ (∃ r, r ∈ default [] (stock_data_v2 (pg after))
            ∧ r !! "symbol" = Some a ∧ r !! "timestamp" = Some b
            ∧ r !! "timeframe" = Some (VStr timeframe)).
Proof.
  intros Hcsv Hsplit Hobj Hne Hsym Hts Htf Hnum after r0 a b Hr0 Ha Hb.
  set (legacy_tuple := λ r : row,
         [r !! "symbol"; r !! "timestamp";
          r !! "open"; r !! "high"; r !! "low"; r !! "close"; r !! "volume"]).
  set (versioned_tuple := λ r : row,
         [r !! "symbol"; r !! "timestamp"; Some (VStr timeframe);
          r !! "open"; r !! "high"; r !! "low"; r !! "close"; r !! "volume"]).
  assert (Hprep : FixDataTransfer.prepare symbol timeframe df = df).
  { unfold FixDataTransfer.prepare. rewrite (bool_decide_eq_true_2 _ Hsym).
    by rewrite (bool_decide_eq_true_2 _ Htf). }
  assert (H1 : for_each (FixDataTransfer.data_tuple df) (rows df)
               = Ok (map legacy_tuple (rows df))).
  { apply for_each_ok. intros r Hr. unfold FixDataTransfer.data_tuple.
    rewrite bool_decide_eq_true_2 by done.
    rewrite ohlcv_numeric by (intros c Hc; by apply Hnum). reflexivity. }
  assert (H2 : for_each (FixDataTransfer.data_tuple_v2 timeframe df) (rows df)
               = Ok (map versioned_tuple (rows df))).
  { apply for_each_ok. intros r Hr. unfold FixDataTransfer.data_tuple_v2.
    rewrite bool_decide_eq_true_2 by done.
    rewrite ohlcv_numeric by (intros c Hc; by apply Hnum). reflexivity. }
  assert (Hafter : pg after =
    {| stock_data :=
         Some (execute_values FixDataTransfer.insert_sql (map legacy_tuple (rows df))
                 (default [] (stock_data (pg w))));
       stock_data_v2 :=
         Some (execute_values FixDataTransfer.insert_v2_sql (map versioned_tuple (rows df))
                 (default [] (stock_data_v2 (pg w)))) |}).
  { subst after. unfold FixDataTransfer.load_and_insert_data.
    cbn [FixDataTransfer.process_files]. unfold FixDataTransfer.process_file.
    rewrite Hcsv, Hsplit, Hobj, Hne, Hprep, H1, H2. cbn [negb].
    destruct (rows df) as [|r1 rs] eqn:Erows.
    { unfold df_empty in Hne. rewrite Erows in Hne. by destruct (columns df). }
    cbn [map]. destruct w as [objects [[legacy|] [versioned|]]]; reflexivity. }
  rewrite Hafter. cbn [stock_data stock_data_v2 default]. split.
  - destruct (upsert_all_key_stored FixDataTransfer.insert_sql
                (excluded (stmt_columns FixDataTransfer.insert_sql) (legacy_tuple r0))
                (map (excluded (stmt_columns FixDataTransfer.insert_sql))
                   (map legacy_tuple (rows df)))
                (default [] (stock_data (pg w))) [a; b]) as (r & Hr & Hk).
    + apply code_statement_well_formed, stmt_legacy.
    + apply list_elem_of_fmap. exists (legacy_tuple r0). split; [done|].
      apply list_elem_of_fmap. eauto.
    + apply key_of_legacy; unfold legacy_tuple; cbn [stmt_columns FixDataTransfer.insert_sql].
      * by rewrite excluded_cons, decide_True.
      * rewrite excluded_cons, decide_False by done. by rewrite excluded_cons, decide_True.
    + exists r. split; [exact Hr|]. by apply key_of_legacy_lookup.
  - destruct (upsert_all_key_stored FixDataTransfer.insert_v2_sql
                (excluded (stmt_columns FixDataTransfer.insert_v2_sql) (versioned_tuple r0))
                (map (excluded (stmt_columns FixDataTransfer.insert_v2_sql))
                   (map versioned_tuple (rows df)))
                (default [] (stock_data_v2 (pg w))) [a; b; VStr timeframe]) as (r & Hr & Hk).
    + apply code_statement_well_formed, stmt_versioned.
    + apply list_elem_of_fmap. exists (versioned_tuple r0). split; [done|].
      apply list_elem_of_fmap. eauto.
    + apply key_of_key_columns; unfold versioned_tuple;
        cbn [stmt_columns FixDataTransfer.insert_v2_sql].
      * by rewrite excluded_cons, decide_True.
      * rewrite excluded_cons, decide_False by done. by rewrite excluded_cons, decide_True.
      * rewrite excluded_cons, decide_False by done.
        rewrite excluded_cons, decide_False by done. by rewrite excluded_cons, decide_True.
    + exists r. split; [exact Hr|]. by apply key_columns_lookup.
Qed.

(** ** More on the upsert *)

Lemma upsert_row_lookup q t T i r :
  T !! i = Some r →
  ∃ r', upsert_row q t T !! i = Some r'
        ∧ (∀ c, c ∉ stmt_update q → r' !! c = r !! c)
        ∧ (conflict (stmt_conflict q) r t = false → r' = r).
Proof.
  revert i. induction T as [|r0 T IH]; intros i Hi; [done|].
  cbn [upsert_row]. destruct (conflict (stmt_conflict q) r0 t) eqn:Hc.
  - destruct i as [|i]; simpl in *.
    + injection Hi as ->. eexists; split; [done|]. split.
      * intros c Hc'. rewrite lookup_do_update. by rewrite decide_False.
      * congruence.
    + eauto.
  - destruct i as [|i]; simpl in *.
    + injection Hi as ->. eauto.
    + by apply IH.
Qed.

Lemma length_upsert_row q t T :
  (length T ≤ length (upsert_row q t T) ≤ S (length T))%nat.
Proof.
  induction T as [|r T IH]; cbn [upsert_row]; [simpl; lia|].
  destruct (conflict _ r t); simpl; lia.
Qed.

Lemma length_upsert_all q B T :
  (length T ≤ length (upsert_all q B T) ≤ length T + length B)%nat.
Proof.
  revert T. induction B as [|t B IH]; intros T; cbn [upsert_all foldl]; [simpl; lia|].
  specialize (IH (upsert_row q t T)). unfold upsert_all in IH.
  pose proof (length_upsert_row q t T). simpl. lia.
Qed.

Lemma upsert_all_lookup q B T i r :
  T !! i = Some r →
  ∃ r', upsert_all q B T !! i = Some r'
        ∧ (∀ c, c ∉ stmt_update q → r' !! c = r !! c)
        ∧ (Forall (λ t, conflict (stmt_conflict q) r t = false) B → r' = r).
Proof.
  revert T r. induction B as [|t B IH]; intros T r Hi; cbn [upsert_all foldl].
  - eauto.
  - destruct (upsert_row_lookup q t T i r Hi) as (r1 & H1 & Hcols1 & Hsame1).
    destruct (IH _ _ H1) as (r2 & H2 & Hcols2 & Hsame2).
    exists r2. split; [exact H2|]. split.
    + intros c Hc. by rewrite Hcols2, Hcols1.
    + intros HB. apply Forall_cons in HB as [Ht HB].
      specialize (Hsame1 Ht). subst r1. by apply Hsame2.
Qed.

(** X1.  The upsert never deletes or moves a stored row: after a batch is
    applied the table has at least its former rows and at most one more per
    tuple; the row at each former position keeps every column that is not in
    the statement's [SET] list, and is left as it was when it collides with
    no tuple of the batch. *)
Theorem upsert_keeps_rows (q : upsert_stmt) (tuples : list (list (option value)))
    (T : list row) :
  let T' := execute_values q tuples T in
  (length T ≤ length T' ≤ length T + length tuples)%nat
  ∧ ∀ i r, T !! i = Some r →
      ∃ r', T' !! i = Some r'
            ∧ (∀ c, c ∉ stmt_update q → r' !! c = r !! c)
            ∧ (Forall (λ tup, conflict (stmt_conflict q) r
                                (excluded (stmt_columns q) tup) = false) tuples →
               r' = r).
Proof.
  intros T'. subst T'. unfold execute_values. split.
  - pose proof (length_upsert_all q (map (excluded (stmt_columns q)) tuples) T) as H.
    by rewrite length_map in H.
  - intros i r Hi.
    destruct (upsert_all_lookup q (map (excluded (stmt_columns q)) tuples) T i r Hi)
      as (r' & H' & Hcols & Hsame).
    exists r'. split; [exact H'|]. split; [exact Hcols|].
    intros HB. apply Hsame. by apply Forall_fmap.
Qed.

(** ** More on the tasks of the pipeline *)

Lemma staged_lookup key df (m : gmap string (gmap string DataFrame)) :
  (Pipeline.put_object Pipeline.bucket_name key df m !! Pipeline.bucket_name)
    ≫= (λ b : gmap string DataFrame, b !! key) = Some df.
Proof.
  unfold Pipeline.put_object. rewrite lookup_insert_eq. cbn. apply lookup_insert_eq.
Qed.

Lemma crawl_ok env faults has_yfinance w symbol timeframe_key execution_date bars :
  let timeframe := (Pipeline.TIMEFRAMES timeframe_key).1 in
  let period := (Pipeline.TIMEFRAMES timeframe_key).2 in
  let key := Pipeline.object_key_of symbol timeframe_key execution_date in
  let out := StockCrawler._add_basic_indicators env
               (StockCrawler.yahoo_frame symbol (Some timeframe) bars) in
  minio_fails faults = false →
  yfinance_installed env = true →
  yf_history env symbol (StockCrawler.clamp_period timeframe period) timeframe = Ok bars →
  bars ≠ [] →
  Pipeline.crawl_stock_data env faults has_yfinance w symbol timeframe_key execution_date =
    ({| minio := Pipeline.put_object Pipeline.bucket_name key out (minio w); pg := pg w |},
     Ok (Some {| Pipeline.cr_symbol := symbol;
                 Pipeline.cr_timeframe := timeframe_key;
                 Pipeline.cr_file_path :=
                   ("s3://" ++ Pipeline.bucket_name ++ "/" ++ key)%string;
                 Pipeline.cr_row_count := len out;
                 Pipeline.cr_execution_date := execution_date |})).
Proof.
  intros timeframe period key out Hfault Hinst Hbars Hne.
  destruct (init_yahoo env has_yfinance (env_api_key env) Hinst) as (crawler & Hinit & Hsrc).
  unfold Pipeline.crawl_stock_data.
  subst out key timeframe period. destruct (Pipeline.TIMEFRAMES timeframe_key) as [tf p].
  cbn [fst snd] in *. rewrite Hinit.
  rewrite (historical_fetch env crawler symbol tf p bars Hsrc Hinst Hbars Hne).
  rewrite enriched_not_empty by done. by rewrite Hfault.
Qed.

Lemma listed_two (l : list string) x y : x ∈ l → y ∈ l → x ≠ y → (2 ≤ length l)%nat.
Proof.
  destruct l as [|a [|b l]]; intros Hx Hy Hne; [by apply elem_of_nil in Hx| |simpl; lia].
  apply list_elem_of_singleton in Hx, Hy. congruence.
Qed.

Lemma insert_batch_many rejected cols tuples conn :
  (2 ≤ length cols)%nat →
  Pipeline.insert_batch rejected cols tuples conn
    = Raise (ValueError "the query contains more than one '%s' placeholder").
Proof.
  intros Hlen. unfold Pipeline.insert_batch.
  destruct (length cols) as [|[|n]]; [lia|lia|reflexivity].
Qed.

Lemma insert_batch_none rejected tuples conn :
  Pipeline.insert_batch rejected [] tuples conn
    = Raise (ValueError "the query doesn't contain any '%s' placeholder").
Proof. reflexivity. Qed.

Lemma insert_minio faults w symbol timeframe_key crawl_result :
  minio (Pipeline.insert_to_postgres faults w symbol timeframe_key crawl_result).1 = minio w.
Proof.
  unfold Pipeline.insert_to_postgres. destruct crawl_result as [cr|]; [|done].
  destruct (minio_fails faults); [done|].
  destruct (_ ≫= _) as [df|]; [|done].
  by destruct (pg_connect_fails faults).
Qed.

Lemma insert_batch_legacy rejected cols tuples conn conn' :
  Pipeline.insert_batch rejected cols tuples conn = Ok conn' →
  stock_data (committed conn') = stock_data (working conn).
Proof.
  unfold Pipeline.insert_batch. destruct (length cols) as [|[|n]]; [done| |done].
  cbn [Pipeline._split_sql bind]. destruct rejected; [done|].
  destruct tuples as [|t [|t' ts]]; [by intros [= <-]| |done].
  destruct (bool_decide _); [done|]. by intros [= <-].
Qed.

Lemma insert_legacy faults w symbol timeframe_key crawl_result :
  stock_data (pg (Pipeline.insert_to_postgres faults w symbol timeframe_key crawl_result).1)
    = stock_data (pg w).
Proof.
  unfold Pipeline.insert_to_postgres. destruct crawl_result as [cr|]; [|done].
  destruct (minio_fails faults); [done|].
  destruct (_ ≫= _) as [df|]; [|done].
  destruct (pg_connect_fails faults); [done|].
  destruct (Pipeline.insert_batch _ _ _ _) as [conn'|e] eqn:Hbatch; [|done].
  apply insert_batch_legacy in Hbatch. cbn in Hbatch |- *. exact Hbatch.
Qed.

(** The insert task on a staged frame with two or more of the listed
    columns: the query is rejected before it is sent. *)
Lemma insert_many_columns faults w symbol timeframe_key cr df :
  (minio w !! Pipeline.bucket_name) ≫=
    (λ b : gmap string DataFrame, b !! replace "s3://stock-data/" "" (Pipeline.cr_file_path cr))
    = Some df →
  length (filter (λ c, c ∈ Pipeline.allowed_columns) (columns df)) ≠ 1%nat →
  Pipeline.insert_to_postgres faults w symbol timeframe_key (Some cr)
    = (w, if minio_fails faults then Raise (StorageError "minio")
          else if pg_connect_fails faults then Raise (StorageError "postgres")
          else Ok tt).
Proof.
  intros Hobj Hlen. unfold Pipeline.insert_to_postgres.
  destruct (minio_fails faults); [done|].
  change ("s3://" ++ Pipeline.bucket_name ++ "/")%string with "s3://stock-data/".
  rewrite Hobj. destruct (pg_connect_fails faults); [done|].
  assert (Hbatch : ∃ e, ∀ rejected tuples conn,
            Pipeline.insert_batch rejected
              (filter (λ c, c ∈ Pipeline.allowed_columns) (columns df)) tuples conn
            = Raise e).
  { destruct (filter _ (columns df)) as [|c [|c' cols]] eqn:Hcols.
    - eexists. intros. apply insert_batch_none.
    - done.
    - eexists. intros. apply insert_batch_many. simpl. lia. }
  destruct Hbatch as [e Hbatch]. rewrite Hbatch. by destruct w.
Qed.

Lemma enriched_listed env symbol timeframe bars :
  length (filter (λ c, c ∈ Pipeline.allowed_columns)
            (columns (StockCrawler._add_basic_indicators env
                        (StockCrawler.yahoo_frame symbol (Some timeframe) bars)))) ≠ 1%nat.
Proof.
  enough (2 ≤ length (filter (λ c, c ∈ Pipeline.allowed_columns)
                        (columns (StockCrawler._add_basic_indicators env
                                    (StockCrawler.yahoo_frame symbol (Some timeframe) bars)))))%nat
    by lia.
  apply (listed_two _ "symbol" "timestamp"); [| |done];
    (apply list_elem_of_filter; split;
      [unfold Pipeline.allowed_columns; in_list
      |apply enrich_columns; [done|cbn; in_list]]).
Qed.

(** A unit whose series Yahoo hands over: the frame is staged, the insert
    task finds it and its query is rejected. *)
Lemma run_unit_staged env insert_faults has_yfinance w symbol timeframe_key execution_date
    bars :
  let timeframe := (Pipeline.TIMEFRAMES timeframe_key).1 in
  let period := (Pipeline.TIMEFRAMES timeframe_key).2 in
  let key := Pipeline.object_key_of symbol timeframe_key execution_date in
  let out := StockCrawler._add_basic_indicators env
               (StockCrawler.yahoo_frame symbol (Some timeframe) bars) in
  yfinance_installed env = true →
  yf_history env symbol (StockCrawler.clamp_period timeframe period) timeframe = Ok bars →
  bars ≠ [] →
  replace "s3://stock-data/" "" key = key →
  Pipeline.run_unit env no_faults insert_faults has_yfinance w symbol timeframe_key
    execution_date =
    ({| minio := Pipeline.put_object Pipeline.bucket_name key out (minio w); pg := pg w |},
     if minio_fails insert_faults then Raise (StorageError "minio")
     else if pg_connect_fails insert_faults then Raise (StorageError "postgres")
     else Ok tt).
Proof.
  intros timeframe period key out Hinst Hbars Hne Hkey.
  unfold Pipeline.run_unit.
  rewrite (crawl_ok env no_faults has_yfinance w symbol timeframe_key execution_date bars)
    by done.
  fold timeframe key out.
  apply (insert_many_columns insert_faults _ symbol timeframe_key _ out).
  - cbn [minio Pipeline.cr_file_path]. rewrite replace_staged_path, Hkey.
    apply staged_lookup.
  - apply enriched_listed.
Qed.

Lemma lookup_put_object_ne bucket key df (m : gmap string (gmap string DataFrame)) b k :
  (b, k) ≠ (bucket, key) →
  (Pipeline.put_object bucket key df m !! b) ≫= (λ o : gmap string DataFrame, o !! k)
    = (m !! b) ≫= (λ o : gmap string DataFrame, o !! k).
Proof.
  intros Hne. unfold Pipeline.put_object.
  destruct (decide (b = bucket)) as [->|Hb].
  - rewrite lookup_insert_eq. cbn.
    assert (k ≠ key) by congruence.
    rewrite lookup_insert_ne by done.
    destruct (m !! bucket); [done|]. cbn. apply lookup_empty.
  - by rewrite lookup_insert_ne.
Qed.

(** X4.  What the crawl task stages is what it reports.  The task never
    touches the relational store and leaves every other object of the store
    as it was.  When it returns a result, the object under the key
    [symbol/timeframe_key/execution_date.csv] of the bucket is a non-empty
    frame with [row_count] rows, the reported path is that key behind
    [s3://stock-data/], and the key the insert task derives from the path
    reads the same frame back (when the key does not itself contain the
    prefix).  When it returns no result, or raises, the world is as before. *)
Theorem crawl_stages_what_it_reports (env : Env) (faults : Faults) (has_yfinance : bool)
    (w : World) (symbol timeframe_key execution_date : string) :
  let run :=
    Pipeline.crawl_stock_data env faults has_yfinance w symbol timeframe_key execution_date in
  let key := Pipeline.object_key_of symbol timeframe_key execution_date in
  pg run.1 = pg w
  ∧ (∀ bucket k, (bucket, k) ≠ ("stock-data", key) →
       (minio run.1 !! bucket) ≫= (λ b : gmap string DataFrame, b !! k)
       = (minio w !! bucket) ≫= (λ b : gmap string DataFrame, b !! k))
  ∧ (∀ cr, run.2 = Ok (Some cr) →
       Pipeline.cr_file_path cr = ("s3://stock-data/" ++ key)%string
       ∧ ∃ df, (minio run.1 !! "stock-data") ≫= (λ b : gmap string DataFrame, b !! key)
                 = Some df
               ∧ df_empty df = false
               ∧ Pipeline.cr_row_count cr = len df
               ∧ (replace "s3://stock-data/" "" key = key →
                  (minio run.1 !! Pipeline.bucket_name) ≫=
                    (λ b : gmap string DataFrame,
                       b !! replace "s3://stock-data/" "" (Pipeline.cr_file_path cr))
                  = Some df))
  ∧ ((∀ cr, run.2 ≠ Ok (Some cr)) → run.1 = w).
Proof.
  intros run key. subst run. unfold Pipeline.crawl_stock_data.
  destruct (Pipeline.TIMEFRAMES timeframe_key) as [tf p].
  destruct (StockCrawler.__init__ env has_yfinance (env_api_key env) "yahoo")
    as [crawler flag].
  destruct (StockCrawler.get_historical_data env flag crawler symbol tf p) as [df|e];
    [|cbn [fst snd]; split_and!; try done].
  destruct (df_empty df) eqn:Hempty; [cbn [fst snd]; split_and!; try done|].
  destruct (minio_fails faults); [cbn [fst snd]; split_and!; try done|].
  fold key. cbn [fst snd minio pg]. split_and!.
  - done.
  - intros bucket k Hne. by apply lookup_put_object_ne.
  - intros cr [= <-]. cbn [Pipeline.cr_file_path Pipeline.cr_row_count].
    split; [reflexivity|]. exists df. split_and!.
    + apply staged_lookup.
    + exact Hempty.
    + reflexivity.
    + intros Hkey. rewrite replace_staged_path, Hkey. apply staged_lookup.
  - intros Hno. exfalso. by eapply Hno.
Qed.

Lemma crawl_without_yahoo (env : Env) (faults : Faults) (has_yfinance : bool) (w : World)
    (symbol timeframe_key execution_date : string) :
  yfinance_installed env = false
  ∨ (∃ e, yf_history env symbol
            (StockCrawler.clamp_period (Pipeline.TIMEFRAMES timeframe_key).1
               (Pipeline.TIMEFRAMES timeframe_key).2)
            (Pipeline.TIMEFRAMES timeframe_key).1 = Raise e) →
  Pipeline.crawl_stock_data env faults has_yfinance w symbol timeframe_key execution_date
    = (w, Raise (NameError "np")).
Proof.
  intros Hno. unfold Pipeline.crawl_stock_data.
  destruct (Pipeline.TIMEFRAMES timeframe_key) as [tf p]. cbn [fst snd] in Hno.
  assert (Hget : ∀ crawler flag,
            StockCrawler.get_historical_data env flag crawler symbol tf p
              = Raise (NameError "np")
            ∨ (flag = true ∧ StockCrawler.data_source crawler = "yahoo"
               ∧ yfinance_installed env = true
               ∧ ∀ e, yf_history env symbol (StockCrawler.clamp_period tf p) tf ≠ Raise e)).
  { intros crawler flag. unfold StockCrawler.get_historical_data.
    destruct (StockCrawler.data_source crawler =? "yahoo") eqn:Hsrc;
      [|left; apply mock_historical_raises].
    destruct flag; cbn [negb].
    - unfold StockCrawler.import_yfinance.
      destruct (yfinance_installed env) eqn:Hinst; [|left; apply mock_historical_raises].
      destruct (yf_history env symbol (StockCrawler.clamp_period tf p) tf) as [bars|e] eqn:Hh.
      + right. apply String.eqb_eq in Hsrc. done.
      + left. cbn [bind try_except]. apply mock_historical_raises.
    - left. rewrite !mock_historical_raises. reflexivity. }
  destruct (StockCrawler.__init__ env has_yfinance (env_api_key env) "yahoo")
    as [crawler flag].
  destruct (Hget crawler flag) as [->|(_ & _ & Hinst & Hok)]; [done|].
  destruct Hno as [Hno|[e He]]; [congruence|]. by destruct (Hok e).
Qed.

(** X5.  Whenever Yahoo cannot be used, the library being missing or its
    request raising, the crawl task fails with a [NameError]: the synthetic
    generator the historical fetch hands over to reads the name [np], which
    the module never binds.  Nothing is staged and the insert task of the
    unit is not reached with a result. *)
Theorem crawl_fails_without_yahoo (env : Env) (faults insert_faults : Faults)
    (has_yfinance : bool) (w : World) (symbol timeframe_key execution_date : string) :
  let timeframe := (Pipeline.TIMEFRAMES timeframe_key).1 in
  let period := (Pipeline.TIMEFRAMES timeframe_key).2 in
  yfinance_installed env = false
  ∨ (∃ e, yf_history env symbol (StockCrawler.clamp_period timeframe period) timeframe
          = Raise e) →
  Pipeline.crawl_stock_data env faults has_yfinance w symbol timeframe_key execution_date
    = (w, Raise (NameError "np"))
  ∧ Pipeline.run_unit env faults insert_faults has_yfinance w symbol timeframe_key
      execution_date = (w, Raise (NameError "np")).
Proof.
  intros timeframe period Hno.
  pose proof (crawl_without_yahoo env faults has_yfinance w symbol timeframe_key
                execution_date Hno) as Hcrawl.
  split; [exact Hcrawl|]. unfold Pipeline.run_unit. by rewrite Hcrawl.
Qed.

Lemma crawl_fails_without_yahoo_witness :
  Pipeline.run_unit offline_env no_faults no_faults false empty_world
    "AAPL" "daily" "2024-01-01_00-00-00" = (empty_world, Raise (NameError "np")).
Proof.
  apply (crawl_fails_without_yahoo offline_env no_faults no_faults false empty_world
           "AAPL" "daily" "2024-01-01_00-00-00").
  left. reflexivity.
Defined.

(** ** More on the crawler *)

(** X6.  What the constructor leaves behind.  A crawler whose source is
    "yahoo" was built with the library flag set; a crawler whose source is
    "alphavantage" holds a key; the flag is never lowered, and it is only
    raised when the library imports; the source is the one asked for, or
    "yahoo" in place of a keyless "alphavantage", or "mock" when the library
    is missing. *)
Theorem init_invariants (env : Env) (has_yfinance : bool) (key : option string)
    (source : string) :
  let init := StockCrawler.__init__ env has_yfinance key source in
  (StockCrawler.data_source init.1 = "yahoo" → init.2 = true)
  ∧ (StockCrawler.data_source init.1 = "alphavantage" →
       StockCrawler.truthy (StockCrawler.api_key init.1) = true)
  ∧ (has_yfinance = true → init.2 = true)
  ∧ (init.2 = true → has_yfinance = true ∨ yfinance_installed env = true)
  ∧ (StockCrawler.data_source init.1 = source
     ∨ (source = "alphavantage" ∧ StockCrawler.truthy (StockCrawler.api_key init.1) = false
        ∧ StockCrawler.data_source init.1 ∈ ["yahoo"; "mock"])
     ∨ (source = "yahoo" ∧ yfinance_installed env = false
        ∧ StockCrawler.data_source init.1 = "mock")).
Proof.
  intros init. subst init. unfold StockCrawler.__init__.
  set (key' := if StockCrawler.truthy key then key else env_api_key env).
  destruct (source =? "alphavantage") eqn:Halpha.
  - apply String.eqb_eq in Halpha as ->.
    destruct (StockCrawler.truthy key') eqn:Hkey; cbn [andb negb].
    + cbn [String.eqb Ascii.eqb Bool.eqb fst snd StockCrawler.data_source StockCrawler.api_key].
      split_and!; try done; auto.
    + cbn [String.eqb Ascii.eqb Bool.eqb]. unfold StockCrawler._check_yfinance_available.
      destruct has_yfinance, (yfinance_installed env);
        cbn [negb fst snd StockCrawler.data_source StockCrawler.api_key];
        split_and!; try done; auto;
        right; left; (split_and!; [done|done|in_list]).
  - cbn [andb]. destruct (source =? "yahoo") eqn:Hyahoo.
    + apply String.eqb_eq in Hyahoo as ->. unfold StockCrawler._check_yfinance_available.
      destruct has_yfinance, (yfinance_installed env) eqn:Hinst;
        cbn [negb fst snd StockCrawler.data_source StockCrawler.api_key];
        split_and!; try done; auto.
    + apply String.eqb_neq in Halpha, Hyahoo.
      cbn [fst snd StockCrawler.data_source StockCrawler.api_key].
      split_and!; try done; auto.
Qed.
Lemma uniform_range env seed k a b :
  unit_interval env → (a < b)%Q →
  (a <= StockCrawler.uniform env seed k a b)%Q ∧ (StockCrawler.uniform env seed k a b < b)%Q.
Proof.
  intros Hu Hab. destruct (Hu seed k) as [H0 H1]. unfold StockCrawler.uniform.
  set (x := random_stream env seed k) in *. split; nra.
Qed.

Lemma pymax_bounds a b : (a <= StockCrawler.pymax a b)%Q ∧ (b <= StockCrawler.pymax a b)%Q.
Proof.
  unfold StockCrawler.pymax. destruct (Qle_bool b a) eqn:H.
  - apply Qle_bool_iff in H. split; lra.
  - assert (¬ (b <= a)%Q) as Hn by (intros Hle; apply Qle_bool_iff in Hle; congruence).
    split; lra.
Qed.

Lemma pymin_bounds a b : (StockCrawler.pymin a b <= a)%Q ∧ (StockCrawler.pymin a b <= b)%Q.
Proof.
  unfold StockCrawler.pymin. destruct (Qle_bool a b) eqn:H.
  - apply Qle_bool_iff in H. split; lra.
  - assert (¬ (a <= b)%Q) as Hn by (intros Hle; apply Qle_bool_iff in Hle; congruence).
    split; lra.
Qed.

Lemma base_price_bounds symbol : (100 <= StockCrawler.base_price symbol)%Q.
Proof.
  unfold StockCrawler.base_price.
  repeat match goal with |- context [if ?b then _ else _] => destruct b end; lra.
Qed.

Lemma int_range (x : Q) (a b : Z) :
  (0 <= a)%Z → (inject_Z a <= x)%Q → (x < inject_Z b)%Q →
  (a <= StockCrawler.int x < b)%Z.
Proof.
  intros Ha Hax Hxb. unfold StockCrawler.int.
  assert (0 <= Qnum x)%Z as Hnum.
  { unfold Qle in Hax. cbn in Hax. destruct x as [n d]. cbn in *. nia. }
  apply Z.leb_le in Hnum. rewrite Hnum. split.
  - rewrite <- (Qfloor_Z a). by apply Qfloor_resp_le.
  - rewrite Zlt_Qlt. eapply Qle_lt_trans; [apply Qfloor_le|done].
Qed.

Lemma hour_of_range t : (0 <= StockCrawler.hour_of t < 24)%Z.
Proof. unfold StockCrawler.hour_of. apply Z.mod_pos_bound. lia. Qed.

Lemma pymin_cases a b : StockCrawler.pymin a b = a ∨ StockCrawler.pymin a b = b.
Proof. unfold StockCrawler.pymin. destruct (Qle_bool a b); auto. Qed.

Lemma div_nonneg (x d : Q) : (0 <= x)%Q → (0 < d)%Q → (0 <= x / d)%Q.
Proof. intros Hx Hd. apply Qle_shift_div_l; [done|]. lra. Qed.

Lemma inject_nonneg (z : Z) : (0 ≤ z)%Z → (0 <= inject_Z z)%Q.
Proof. intros H. change 0%Q with (inject_Z 0). by rewrite <- Zle_Qle. Qed.

(** X7.  The synthetic bars are sound whatever the random draws: in every
    row of the intraday and of the daily generator the prices are positive,
    the low lies under the open and the close, the high above them, and the
    volume is a whole number of the generator's range. *)
Theorem synthetic_bars_sound (env : Env) (symbol interval : string) :
  unit_interval env →
  Forall (sound_bar 1000000 5000000)
    (rows (StockCrawler._get_mock_data env symbol interval))
  ∧ Forall (sound_bar 5000000 20000000)
      (rows (StockCrawler._get_mock_daily_data env symbol)).
Proof.
  intros Hu. split; apply Forall_forall; intros r Hr;
    cbn [rows StockCrawler._get_mock_data StockCrawler._get_mock_daily_data] in Hr;
    apply list_elem_of_fmap in Hr as (i & -> & _).
  - set (seed := (Z.of_nat i + hash env symbol)%Z).
    set (ts := (clock env - Z.of_nat i * StockCrawler.mock_step interval)%Z).
    pose proof (uniform_range env seed 0 (- (2 # 1)) (2 # 1) Hu eq_refl) as [R0 R0'].
    pose proof (uniform_range env seed 1 (- (1 # 1)) (1 # 1) Hu eq_refl) as [R1 R1'].
    pose proof (uniform_range env seed 2 (1 # 10) (1 # 1) Hu eq_refl) as [R2 R2'].
    pose proof (uniform_range env seed 3 (1 # 10) (1 # 1) Hu eq_refl) as [R3 R3'].
    pose proof (uniform_range env seed 4 (1000000 # 1) (5000000 # 1) Hu eq_refl) as [R4 R4'].
    pose proof (base_price_bounds symbol) as Hbase.
    pose proof (hour_of_range ts) as [Hh _].
    pose proof (div_nonneg _ (24 # 1) (inject_nonneg _ Hh) eq_refl) as Hcycle.
    set (cycle := (inject_Z (StockCrawler.hour_of ts) / (24 # 1))%Q) in Hcycle.
    set (c := (StockCrawler.base_price symbol + (5 # 1) * cycle
               + StockCrawler.uniform env seed 0 (- (2 # 1)) (2 # 1))%Q).
    set (o := (c - StockCrawler.uniform env seed 1 (- (1 # 1)) (1 # 1))%Q).
    pose proof (pymax_bounds o c) as [M1 M2].
    pose proof (pymin_bounds o c) as [m1 m2].
    assert (Hc : (98 <= c)%Q) by (subst c; lra).
    assert (Ho : (97 < o)%Q) by (subst o; lra).
    assert (Hmin : (97 < StockCrawler.pymin o c)%Q)
      by (destruct (pymin_cases o c) as [->| ->]; lra).
    exists o, (StockCrawler.pymax o c + StockCrawler.uniform env seed 2 (1 # 10) (1 # 1))%Q,
      (StockCrawler.pymin o c - StockCrawler.uniform env seed 3 (1 # 10) (1 # 1))%Q, c,
      (StockCrawler.int (StockCrawler.uniform env seed 4 (1000000 # 1) (5000000 # 1))).
    pose proof (int_range _ 1000000 5000000 ltac:(lia) R4 R4') as [V1 V2].
    split_and!; try reflexivity; try lra; done.
  - set (seed := (Z.of_nat i + hash env symbol)%Z).
    pose proof (uniform_range env seed 0 (- (5 # 1)) (5 # 1) Hu eq_refl) as [R0 R0'].
    pose proof (uniform_range env seed 1 (- (2 # 1)) (2 # 1) Hu eq_refl) as [R1 R1'].
    pose proof (uniform_range env seed 2 (1 # 2) (3 # 1) Hu eq_refl) as [R2 R2'].
    pose proof (uniform_range env seed 3 (1 # 2) (3 # 1) Hu eq_refl) as [R3 R3'].
    pose proof (uniform_range env seed 4 (5000000 # 1) (20000000 # 1) Hu eq_refl) as [R4 R4'].
    pose proof (base_price_bounds symbol) as Hbase.
    pose proof (div_nonneg _ (365 # 1) (inject_nonneg (Z.of_nat i) (Nat2Z.is_nonneg _))
                  eq_refl) as Htrend.
    pose proof (div_nonneg _ (7 # 1) (inject_nonneg (Z.of_nat (i mod 7)) (Nat2Z.is_nonneg _))
                  eq_refl) as Hweek.
    set (trend := (inject_Z (Z.of_nat i) / (365 # 1))%Q) in Htrend.
    set (week := (inject_Z (Z.of_nat (i mod 7)) / (7 # 1))%Q) in Hweek.
    set (c := (StockCrawler.base_price symbol + (10 # 1) * trend + (5 # 1) * week
               + StockCrawler.uniform env seed 0 (- (5 # 1)) (5 # 1))%Q).
    set (o := (c - StockCrawler.uniform env seed 1 (- (2 # 1)) (2 # 1))%Q).
    pose proof (pymax_bounds o c) as [M1 M2].
    pose proof (pymin_bounds o c) as [m1 m2].
    assert (Hc : (95 <= c)%Q) by (subst c; lra).
    assert (Ho : (93 < o)%Q) by (subst o; lra).
    assert (Hmin : (93 < StockCrawler.pymin o c)%Q)
      by (destruct (pymin_cases o c) as [->| ->]; lra).
    exists o, (StockCrawler.pymax o c + StockCrawler.uniform env seed 2 (1 # 2) (3 # 1))%Q,
      (StockCrawler.pymin o c - StockCrawler.uniform env seed 3 (1 # 2) (3 # 1))%Q, c,
      (StockCrawler.int (StockCrawler.uniform env seed 4 (5000000 # 1) (20000000 # 1))).
    pose proof (int_range _ 5000000 20000000 ltac:(lia) R4 R4') as [V1 V2].
    split_and!; try reflexivity; try lra; done.
Qed.

Lemma synthetic_bars_sound_witness :
  Forall (sound_bar 1000000 5000000)
    (rows (StockCrawler._get_mock_data (sample_env []) "AAPL" "60min")).
Proof.
  apply (synthetic_bars_sound (sample_env []) "AAPL" "60min").
  intros seed k. cbn. split; [unfold Qle|unfold Qlt]; simpl; lia.
Defined.

Lemma mock_data_step env symbol i1 i2 :
  StockCrawler.mock_step i1 = StockCrawler.mock_step i2 →
  StockCrawler._get_mock_data env symbol i1 = StockCrawler._get_mock_data env symbol i2.
Proof.
  intros H. unfold StockCrawler._get_mock_data. f_equal. apply map_ext. intros i.
  unfold StockCrawler.mock_row. by rewrite H.
Qed.

Lemma unknown_interval interval :
  interval ∉ ["1min"; "5min"; "15min"; "30min"] →
  StockCrawler.interval_map interval = "1h"
  ∧ StockCrawler.mock_step interval = StockCrawler.hour.
Proof.
  intros Hn. unfold StockCrawler.interval_map, StockCrawler.mock_step.
  assert (H1 : (interval =? "1min") = false) by (apply String.eqb_neq; intros ->; apply Hn; in_list).
  assert (H5 : (interval =? "5min") = false) by (apply String.eqb_neq; intros ->; apply Hn; in_list).
  assert (H15 : (interval =? "15min") = false) by (apply String.eqb_neq; intros ->; apply Hn; in_list).
  assert (H30 : (interval =? "30min") = false) by (apply String.eqb_neq; intros ->; apply Hn; in_list).
  by rewrite H1, H5, H15, H30.
Qed.

(** X8.  An interval the crawler does not know is treated as "60min": with
    the Yahoo source and with the synthetic source, the intraday fetch for
    any interval other than "1min", "5min", "15min" and "30min" asks Yahoo
    for hourly bars over 60 days, or generates hourly points, and gives
    exactly what the fetch for "60min" gives. *)
Theorem unknown_interval_is_hourly (env : Env) (has_yfinance : bool) (self : StockCrawler.t)
    (symbol interval outputsize : string) :
  interval ∉ ["1min"; "5min"; "15min"; "30min"] →
  StockCrawler.data_source self ≠ "alphavantage" →
  StockCrawler.period_map (StockCrawler.interval_map interval) = "60d"
  ∧ StockCrawler.get_intraday_data env has_yfinance self symbol interval outputsize
    = StockCrawler.get_intraday_data env has_yfinance self symbol "60min" outputsize.
Proof.
  intros Hn Hsrc. destruct (unknown_interval interval Hn) as [Hmap Hstep].
  rewrite Hmap. split; [reflexivity|].
  assert (Hmock : StockCrawler._get_mock_data env symbol interval
                  = StockCrawler._get_mock_data env symbol "60min")
    by (apply mock_data_step; by rewrite Hstep).
  unfold StockCrawler.get_intraday_data, StockCrawler._get_yahoo_data.
  rewrite Hmap, Hmock. apply String.eqb_neq in Hsrc. rewrite Hsrc.
  reflexivity.
Qed.

Lemma unknown_interval_is_hourly_witness :
  StockCrawler.get_intraday_data (sample_env (sample_bars 3)) true
    {| StockCrawler.api_key := None; StockCrawler.data_source := "yahoo" |}
    "AAPL" "daily" "full"
  = StockCrawler.get_intraday_data (sample_env (sample_bars 3)) true
      {| StockCrawler.api_key := None; StockCrawler.data_source := "yahoo" |}
      "AAPL" "60min" "full".
Proof.
  apply (unknown_interval_is_hourly (sample_env (sample_bars 3)) true
           {| StockCrawler.api_key := None; StockCrawler.data_source := "yahoo" |}
           "AAPL" "daily" "full").
  - not_in_list.
  - discriminate.
Defined.

(** X9.  Hourly history is cut to 60 days: asking [get_historical_data] for
    hourly bars over "1y", "2y", "5y", "10y" or "max" gives exactly what
    asking for "60d" gives, with every data source; for the other
    timeframes the period is handed on as it is. *)
Theorem hourly_period_is_cut (env : Env) (has_yfinance : bool) (self : StockCrawler.t)
    (symbol period : string) :
  period ∈ ["1y"; "2y"; "5y"; "10y"; "max"] →
  StockCrawler.get_historical_data env has_yfinance self symbol "1h" period
    = StockCrawler.get_historical_data env has_yfinance self symbol "1h" "60d"
  ∧ ∀ timeframe, timeframe ≠ "1h" → StockCrawler.clamp_period timeframe period = period.
Proof.
  intros Hp. split.
  - assert (Hclamp : StockCrawler.clamp_period "1h" period = "60d").
    { unfold StockCrawler.clamp_period. by rewrite bool_decide_eq_true_2. }
    assert (Hmock : ∀ p, StockCrawler._get_mock_historical_data env symbol "1h" p
                         = StockCrawler._get_mock_historical_data env symbol "1h" "60d")
      by reflexivity.
    unfold StockCrawler.get_historical_data. rewrite Hclamp.
    change (StockCrawler.clamp_period "1h" "60d") with "60d".
    by rewrite (Hmock period).
  - intros timeframe Hne. unfold StockCrawler.clamp_period.
    apply String.eqb_neq in Hne. by rewrite Hne.
Qed.

Lemma hourly_period_is_cut_witness :
  StockCrawler.get_historical_data (sample_env (sample_bars 3)) true
    {| StockCrawler.api_key := None; StockCrawler.data_source := "yahoo" |} "AAPL" "1h" "max"
  = StockCrawler.get_historical_data (sample_env (sample_bars 3)) true
      {| StockCrawler.api_key := None; StockCrawler.data_source := "yahoo" |} "AAPL" "1h" "60d".
Proof.
  apply (hourly_period_is_cut (sample_env (sample_bars 3)) true
           {| StockCrawler.api_key := None; StockCrawler.data_source := "yahoo" |}
           "AAPL" "max").
  in_list.
Defined.

(** *** [get_multiple_stocks] *)

Lemma intraday_ok env has_yfinance self symbol interval outputsize :
  ∃ df, StockCrawler.get_intraday_data env has_yfinance self symbol interval outputsize = Ok df.
Proof.
  unfold StockCrawler.get_intraday_data.
  destruct (_ =? "yahoo").
  - unfold StockCrawler._get_yahoo_data, StockCrawler.import_yfinance.
    destruct has_yfinance; cbn [negb try_except]; [|eauto].
    destruct (yfinance_installed env); cbn [bind try_except]; [|eauto].
    destruct (yf_history env _ _ _) as [[|b bars]|e]; cbn [bind try_except]; eauto.
  - destruct (_ =? "alphavantage"); [|eauto].
    unfold StockCrawler._get_alphavantage_data, try_except.
    repeat case_match; eauto.
Qed.

Section multiple.
Context (envs : nat → Env) (has_yfinance : bool) (self : StockCrawler.t) (interval : string).

Local Abbreviation fetch k symbol :=
  (StockCrawler.get_intraday_data (envs k) has_yfinance self symbol interval "full").
Local Abbreviation loop :=
  (StockCrawler.get_multiple_stocks_loop envs has_yfinance self interval).

Lemma multiple_loop_result symbols : ∀ k acc slept,
  ∃ res n, loop k symbols acc slept = Ok (res, n)
    ∧ (∀ s df, res !! s = Some df →
         acc !! s = Some df
         ∨ ∃ j, symbols !! j = Some s ∧ fetch (k + j)%nat s = Ok df ∧ df_empty df = false)
    ∧ (∀ s, is_Some (acc !! s) → is_Some (res !! s))
    ∧ (∀ j s df, symbols !! j = Some s → fetch (k + j)%nat s = Ok df → df_empty df = false →
         is_Some (res !! s)).
Proof.
  induction symbols as [|symbol rest IH]; intros k acc slept.
  - exists acc, slept. split_and!; [done|by left|done|done].
  - cbn [StockCrawler.get_multiple_stocks_loop].
    destruct (intraday_ok (envs k) has_yfinance self symbol interval "full") as [df Hdf].
    rewrite Hdf. cbn [bind].
    match goal with |- context [loop (S k) rest ?a ?n] =>
      destruct (IH (S k) a n) as (res & n' & Hloop & Hfrom & Hkeep & Hall) end.
    exists res, n'. split; [exact Hloop|]. split_and!.
    + intros s df' Hs. destruct (Hfrom s df' Hs) as [Hacc|(j & Hj & Hf & He)].
      * destruct (df_empty df) eqn:Hempty; [by left|].
        destruct (decide (symbol = s)) as [->|Hne].
        -- rewrite lookup_insert_eq in Hacc. injection Hacc as <-.
           right. exists 0%nat. rewrite Nat.add_0_r. done.
        -- rewrite lookup_insert_ne in Hacc by done. by left.
      * right. exists (S j). by rewrite Nat.add_succ_r.
    + intros s Hs. apply Hkeep. destruct (df_empty df); [done|].
      destruct (decide (symbol = s)) as [->|Hne].
      * rewrite lookup_insert_eq. eauto.
      * by rewrite lookup_insert_ne.
    + intros [|j] s df' Hj Hf He.
      * injection Hj as ->. rewrite Nat.add_0_r in Hf. rewrite Hdf in Hf.
        injection Hf as ->. apply Hkeep. rewrite He. rewrite lookup_insert_eq. eauto.
      * rewrite Nat.add_succ_r in Hf. by apply (Hall j s df').
Qed.

Lemma multiple_loop_quiet symbols : ∀ k acc slept,
  StockCrawler.data_source self ≠ "alphavantage"
  ∨ (size acc + length symbols ≤ 5)%nat →
  ∃ res, loop k symbols acc slept = Ok (res, slept).
Proof.
  induction symbols as [|symbol rest IH]; intros k acc slept Hq; [by eexists|].
  cbn [StockCrawler.get_multiple_stocks_loop].
  destruct (intraday_ok (envs k) has_yfinance self symbol interval "full") as [df Hdf].
  rewrite Hdf. cbn [bind].
  assert (Hno : (StockCrawler.data_source self =? "alphavantage") && (0 <? size acc)%nat
                && (size acc mod 5 =? 0)%nat = false).
  { destruct Hq as [Hsrc|Hsize].
    - apply String.eqb_neq in Hsrc. by rewrite Hsrc.
    - cbn [length] in Hsize.
      destruct (size acc) as [|[|[|[|[|m]]]]] eqn:Hm;
        rewrite ?andb_false_r; try reflexivity; lia. }
  rewrite Hno. apply IH. destruct Hq as [Hsrc|Hsize]; [by left|right].
  cbn [length] in Hsize. destruct (df_empty df); [lia|].
  pose proof (map_size_insert symbol df acc) as Hs.
  destruct (acc !! symbol); simpl in Hs; lia.
Qed.

Lemma multiple_loop_pauses symbols : ∀ k acc slept,
  StockCrawler.data_source self = "alphavantage" →
  size acc = k → NoDup symbols → (∀ s, s ∈ symbols → acc !! s = None) →
  (∀ j s, symbols !! j = Some s → ∃ df, fetch (k + j)%nat s = Ok df ∧ df_empty df = false) →
  ∃ res, loop k symbols acc slept = Ok (res, (slept + pauses k (length symbols))%nat).
Proof.
  induction symbols as [|symbol rest IH]; intros k acc slept Hsrc Hsize Hnd Hfresh Hall.
  - cbn. rewrite Nat.add_0_r. by eexists.
  - cbn [StockCrawler.get_multiple_stocks_loop length pauses].
    destruct (Hall 0%nat symbol eq_refl) as (df & Hdf & Hne).
    rewrite Nat.add_0_r in Hdf. rewrite Hdf. cbn [bind]. rewrite Hne.
    rewrite Hsrc, Hsize. cbn [String.eqb Ascii.eqb Bool.eqb andb].
    apply NoDup_cons in Hnd as [Hnotin Hnd].
    match goal with |- context [loop (S k) rest ?a ?n] =>
      destruct (IH (S k) a n Hsrc) as [res Hres] end.
    + rewrite map_size_insert, Hfresh by in_list. by rewrite Hsize.
    + exact Hnd.
    + intros s Hs. rewrite lookup_insert_ne by (intros ->; done).
      apply Hfresh. by apply list_elem_of_further.
    + intros j s Hj. rewrite Nat.add_succ_l, <- Nat.add_succ_r. by apply (Hall (S j)).
    + exists res. rewrite Hres. do 2 f_equal.
      destruct ((0 <? k)%nat && (k mod 5 =? 0)%nat); lia.
Qed.

Lemma multiple_loop_empty symbols : ∀ k acc slept,
  size acc = 0%nat →
  (∀ j s df, symbols !! j = Some s → fetch (k + j)%nat s = Ok df → df_empty df = true) →
  loop k symbols acc slept = Ok (acc, slept).
Proof.
  induction symbols as [|symbol rest IH]; intros k acc slept Hsize Hall; [done|].
  cbn [StockCrawler.get_multiple_stocks_loop].
  destruct (intraday_ok (envs k) has_yfinance self symbol interval "full") as [df Hdf].
  rewrite Hdf. cbn [bind].
  rewrite (Hall 0%nat symbol df eq_refl) by (by rewrite Nat.add_0_r).
  rewrite Hsize. cbn [Nat.ltb Nat.leb andb]. rewrite andb_false_r. cbn [andb].
  apply IH; [done|]. intros j s df' Hj Hf. apply (Hall (S j) s df' Hj).
  by rewrite Nat.add_succ_r.
Qed.

End multiple.

Lemma div_step k : (1 ≤ k)%nat →
  (k / 5 = (k - 1) / 5 + (if (k mod 5 =? 0)%nat then 1 else 0))%nat.
Proof.
  intros Hk.
  pose proof (Nat.div_mod_eq k 5) as E1.
  pose proof (Nat.div_mod_eq (k - 1) 5) as E2.
  pose proof (Nat.mod_upper_bound k 5 ltac:(lia)) as B1.
  pose proof (Nat.mod_upper_bound (k - 1) 5 ltac:(lia)) as B2.
  destruct (k mod 5 =? 0)%nat eqn:Hm.
  - apply Nat.eqb_eq in Hm. lia.
  - apply Nat.eqb_neq in Hm. lia.
Qed.

Lemma pauses_closed n : ∀ k, (1 ≤ k)%nat →
  pauses k n = ((k + n - 1) / 5 - (k - 1) / 5)%nat.
Proof.
  induction n as [|n IH]; intros k Hk; cbn [pauses].
  - rewrite Nat.add_0_r. lia.
  - rewrite IH by lia.
    assert (Hlt : (0 <? k)%nat = true) by (apply Nat.ltb_lt; lia). rewrite Hlt. cbn [andb].
    pose proof (div_step k Hk) as Hs.
    replace (S k + n - 1)%nat with (k + S n - 1)%nat by lia.
    replace (S k - 1)%nat with k by lia.
    assert ((k / 5 ≤ (k + S n - 1) / 5)%nat) by (apply Nat.Div0.div_le_mono; lia).
    destruct (k mod 5 =? 0)%nat; lia.
Qed.

Lemma pauses_from_start n : pauses 0 n = ((n - 1) / 5)%nat.
Proof.
  destruct n as [|n]; [reflexivity|]. cbn [pauses]. cbn [Nat.ltb Nat.leb andb].
  rewrite pauses_closed by lia.
  replace (1 + n - 1)%nat with n by lia. replace (S n - 1)%nat with n by lia.
  replace (1 - 1)%nat with 0%nat by lia. rewrite Nat.Div0.div_0_l. lia.
Qed.

(** X10.  [get_multiple_stocks] always returns, and its dictionary holds
    the requested symbols whose fetch gave rows and nothing else: every
    entry is the non-empty frame of a request made for its symbol, and every
    request that gives a non-empty frame leaves its symbol in the
    dictionary.  A symbol whose fetch comes back empty is left out without
    notice. *)
Theorem multiple_stocks_result (envs : nat → Env) (has_yfinance : bool)
    (self : StockCrawler.t) (symbols : list string) (interval : string) :
  ∃ res n,
    StockCrawler.get_multiple_stocks envs has_yfinance self symbols interval = Ok (res, n)
    ∧ (∀ s df, res !! s = Some df →
         df_empty df = false
         ∧ ∃ j, symbols !! j = Some s
                ∧ StockCrawler.get_intraday_data (envs j) has_yfinance self s interval "full"
                  = Ok df)
    ∧ (∀ j s df, symbols !! j = Some s →
         StockCrawler.get_intraday_data (envs j) has_yfinance self s interval "full" = Ok df →
         df_empty df = false → is_Some (res !! s)).
Proof.
  unfold StockCrawler.get_multiple_stocks.
  destruct (multiple_loop_result envs has_yfinance self interval symbols 0 ∅ 0)
    as (res & n & Hloop & Hfrom & _ & Hall).
  exists res, n. split; [exact Hloop|]. split.
  - intros s df Hs. destruct (Hfrom s df Hs) as [Hacc|(j & Hj & Hf & He)]; [done|].
    split; [exact He|]. exists j. done.
  - intros j s df Hj Hf He. by apply (Hall j s df).
Qed.

(** X11.  The pauses of [get_multiple_stocks] follow the size of the
    dictionary, not the number of requests.  No pause is taken with a source
    other than "alphavantage", nor for five symbols or fewer, nor as long as
    every request comes back empty (then the dictionary is empty as well);
    with the "alphavantage" source, distinct symbols and every request
    answered with rows, one pause is taken before each request whose index
    is a positive multiple of five. *)
Theorem multiple_stocks_pauses (envs : nat → Env) (has_yfinance : bool)
    (self : StockCrawler.t) (symbols : list string) (interval : string) :
  ∃ res n,
    StockCrawler.get_multiple_stocks envs has_yfinance self symbols interval = Ok (res, n)
    ∧ (StockCrawler.data_source self ≠ "alphavantage" → n = 0%nat)
    ∧ ((length symbols ≤ 5)%nat → n = 0%nat)
    ∧ ((∀ j s df, symbols !! j = Some s →
          StockCrawler.get_intraday_data (envs j) has_yfinance self s interval "full" = Ok df →
          df_empty df = true) →
       n = 0%nat ∧ res = ∅)
    ∧ (StockCrawler.data_source self = "alphavantage" → NoDup symbols →
       (∀ j s, symbols !! j = Some s →
          ∃ df, StockCrawler.get_intraday_data (envs j) has_yfinance self s interval "full"
                  = Ok df ∧ df_empty df = false) →
       n = ((length symbols - 1) / 5)%nat).
Proof.
  unfold StockCrawler.get_multiple_stocks.
  destruct (multiple_loop_result envs has_yfinance self interval symbols 0 ∅ 0)
    as (res & n & Hloop & _).
  exists res, n. split; [exact Hloop|]. split_and!.
  - intros Hsrc.
    destruct (multiple_loop_quiet envs has_yfinance self interval symbols 0 ∅ 0)
      as [res' Hres']; [by left|]. congruence.
  - intros Hlen.
    destruct (multiple_loop_quiet envs has_yfinance self interval symbols 0 ∅ 0)
      as [res' Hres']; [right; by rewrite map_size_empty|]. congruence.
  - intros Hall.
    rewrite (multiple_loop_empty envs has_yfinance self interval symbols 0 ∅ 0) in Hloop;
      [by injection Hloop as <- <-|apply map_size_empty|exact Hall].
  - intros Hsrc Hnd Hall.
    destruct (multiple_loop_pauses envs has_yfinance self interval symbols 0 ∅ 0)
      as [res' Hres']; [done|apply map_size_empty|done|intros; apply lookup_empty|exact Hall|].
    rewrite pauses_from_start, Nat.add_0_l in Hres'. congruence.
Qed.

(** *** The schema of the fetched frames *)

Lemma yahoo_frame_schema symbol bars :
  base_schema symbol (StockCrawler.yahoo_frame symbol None bars).
Proof.
  split; [done|]. intros r Hr. cbn [rows StockCrawler.yahoo_frame] in Hr.
  apply list_elem_of_fmap in Hr as (b & -> & _).
  unfold StockCrawler.yahoo_row, StockCrawler.record_of. cbn [foldr fst snd]. split.
  - by rewrite lookup_set_cell, decide_True.
  - exists (bar_time b). rewrite lookup_set_cell, decide_False by done.
    by rewrite lookup_set_cell, decide_True.
Qed.

Lemma mock_data_schema env symbol interval :
  base_schema symbol (StockCrawler._get_mock_data env symbol interval).
Proof.
  split; [done|]. intros r Hr. cbn [rows StockCrawler._get_mock_data] in Hr.
  apply list_elem_of_fmap in Hr as (i & -> & _). split; [reflexivity|].
  eexists. reflexivity.
Qed.

Lemma mock_daily_data_schema env symbol :
  base_schema symbol (StockCrawler._get_mock_daily_data env symbol).
Proof.
  split; [done|]. intros r Hr. cbn [rows StockCrawler._get_mock_daily_data] in Hr.
  apply list_elem_of_fmap in Hr as (i & -> & _). split; [reflexivity|].
  eexists. reflexivity.
Qed.

(** X12.  One schema for the Yahoo and the synthetic source.  For a crawler
    whose source is not Alpha Vantage the intraday fetch and the daily fetch
    always return a frame, whatever Yahoo answers, and the frame is either
    empty or has exactly the seven base columns with, in every row, the
    symbol asked for and a timestamp.  (The columns of an Alpha Vantage frame
    are those its reply names.) *)
Theorem fetched_frames_share_schema (env : Env) (has_yfinance : bool) (self : StockCrawler.t)
    (symbol interval outputsize : string) :
  StockCrawler.data_source self ≠ "alphavantage" →
  (∃ df, StockCrawler.get_intraday_data env has_yfinance self symbol interval outputsize
           = Ok df
         ∧ (df_empty df = true ∨ base_schema symbol df))
  ∧ (∃ df, StockCrawler.get_daily_data env self symbol outputsize = Ok df
           ∧ (df_empty df = true ∨ base_schema symbol df)).
Proof.
  intros Halpha. apply String.eqb_neq in Halpha. split.
  - unfold StockCrawler.get_intraday_data. rewrite Halpha.
    destruct (_ =? "yahoo");
      [|eexists; split; [reflexivity|right; apply mock_data_schema]].
    unfold StockCrawler._get_yahoo_data, StockCrawler.import_yfinance.
    destruct has_yfinance; cbn [negb try_except];
      [|eexists; split; [reflexivity|right; apply mock_data_schema]].
    destruct (yfinance_installed env); cbn [bind try_except];
      [|eexists; split; [reflexivity|right; apply mock_data_schema]].
    destruct (yf_history env _ _ _) as [[|b bars]|e]; cbn [bind try_except];
      eexists; (split; [reflexivity|]).
    + by left.
    + right. apply yahoo_frame_schema.
    + right. apply mock_data_schema.
  - unfold StockCrawler.get_daily_data. rewrite Halpha.
    destruct (_ =? "yahoo").
    + rewrite resolve_yf. cbn [bind try_except]. eexists. split; [reflexivity|by left].
    + eexists. split; [reflexivity|right; apply mock_daily_data_schema].
Qed.

Lemma fetched_frames_share_schema_witness :
  let env := sample_env (sample_bars 3) in
  let crawler := (StockCrawler.__init__ env false None "yahoo").1 in
  ∃ df, StockCrawler.get_intraday_data env true crawler "AAPL" "60min" "full" = Ok df
        ∧ (df_empty df = true ∨ base_schema "AAPL" df).
Proof.
  intros env crawler.
  destruct (fetched_frames_share_schema env true crawler "AAPL" "60min" "full") as [H _].
  - vm_compute. discriminate.
  - exact H.
Defined.

(** ** More on the indicators *)

Lemma return_step_columns d c : c ∈ columns (return_step d) → c = "daily_return" ∨ c ∈ columns d.
Proof. apply columns_assign. Qed.

Lemma volatility_step_columns env d c :
  c ∈ columns (volatility_step env d) → c = "volatility_10d" ∨ c ∈ columns d.
Proof. unfold volatility_step. destruct (10 <=? len d)%nat; [apply columns_assign|by right]. Qed.

Lemma volume_step_columns d c : c ∈ columns (volume_step d) → c = "volume_change" ∨ c ∈ columns d.
Proof. apply columns_assign. Qed.

Lemma rs_step_columns d c : c ∈ columns (rs_step d) → c = "rs_50" ∨ c ∈ columns d.
Proof. unfold rs_step. destruct (bool_decide _); [apply columns_assign|by right]. Qed.

Lemma enrich_base env df :
  let d := volatility_step env (return_step
             (sma_step 200 "sma_200" (sma_step 50 "sma_50" (sma_step 20 "sma_20" df)))) in
  len d = len df
  ∧ (∀ c, c ∈ columns df → c ∈ columns d)
  ∧ (∀ c, c ∈ columns d →
       c ∈ columns df ∨ c ∈ ["sma_20"; "sma_50"; "sma_200"; "daily_return"; "volatility_10d"])
  ∧ (∀ c i, c ∉ ["sma_20"; "sma_50"; "sma_200"; "daily_return"; "volatility_10d"] →
       raw_at d c i = raw_at df c i).
Proof.
  intros d. subst d. split_and!.
  - rewrite (proj1 (keeps_volatility env _)), (proj1 (keeps_return _)),
      !(proj1 (keeps_sma _ _ _)). done.
  - intros c Hc.
    by apply keeps_volatility, keeps_return, keeps_sma, keeps_sma, keeps_sma.
  - intros c Hc.
    apply volatility_step_columns in Hc as [->|Hc]; [right; in_list|].
    apply return_step_columns in Hc as [->|Hc]; [right; in_list|].
    apply sma_step_columns in Hc as [->|Hc]; [right; in_list|].
    apply sma_step_columns in Hc as [->|Hc]; [right; in_list|].
    apply sma_step_columns in Hc as [->|Hc]; [right; in_list|]. by left.
  - intros c i Hc.
    rewrite raw_at_volatility, raw_at_return, !raw_at_sma; [done|..];
      intros <-; apply Hc; in_list.
Qed.

Lemma enrich_raw_any env df c i :
  c ∉ indicator_columns →
  raw_at (StockCrawler._add_basic_indicators env df) c i = raw_at df c i.
Proof.
  intros Hc. rewrite enrich_steps.
  destruct (bool_decide ("close" ∈ columns df)); cbn [negb]; [|done]. cbv zeta.
  destruct (enrich_base env df) as (_ & _ & _ & Hraw).
  assert (Hd : ∀ d, (if negb (bool_decide ("volume" ∈ columns d)) then raw_at d c i
                     else raw_at (rs_step (volume_step d)) c i) = raw_at d c i).
  { intros d. destruct (negb _); [done|].
    rewrite raw_at_rs, raw_at_volume; [done|..];
      intros <-; apply Hc; unfold indicator_columns; in_list. }
  match goal with |- raw_at (if ?b then ?d else ?e) c i = _ =>
    transitivity (if b then raw_at d c i else raw_at e c i); [by destruct b|] end.
  rewrite Hd. apply Hraw. intros Hin. apply Hc. unfold indicator_columns. by_cases_on Hin.
Qed.

(** X13.  The enrichment adds columns and changes nothing else.  For every
    frame, the result has the rows of the input in the same number, every
    column of the input, and no new column other than the seven indicators;
    every cell of a column that is not an indicator is as in the input.  A
    frame without a [close] column is returned as it is, and a frame without
    a [volume] column gets neither [volume_change] nor [rs_50]. *)
Theorem enrichment_keeps_input (env : Env) (df : DataFrame) :
  let out := StockCrawler._add_basic_indicators env df in
  len out = len df
  ∧ (∀ c, c ∈ columns df → c ∈ columns out)
  ∧ (∀ c, c ∈ columns out → c ∈ columns df ∨ c ∈ indicator_columns)
  ∧ (∀ c i, c ∉ indicator_columns → raw_at out c i = raw_at df c i)
  ∧ ("close" ∉ columns df → out = df)
  ∧ ("volume" ∉ columns df →
       ∀ c, c ∈ ["volume_change"; "rs_50"] → c ∈ columns out → c ∈ columns df).
Proof.
  intros out. subst out. rewrite enrich_steps.
  destruct (bool_decide ("close" ∈ columns df)) eqn:Hclose; cbn [negb];
    [|split_and!; auto].
  apply bool_decide_eq_true in Hclose. cbv zeta.
  destruct (enrich_base env df) as (Hlen & Hsub & Hsup & Hraw).
  set (d := volatility_step env (return_step
              (sma_step 200 "sma_200" (sma_step 50 "sma_50" (sma_step 20 "sma_20" df))))) in *.
  assert (Hind : ∀ c, c ∈ ["sma_20"; "sma_50"; "sma_200"; "daily_return"; "volatility_10d"] →
                      c ∈ indicator_columns).
  { intros c Hc. unfold indicator_columns. by_cases_on Hc. }
  destruct (bool_decide ("volume" ∈ columns d)) eqn:Hvol; cbn [negb].
  - apply bool_decide_eq_true in Hvol. split_and!.
    + by rewrite (proj1 (keeps_rs _)), (proj1 (keeps_volume _)).
    + intros c Hc. by apply keeps_rs, keeps_volume, Hsub.
    + intros c Hc.
      apply rs_step_columns in Hc as [->|Hc]; [right; unfold indicator_columns; in_list|].
      apply volume_step_columns in Hc as [->|Hc];
        [right; unfold indicator_columns; in_list|].
      destruct (Hsup c Hc) as [?|?]; [by left|right; by apply Hind].
    + intros c i Hc. rewrite raw_at_rs, raw_at_volume, Hraw; [done|..].
      * intros Hin. apply Hc. by apply Hind.
      * intros <-. apply Hc. unfold indicator_columns. in_list.
      * intros <-. apply Hc. unfold indicator_columns. in_list.
    + done.
    + intros Hno. exfalso. destruct (Hsup "volume" Hvol) as [?|Hin]; [done|].
      by repeat (apply elem_of_cons in Hin as [Hin|Hin]; [discriminate Hin|]);
        apply elem_of_nil in Hin.
  - apply bool_decide_eq_false in Hvol. split_and!.
    + exact Hlen.
    + exact Hsub.
    + intros c Hc. destruct (Hsup c Hc) as [?|?]; [by left|right; by apply Hind].
    + intros c i Hc. apply Hraw. intros Hin. apply Hc. by apply Hind.
    + done.
    + intros _ c Hc Hin. destruct (Hsup c Hin) as [?|Hbad]; [done|]. exfalso.
      apply elem_of_cons in Hc as [->|Hc];
        [|apply elem_of_cons in Hc as [->|Hc]; [|by apply elem_of_nil in Hc]];
        by repeat (apply elem_of_cons in Hbad as [Hbad|Hbad]; [discriminate Hbad|]);
          apply elem_of_nil in Hbad.
Qed.


Lemma lookup_div_series a b i :
  mjoin (Pandas.div_series a b !! i) = Pandas.div_cell (mjoin (a !! i)) (mjoin (b !! i)).
Proof.
  unfold Pandas.div_series. rewrite lookup_zip_with.
  destruct (a !! i) as [x|]; [|done]. cbn.
  destruct (b !! i) as [y|]; [done|]. cbn. by destruct x.
Qed.

(** X14.  Relative strength and volume change.  On a frame with the
    columns of a historical fetch, [rs_50] is the close over [sma_50] cell
    by cell (a zero divisor counting as a missing cell), so it is missing
    wherever [sma_50] is missing, and the column only exists for 50 rows or
    more; [volume_change] is missing at the first row and is
    [(v[t] / v[t-1] - 1) * 100] afterwards, for a previous volume that is
    not zero. *)
Theorem relative_strength_and_volume_change (env : Env) (df : DataFrame) :
  columns df = StockCrawler.historical_columns →
  let out := StockCrawler._add_basic_indicators env df in
  (∀ i, cell_at out "rs_50" i
        = Pandas.div_cell (cell_at df "close" i) (cell_at out "sma_50" i))
  ∧ (∀ i, cell_at out "sma_50" i = None → cell_at out "rs_50" i = None)
  ∧ ("rs_50" ∈ columns out ↔ (50 ≤ len df)%nat)
  ∧ cell_at out "volume_change" 0 = None
  ∧ (∀ t p v, series df "volume" !! t = Some (Some p) →
       series df "volume" !! S t = Some (Some v) → ¬ (p == 0)%Q →
       cell_at out "volume_change" (S t) = Some ((v / p - 1) * (100 # 1))%Q).
Proof.
  intros Hcols out.
  set (d3 := sma_step 200 "sma_200" (sma_step 50 "sma_50" (sma_step 20 "sma_20" df))).
  set (d5 := volatility_step env (return_step d3)).
  set (d6 := volume_step d5).
  assert (Hout : out = rs_step d6) by (subst out; by rewrite enrich_out).
  assert (Hne : ∀ c, c ∈ ["sma_20"; "sma_50"; "sma_200"; "daily_return"; "volatility_10d";
                          "volume_change"; "rs_50"] → c ∉ ["close"; "volume"]).
  { intros c Hc Hin.
    repeat (apply elem_of_cons in Hc as [->|Hc];
      [by repeat (apply elem_of_cons in Hin as [Hin|Hin]; [discriminate Hin|]);
         apply elem_of_nil in Hin|]).
    by apply elem_of_nil in Hc. }
  assert (Hseries : ∀ c, c ∈ ["close"; "volume"] → series d6 c = series df c).
  { intros c Hc. subst d6 d5 d3.
    destruct (keeps_volume (volatility_step env (return_step
                (sma_step 200 "sma_200" (sma_step 50 "sma_50" (sma_step 20 "sma_20" df))))))
      as (_ & -> & _); [|intros ->; eapply Hne; [|exact Hc]; in_list].
    destruct (keeps_volatility env (return_step
                (sma_step 200 "sma_200" (sma_step 50 "sma_50" (sma_step 20 "sma_20" df)))))
      as (_ & -> & _); [|intros ->; eapply Hne; [|exact Hc]; in_list].
    destruct (keeps_return
                (sma_step 200 "sma_200" (sma_step 50 "sma_50" (sma_step 20 "sma_20" df))))
      as (_ & -> & _); [|intros ->; eapply Hne; [|exact Hc]; in_list].
    destruct (keeps_sma 200 "sma_200" (sma_step 50 "sma_50" (sma_step 20 "sma_20" df)))
      as (_ & -> & _); [|intros ->; eapply Hne; [|exact Hc]; in_list].
    destruct (keeps_sma 50 "sma_50" (sma_step 20 "sma_20" df))
      as (_ & -> & _); [|intros ->; eapply Hne; [|exact Hc]; in_list].
    destruct (keeps_sma 20 "sma_20" df)
      as (_ & -> & _); [done|intros ->; eapply Hne; [|exact Hc]; in_list]. }
  assert (Hclose_col : "close" ∈ columns df) by (rewrite Hcols; unfold StockCrawler.historical_columns; in_list).
  assert (Hclose : ∀ i, cell_at df "close" i = mjoin (series df "close" !! i)).
  { intros i. rewrite cell_at_series. by rewrite bool_decide_eq_true_2. }
  assert (Hsma : ∀ i, cell_at out "sma_50" i = cell_at d6 "sma_50" i).
  { intros i. rewrite Hout. by destruct (keeps_rs d6) as (_ & _ & -> & _). }
  assert (Hrs : ∀ i, cell_at out "rs_50" i
                     = Pandas.div_cell (cell_at df "close" i) (cell_at out "sma_50" i)).
  { intros i. rewrite Hsma, Hclose, Hout. unfold rs_step.
    destruct (bool_decide ("sma_50" ∈ columns d6)) eqn:Hcol.
    - rewrite cell_at_assign_eq
        by (rewrite length_div_series; by rewrite !length_series).
      rewrite lookup_div_series, (Hseries "close") by in_list.
      rewrite (cell_at_series d6 "sma_50"), Hcol. done.
    - apply bool_decide_eq_false in Hcol.
      rewrite (cell_at_no_column d6 "sma_50") by done.
      rewrite cell_at_no_column; [by destruct (mjoin _)|].
      intros Hin. subst d6 d5 d3.
      apply volume_step_columns in Hin as [?|Hin]; [done|].
      apply volatility_step_columns in Hin as [?|Hin]; [done|].
      apply return_step_columns in Hin as [?|Hin]; [done|].
      apply sma_step_columns in Hin as [?|Hin]; [done|].
      apply sma_step_columns in Hin as [?|Hin]; [done|].
      apply sma_step_columns in Hin as [?|Hin]; [done|].
      rewrite Hcols in Hin. revert Hin. not_in_list. }
  assert (Hvc : ∀ i, cell_at out "volume_change" i
                     = mjoin (Pandas.scale (100 # 1) (Pandas.pct_change (series df "volume")) !! i)).
  { intros i. rewrite Hout. destruct (keeps_rs d6) as (_ & _ & -> & _); [|done].
    subst d6. unfold volume_step.
    rewrite cell_at_assign_eq
      by (by rewrite length_scale, length_pct_change, length_series).
    assert (Hv : series d5 "volume" = series df "volume").
    { rewrite <- (Hseries "volume") by in_list.
      by destruct (keeps_volume d5) as (_ & -> & _). }
    by rewrite Hv. }
  split_and!.
  - exact Hrs.
  - intros i Hnone. rewrite Hrs, Hnone. by destruct (cell_at df "close" i).
  - rewrite Hout. unfold rs_step. split.
    + intros Hin. destruct (bool_decide ("sma_50" ∈ columns d6)) eqn:Hcol.
      * apply bool_decide_eq_true in Hcol. subst d6 d5 d3.
        apply volume_step_columns in Hcol as [?|Hcol]; [done|].
        apply volatility_step_columns in Hcol as [?|Hcol]; [done|].
        apply return_step_columns in Hcol as [?|Hcol]; [done|].
        apply sma_step_columns in Hcol as [?|Hcol]; [done|].
        unfold sma_step at 1 in Hcol.
        destruct (50 <=? len (sma_step 20 "sma_20" df))%nat eqn:Hlen.
        -- apply Nat.leb_le in Hlen. by rewrite (proj1 (keeps_sma _ _ _)) in Hlen.
        -- apply sma_step_columns in Hcol as [?|Hcol]; [done|].
           rewrite Hcols in Hcol. revert Hcol. not_in_list.
      * subst d6 d5 d3.
        apply volume_step_columns in Hin as [?|Hin]; [done|].
        apply volatility_step_columns in Hin as [?|Hin]; [done|].
        apply return_step_columns in Hin as [?|Hin]; [done|].
        apply sma_step_columns in Hin as [?|Hin]; [done|].
        apply sma_step_columns in Hin as [?|Hin]; [done|].
        apply sma_step_columns in Hin as [?|Hin]; [done|].
        rewrite Hcols in Hin. revert Hin. not_in_list.
    + intros Hlen.
      assert (Hcol : "sma_50" ∈ columns d6).
      { subst d6 d5 d3.
        apply keeps_volume, keeps_volatility, keeps_return, keeps_sma.
        unfold sma_step at 1. rewrite (proj1 (keeps_sma _ _ _)).
        apply Nat.leb_le in Hlen. rewrite Hlen. apply columns_assign. by left. }
      rewrite bool_decide_eq_true_2 by done. apply columns_assign. by left.
  - rewrite Hvc. rewrite lookup_scale.
    pose proof (lookup_pct_change_0 (series df "volume")) as H0.
    destruct (Pandas.pct_change (series df "volume") !! 0%nat) as [[x|]|]; try done.
  - intros t p v Hp Hv Hnz. rewrite Hvc. by apply returns_lookup_S.
Qed.

Lemma relative_strength_and_volume_change_witness :
  let df := StockCrawler.yahoo_frame "AAPL" (Some "1d") (sample_bars 3) in
  let out := StockCrawler._add_basic_indicators (sample_env []) df in
  cell_at out "volume_change" 0 = None ∧ cell_at out "rs_50" 2 = None.
Proof.
  intros df out.
  destruct (relative_strength_and_volume_change (sample_env []) df eq_refl)
    as (_ & Hrs & _ & Hvc & _).
  split; [exact Hvc|]. apply Hrs. reflexivity.
Defined.

(** ** More on the transfer utility *)

Lemma append_cons c a b : (String c a ++ b)%string = String c (a ++ b)%string.
Proof. reflexivity. Qed.

Lemma append_nil b : ("" ++ b)%string = b.
Proof. reflexivity. Qed.

Lemma append_assoc a b c : ((a ++ b) ++ c)%string = (a ++ (b ++ c))%string.
Proof. induction a as [|x a IH]; [done|]. by rewrite !append_cons, IH. Qed.

Lemma length_append a b :
  String.length (a ++ b)%string = (String.length a + String.length b)%nat.
Proof. induction a as [|c a IH]; [done|]. rewrite append_cons. cbn [String.length]. by rewrite IH. Qed.

Lemma substring_all s : substring 0 (String.length s) s = s.
Proof. induction s as [|c s IH]; [done|]. cbn. by rewrite IH. Qed.

Lemma substring_append a b :
  substring (String.length a) (String.length b) (a ++ b)%string = b.
Proof.
  induction a as [|c a IH]; [rewrite append_nil; apply substring_all|].
  rewrite append_cons. cbn [String.length substring]. apply IH.
Qed.

Lemma ends_with_app suffix s : ends_with suffix (s ++ suffix)%string = true.
Proof.
  unfold ends_with. rewrite length_append. apply andb_true_iff.
  split; [apply Nat.leb_le; lia|].
  replace (String.length s + String.length suffix - String.length suffix)%nat
    with (String.length s) by lia.
  apply String.eqb_eq, substring_append.
Qed.

Lemma split_on_app sep a b :
  free_of sep a = true →
  split_on sep (a ++ String sep b)%string = a :: split_on sep b.
Proof.
  induction a as [|c a IH]; intros Hf.
  - rewrite append_nil. cbn [split_on]. by rewrite Ascii.eqb_refl.
  - cbn [free_of] in Hf. apply andb_true_iff in Hf as [Hc Hs].
    rewrite append_cons. cbn [split_on]. apply negb_true_iff in Hc.
    rewrite Hc, (IH Hs). done.
Qed.

Lemma split_on_free sep s : free_of sep s = true → split_on sep s = [s].
Proof.
  induction s as [|c s IH]; intros Hf; [done|].
  cbn [free_of] in Hf. apply andb_true_iff in Hf as [Hc Hs].
  cbn [split_on]. apply negb_true_iff in Hc. rewrite Hc, (IH Hs). done.
Qed.

Lemma free_of_append sep a b :
  free_of sep a = true → free_of sep b = true → free_of sep (a ++ b)%string = true.
Proof.
  induction a as [|c a IH]; intros Ha Hb; [done|].
  cbn [free_of] in Ha. apply andb_true_iff in Ha as [Hc Ha].
  rewrite append_cons. cbn [free_of]. by rewrite Hc, IH.
Qed.

Lemma staged_key_split symbol timeframe_key execution_date :
  free_of "/" symbol = true → free_of "/" timeframe_key = true →
  split_on "/" (Pipeline.object_key_of symbol timeframe_key execution_date)
    = symbol :: timeframe_key :: split_on "/" (execution_date ++ ".csv")%string.
Proof.
  intros Hs Ht. unfold Pipeline.object_key_of.
  change ("/" ++ ?x)%string with (String "/" x).
  rewrite split_on_app by done.
  change ("/" ++ ?x)%string with (String "/" x).
  by rewrite split_on_app.
Qed.

Lemma staged_key_csv symbol timeframe_key execution_date :
  ends_with ".csv" (Pipeline.object_key_of symbol timeframe_key execution_date) = true.
Proof.
  unfold Pipeline.object_key_of.
  rewrite <- !append_assoc. apply ends_with_app.
Qed.

(** X15.  The key under which the crawl task stages a unit reads back in
    the transfer utility: it ends in [.csv], and splitting it on ["/"] gives
    the symbol, then the name of the unit, then the file name, as long as
    neither the symbol nor the name of the unit contains a ["/"]. *)
Theorem staged_key_parses (symbol timeframe_key execution_date : string) :
  free_of "/" symbol = true → free_of "/" timeframe_key = true →
  let key := Pipeline.object_key_of symbol timeframe_key execution_date in
  ends_with ".csv" key = true
  ∧ (∃ rest, split_on "/" key = symbol :: timeframe_key :: rest)
  ∧ (free_of "/" execution_date = true →
     split_on "/" key = [symbol; timeframe_key; (execution_date ++ ".csv")%string]).
Proof.
  intros Hs Ht key. subst key. split_and!.
  - apply staged_key_csv.
  - eexists. by apply staged_key_split.
  - intros Hd. rewrite staged_key_split by done. do 2 f_equal.
    apply split_on_free. by apply free_of_append.
Qed.

Lemma staged_key_parses_witness :
  split_on "/" (Pipeline.object_key_of "AAPL" "daily" "2024-01-01_00-00-00")
    = ["AAPL"; "daily"; "2024-01-01_00-00-00.csv"].
Proof.
  destruct (staged_key_parses "AAPL" "daily" "2024-01-01_00-00-00") as (_ & _ & H);
    [reflexivity|reflexivity|].
  apply H. reflexivity.
Defined.

Lemma transfer_one_file (w : World) (key symbol timeframe : string)
    (rest : list string) (df : DataFrame) :
  ends_with ".csv" key = true →
  split_on "/"%char key = symbol :: timeframe :: rest →
  default ∅ (minio w !! "stock-data") !! key = Some df →
  df_empty df = false →
  "symbol" ∈ columns df → "timestamp" ∈ columns df → "timeframe" ∈ columns df →
  (∀ r c, r ∈ rows df → c ∈ ["open"; "high"; "low"; "close"; "volume"] →
          r !! c = None ∨ ∃ q, r !! c = Some (VNum q)) →
  FixDataTransfer.load_and_insert_data w [key] (λ _, false) =
    {| minio := minio w;
       pg := {| stock_data :=
                  Some (execute_values FixDataTransfer.insert_sql
                          (map legacy_tuple (rows df)) (default [] (stock_data (pg w))));
                stock_data_v2 :=
                  Some (execute_values FixDataTransfer.insert_v2_sql
                          (map (versioned_tuple timeframe) (rows df))
                          (default [] (stock_data_v2 (pg w)))) |} |}.
Proof.
  intros Hcsv Hsplit Hobj Hne Hsym Hts Htf Hnum.
  assert (Hprep : FixDataTransfer.prepare symbol timeframe df = df).
  { unfold FixDataTransfer.prepare. rewrite (bool_decide_eq_true_2 _ Hsym).
    by rewrite (bool_decide_eq_true_2 _ Htf). }
  assert (H1 : for_each (FixDataTransfer.data_tuple df) (rows df)
               = Ok (map legacy_tuple (rows df))).
  { apply for_each_ok. intros r Hr. unfold FixDataTransfer.data_tuple.
    rewrite bool_decide_eq_true_2 by done.
    rewrite ohlcv_numeric by (intros c Hc; by apply Hnum). reflexivity. }
  assert (H2 : for_each (FixDataTransfer.data_tuple_v2 timeframe df) (rows df)
               = Ok (map (versioned_tuple timeframe) (rows df))).
  { apply for_each_ok. intros r Hr. unfold FixDataTransfer.data_tuple_v2.
    rewrite bool_decide_eq_true_2 by done.
    rewrite ohlcv_numeric by (intros c Hc; by apply Hnum). reflexivity. }
  unfold FixDataTransfer.load_and_insert_data.
  cbn [FixDataTransfer.process_files]. unfold FixDataTransfer.process_file.
  rewrite Hcsv, Hsplit, Hobj, Hne, Hprep, H1, H2. cbn [negb].
  destruct (rows df) as [|r1 rs] eqn:Erows.
  { unfold df_empty in Hne. rewrite Erows in Hne. by destruct (columns df). }
  cbn [map]. destruct w as [objects [[legacy|] [versioned|]]]; reflexivity.
Qed.

Lemma yahoo_row_numeric symbol timeframe b c :
  c ∈ ["open"; "high"; "low"; "close"; "volume"] →
  StockCrawler.yahoo_row symbol (Some timeframe) b !! c = None
  ∨ ∃ q, StockCrawler.yahoo_row symbol (Some timeframe) b !! c = Some (VNum q).
Proof.
  intros Hc. unfold StockCrawler.yahoo_row, StockCrawler.record_of.
  cbn [foldr fst snd fmap option_fmap option_map].
  repeat (apply elem_of_cons in Hc as [->|Hc];
    [repeat (rewrite lookup_set_cell;
             first [rewrite decide_True by done | rewrite decide_False by done]);
     match goal with |- context [VNum <$> ?x] => destruct x; cbn; eauto end|]).
  by apply elem_of_nil in Hc.
Qed.

Lemma enriched_row_cells env symbol timeframe bars r :
  r ∈ rows (StockCrawler._add_basic_indicators env
              (StockCrawler.yahoo_frame symbol (Some timeframe) bars)) →
  ∃ b, b ∈ bars
       ∧ ∀ c, c ∉ indicator_columns →
              r !! c = StockCrawler.yahoo_row symbol (Some timeframe) b !! c.
Proof.
  set (df := StockCrawler.yahoo_frame symbol (Some timeframe) bars).
  set (out := StockCrawler._add_basic_indicators env df).
  intros Hr. apply list_elem_of_lookup in Hr as [i Hi].
  assert (Hlen : len out = length bars).
  { subst out. rewrite enrich_len by done. unfold len, df.
    cbn [rows StockCrawler.yahoo_frame]. by rewrite length_map. }
  assert (Hi' := Hi). apply lookup_lt_Some in Hi'. unfold len in Hlen.
  destruct (bars !! i) as [b|] eqn:Eb; [|apply lookup_ge_None in Eb; lia].
  exists b. split; [by eapply list_elem_of_lookup_2|].
  intros c Hc. pose proof (enrich_raw_any env df c i Hc) as H.
  fold out in H. unfold raw_at in H. rewrite Hi in H. cbn in H. rewrite H.
  unfold df. cbn [rows StockCrawler.yahoo_frame]. by rewrite list_lookup_fmap, Eb.
Qed.

Lemma enriched_row_at env symbol timeframe bars i b :
  bars !! i = Some b →
  ∃ r, rows (StockCrawler._add_basic_indicators env
               (StockCrawler.yahoo_frame symbol (Some timeframe) bars)) !! i = Some r
       ∧ ∀ c, c ∉ indicator_columns →
              r !! c = StockCrawler.yahoo_row symbol (Some timeframe) b !! c.
Proof.
  set (df := StockCrawler.yahoo_frame symbol (Some timeframe) bars).
  set (out := StockCrawler._add_basic_indicators env df).
  intros Hb.
  assert (Hlen : len out = length bars).
  { subst out. rewrite enrich_len by done. unfold len, df.
    cbn [rows StockCrawler.yahoo_frame]. by rewrite length_map. }
  assert (Hb' := Hb). apply lookup_lt_Some in Hb'. unfold len in Hlen.
  destruct (rows out !! i) as [r|] eqn:Er; [|apply lookup_ge_None in Er; lia].
  exists r. split; [done|].
  intros c Hc. pose proof (enrich_raw_any env df c i Hc) as H.
  fold out in H. unfold raw_at in H. rewrite Er in H. cbn in H. rewrite H.
  unfold df. cbn [rows StockCrawler.yahoo_frame]. by rewrite list_lookup_fmap, Hb.
Qed.

Lemma key_column_not_indicator c :
  c ∈ ["symbol"; "timestamp"; "timeframe"; "open"; "high"; "low"; "close"; "volume"] →
  c ∉ indicator_columns.
Proof.
  intros Hc Hin. unfold indicator_columns in Hin.
  repeat (apply elem_of_cons in Hc as [->|Hc]; [revert Hin; not_in_list|]).
  by apply elem_of_nil in Hc.
Qed.

Lemma transfer_row_stored env symbol timeframe timeframe_key bars (T : list row) b :
  let out := StockCrawler._add_basic_indicators env
               (StockCrawler.yahoo_frame symbol (Some timeframe) bars) in
  b ∈ bars →
  ∃ r, r ∈ execute_values FixDataTransfer.insert_v2_sql
             (map (versioned_tuple timeframe_key) (rows out)) T
       ∧ r !! "symbol" = Some (VStr symbol)
       ∧ r !! "timestamp" = Some (VTime (bar_time b))
       ∧ r !! "timeframe" = Some (VStr timeframe_key).
Proof.
  intros out Hb. apply list_elem_of_lookup in Hb as [i Hi].
  destruct (enriched_row_at env symbol timeframe bars i b Hi) as (r0 & Hr0 & Hcells).
  fold out in Hr0. apply list_elem_of_lookup_2 in Hr0.
  destruct (yahoo_row_keys symbol timeframe b) as (Hs & Ht & Hf).
  assert (Hr0s : r0 !! "symbol" = Some (VStr symbol))
    by (rewrite Hcells; [done|apply key_column_not_indicator; in_list]).
  assert (Hr0t : r0 !! "timestamp" = Some (VTime (bar_time b)))
    by (rewrite Hcells; [done|apply key_column_not_indicator; in_list]).
  destruct (upsert_all_key_stored FixDataTransfer.insert_v2_sql
              (excluded (stmt_columns FixDataTransfer.insert_v2_sql)
                 (versioned_tuple timeframe_key r0))
              (map (excluded (stmt_columns FixDataTransfer.insert_v2_sql))
                 (map (versioned_tuple timeframe_key) (rows out)))
              T [VStr symbol; VTime (bar_time b); VStr timeframe_key]) as (r & Hr & Hk).
  - apply code_statement_well_formed, stmt_versioned.
  - apply list_elem_of_fmap. exists (versioned_tuple timeframe_key r0). split; [done|].
    apply list_elem_of_fmap. eauto.
  - apply key_of_key_columns; unfold versioned_tuple;
      cbn [stmt_columns FixDataTransfer.insert_v2_sql].
    + by rewrite excluded_cons, decide_True.
    + rewrite excluded_cons, decide_False by done.
      by rewrite excluded_cons, decide_True.
    + rewrite excluded_cons, decide_False by done.
      rewrite excluded_cons, decide_False by done.
      by rewrite excluded_cons, decide_True.
  - exists r. split; [exact Hr|]. by apply key_columns_lookup.
Qed.

Lemma staged_frame_transfers env symbol timeframe bars :
  let out := StockCrawler._add_basic_indicators env
               (StockCrawler.yahoo_frame symbol (Some timeframe) bars) in
  bars ≠ [] →
  df_empty out = false
  ∧ "symbol" ∈ columns out ∧ "timestamp" ∈ columns out ∧ "timeframe" ∈ columns out
  ∧ (∀ r c, r ∈ rows out → c ∈ ["open"; "high"; "low"; "close"; "volume"] →
            r !! c = None ∨ ∃ q, r !! c = Some (VNum q)).
Proof.
  intros out Hne. split_and!.
  - by apply enriched_not_empty.
  - apply enrich_columns; [done|]. cbn. in_list.
  - apply enrich_columns; [done|]. cbn. in_list.
  - apply enrich_columns; [done|]. cbn. in_list.
  - intros r c Hr Hc.
    destruct (enriched_row_cells env symbol timeframe bars r Hr) as (b' & _ & Hcells).
    rewrite Hcells.
    + by apply yahoo_row_numeric.
    + apply key_column_not_indicator.
      repeat (apply elem_of_cons in Hc as [->|Hc]; [in_list|]). by apply elem_of_nil in Hc.
Qed.

Lemma pipeline_then_transfer_state (env : Env) (insert_faults : Faults) (has_yfinance : bool)
    (w : World) (symbol timeframe_key execution_date : string) (bars : list Bar) :
  let timeframe := (Pipeline.TIMEFRAMES timeframe_key).1 in
  let period := (Pipeline.TIMEFRAMES timeframe_key).2 in
  let key := Pipeline.object_key_of symbol timeframe_key execution_date in
  let out := StockCrawler._add_basic_indicators env
               (StockCrawler.yahoo_frame symbol (Some timeframe) bars) in
  yfinance_installed env = true →
  yf_history env symbol (StockCrawler.clamp_period timeframe period) timeframe = Ok bars →
  bars ≠ [] →
  replace "s3://stock-data/" "" key = key →
  free_of "/" symbol = true → free_of "/" timeframe_key = true →
  pg (FixDataTransfer.load_and_insert_data
        (Pipeline.run_unit env no_faults insert_faults has_yfinance w symbol timeframe_key
           execution_date).1 [key] (λ _, false)) =
    {| stock_data :=
         Some (execute_values FixDataTransfer.insert_sql (map legacy_tuple (rows out))
                 (default [] (stock_data (pg w))));
       stock_data_v2 :=
         Some (execute_values FixDataTransfer.insert_v2_sql
                 (map (versioned_tuple timeframe_key) (rows out))
                 (default [] (stock_data_v2 (pg w)))) |}.
Proof.
  intros timeframe period key out Hinst Hbars Hne Hkey Hsym Htfk.
  rewrite (run_unit_staged env insert_faults has_yfinance w symbol timeframe_key
             execution_date bars) by done.
  fold timeframe key out. cbn [fst].
  pose proof (staged_key_split symbol timeframe_key execution_date Hsym Htfk) as Hsplit.
  destruct (staged_frame_transfers env symbol timeframe bars Hne)
    as (Hfull & Hcs & Hct & Hcf & Hnum).
  erewrite (transfer_one_file _ key symbol timeframe_key _ out
              (staged_key_csv _ _ _) Hsplit); [reflexivity|..]; try done.
  cbn [minio]. unfold Pipeline.put_object.
  change Pipeline.bucket_name with "stock-data".
  rewrite lookup_insert_eq. cbn [default]. apply lookup_insert_eq.
Qed.

(** C2, amended.  After the pipeline has ingested a work unit (Yahoo answers
    with a non-empty series, the crawl task stages it and the insert task
    runs, whatever its faults), the legacy table [stock_data] is as it was
    before: the pipeline does not write it.  Once the transfer utility has
    processed the file the unit staged, every timestamp of the fetched series
    has a row in both tables: in [stock_data] under the symbol, and in
    [stock_data_v2] under the symbol and the name of the unit, which the
    utility reads off the path.  Neither the symbol nor the name of the unit
    contains a ["/"]. *)
Theorem dual_write_by_transfer (env : Env) (insert_faults : Faults) (has_yfinance : bool)
    (w : World) (symbol timeframe_key execution_date : string) (bars : list Bar) :
  let timeframe := (Pipeline.TIMEFRAMES timeframe_key).1 in
  let period := (Pipeline.TIMEFRAMES timeframe_key).2 in
  let key := Pipeline.object_key_of symbol timeframe_key execution_date in
  yfinance_installed env = true →
  yf_history env symbol (StockCrawler.clamp_period timeframe period) timeframe = Ok bars →
  bars ≠ [] →
  free_of "/" symbol = true → free_of "/" timeframe_key = true →
  let ingested :=
    (Pipeline.run_unit env no_faults insert_faults has_yfinance w symbol timeframe_key
       execution_date).1 in
  let after := FixDataTransfer.load_and_insert_data ingested [key] (λ _, false) in
  stock_data (pg ingested) = stock_data (pg w)
  ∧ ∀ b, b ∈ bars →
      (∃ r, r ∈ default [] (stock_data (pg after))
            ∧ r !! "symbol" = Some (VStr symbol)
            ∧ r !! "timestamp" = Some (VTime (bar_time b)))
      ∧ (∃ r, r ∈ default [] (stock_data_v2 (pg after))
              ∧ r !! "symbol" = Some (VStr symbol)
              ∧ r !! "timestamp" = Some (VTime (bar_time b))
              ∧ r !! "timeframe" = Some (VStr timeframe_key)).
Proof.
  intros timeframe period key Hinst Hbars Hne Hsym Htfk ingested after.
  set (out := StockCrawler._add_basic_indicators env
                (StockCrawler.yahoo_frame symbol (Some timeframe) bars)).
  assert (Hingested : ∃ cr,
    ingested =
      (Pipeline.insert_to_postgres insert_faults
         {| minio := Pipeline.put_object Pipeline.bucket_name key out (minio w); pg := pg w |}
         symbol timeframe_key (Some cr)).1).
  { subst ingested. unfold Pipeline.run_unit.
    rewrite (crawl_ok env no_faults has_yfinance w symbol timeframe_key execution_date bars)
      by done.
    fold timeframe key out. eauto. }
  destruct Hingested as [cr Hingested].
  split.
  - rewrite Hingested. by rewrite insert_legacy.
  - intros b Hb.
    pose proof (staged_key_split symbol timeframe_key execution_date Hsym Htfk) as Hsplit.
    destruct (staged_frame_transfers env symbol timeframe bars Hne)
      as (Hfull & Hcs & Hct & Hcf & Hnum).
    apply list_elem_of_lookup in Hb as [i Hi].
    destruct (enriched_row_at env symbol timeframe bars i b Hi) as (r0 & Hr0 & Hcells).
    fold out in Hr0. apply list_elem_of_lookup_2 in Hr0.
    destruct (yahoo_row_keys symbol timeframe b) as (Hs & Ht & _).
    apply (transfer_writes_both ingested key symbol timeframe_key _ out
             (staged_key_csv _ _ _) Hsplit) with (r0 := r0); try done.
    + rewrite Hingested, insert_minio. cbn [minio]. unfold Pipeline.put_object.
      change Pipeline.bucket_name with "stock-data".
      rewrite lookup_insert_eq. cbn [default]. apply lookup_insert_eq.
    + rewrite Hcells; [done|apply key_column_not_indicator; in_list].
    + rewrite Hcells; [done|apply key_column_not_indicator; in_list].
Qed.

Lemma dual_write_by_transfer_witness :
  let ingested :=
    (Pipeline.run_unit (sample_env (sample_bars 2)) no_faults no_faults true empty_world
       "AAPL" "daily" "2024-01-01_00-00-00").1 in
  let after :=
    FixDataTransfer.load_and_insert_data ingested
      [Pipeline.object_key_of "AAPL" "daily" "2024-01-01_00-00-00"] (λ _, false) in
  stock_data (pg ingested) = None
  ∧ (∃ r, r ∈ default [] (stock_data (pg after))
          ∧ r !! "symbol" = Some (VStr "AAPL")
          ∧ r !! "timestamp" = Some (VTime 0))
  ∧ (∃ r, r ∈ default [] (stock_data_v2 (pg after))
          ∧ r !! "symbol" = Some (VStr "AAPL")
          ∧ r !! "timestamp" = Some (VTime 0)
          ∧ r !! "timeframe" = Some (VStr "daily")).
Proof.
  intros ingested after.
  destruct (dual_write_by_transfer (sample_env (sample_bars 2)) no_faults true empty_world
              "AAPL" "daily" "2024-01-01_00-00-00" (sample_bars 2))
    as (Hlegacy & Hrows);
    [reflexivity|reflexivity|discriminate|reflexivity|reflexivity|].
  destruct (Hrows (sample_bar 0)) as [H1 H2]; [in_list|].
  split; [exact Hlegacy|]. split; [exact H1|exact H2].
Defined.

Lemma versioned_tuple_timeframe timeframe (r0 : row) :
  excluded (stmt_columns FixDataTransfer.insert_v2_sql) (versioned_tuple timeframe r0)
    !! "timeframe" = Some (VStr timeframe).
Proof.
  unfold versioned_tuple. cbn [stmt_columns FixDataTransfer.insert_v2_sql].
  rewrite excluded_cons, decide_False by done.
  rewrite excluded_cons, decide_False by done.
  by rewrite excluded_cons, decide_True.
Qed.

(** X17.  The transfer utility leaves the versioned rows of other
    timeframes alone.  When it processes a staged file, every row of the
    versioned table whose timeframe is not the one read off the path of the
    file stays where it is, with all its cells: rows stored under another
    name of timeframe keep their prices and their indicators. *)
Theorem transfer_leaves_other_timeframes (w : World) (key symbol timeframe : string)
    (rest : list string) (df : DataFrame) :
  ends_with ".csv" key = true →
  split_on "/"%char key = symbol :: timeframe :: rest →
  default ∅ (minio w !! "stock-data") !! key = Some df →
  df_empty df = false →
  "symbol" ∈ columns df → "timestamp" ∈ columns df → "timeframe" ∈ columns df →
  (∀ r c, r ∈ rows df → c ∈ ["open"; "high"; "low"; "close"; "volume"] →
          r !! c = None ∨ ∃ q, r !! c = Some (VNum q)) →
  let after := FixDataTransfer.load_and_insert_data w [key] (λ _, false) in
  ∀ i r, default [] (stock_data_v2 (pg w)) !! i = Some r →
         r !! "timeframe" ≠ Some (VStr timeframe) →
         default [] (stock_data_v2 (pg after)) !! i = Some r.
Proof.
  intros Hcsv Hsplit Hobj Hne Hsym Hts Htf Hnum after i r Hi Hother. subst after.
  rewrite (transfer_one_file w key symbol timeframe rest df) by done.
  cbn [pg stock_data_v2 default id]. unfold execute_values.
  destruct (upsert_all_lookup FixDataTransfer.insert_v2_sql
              (map (excluded (stmt_columns FixDataTransfer.insert_v2_sql))
                 (map (versioned_tuple timeframe) (rows df)))
              _ i r Hi) as (r' & Hr' & _ & Hsame).
  rewrite Hr'. f_equal. apply Hsame.
  apply Forall_forall. intros t Ht.
  apply list_elem_of_fmap in Ht as (tup & -> & Htup).
  apply list_elem_of_fmap in Htup as (r0 & -> & _).
  unfold conflict.
  change (stmt_conflict FixDataTransfer.insert_v2_sql) with Pipeline.key_columns.
  destruct (key_of Pipeline.key_columns r) as [k|] eqn:Hk; [|done].
  destruct (key_of Pipeline.key_columns
              (excluded (stmt_columns FixDataTransfer.insert_v2_sql)
                 (versioned_tuple timeframe r0))) as [k'|] eqn:Hk'; [|done].
  apply bool_decide_eq_false. intros ->.
  apply Hother. rewrite <- (versioned_tuple_timeframe timeframe r0).
  apply (key_of_eq_lookup Pipeline.key_columns _ _ k'); [done..|].
  unfold Pipeline.key_columns. in_list.
Qed.

Lemma transfer_leaves_other_timeframes_witness :
  let after :=
    FixDataTransfer.load_and_insert_data archive_world
      [Pipeline.object_key_of "AAPL" "daily" "2024-01-01_00-00-00"] (λ _, false) in
  default [] (stock_data_v2 (pg after)) !! 0%nat
    = Some (default ∅ (default [] (stock_data_v2 (pg archive_world)) !! 0%nat)).
Proof.
  refine (transfer_leaves_other_timeframes archive_world
            (Pipeline.object_key_of "AAPL" "daily" "2024-01-01_00-00-00") "AAPL" "daily"
            ["2024-01-01_00-00-00.csv"]
            (StockCrawler._add_basic_indicators (sample_env (sample_bars 2))
               (StockCrawler.yahoo_frame "AAPL" (Some "1d") (sample_bars 2)))
            _ _ _ _ _ _ _ _ 0%nat _ _ _).
  - reflexivity.
  - reflexivity.
  - vm_compute. reflexivity.
  - reflexivity.
  - vm_compute. in_list.
  - vm_compute. in_list.
  - vm_compute. in_list.
  - intros r0 c Hr0 Hc.
    destruct (enriched_row_cells (sample_env (sample_bars 2)) "AAPL" "1d" (sample_bars 2)
                r0 Hr0) as (b & _ & Hcells).
    rewrite Hcells.
    + by apply yahoo_row_numeric.
    + apply key_column_not_indicator.
      repeat (apply elem_of_cons in Hc as [->|Hc]; [in_list|]). by apply elem_of_nil in Hc.
  - vm_compute. reflexivity.
  - vm_compute. discriminate.
Defined.

Lemma process_file_committed conn key content db_fault conn' :
  FixDataTransfer.process_file conn key content db_fault = FixDataTransfer.Written conn' →
  committed conn' = committed conn.
Proof.
  unfold FixDataTransfer.process_file.
  destruct (negb _); [done|].
  destruct (split_on _ key) as [|symbol [|timeframe rest]]; [done..|].
  destruct content as [df|]; [|done].
  destruct (df_empty df); [done|].
  destruct (for_each (FixDataTransfer.data_tuple _) _) as [[|t ts]|]; [by intros [= <-]| |done].
  destruct db_fault; [done|].
  destruct (stock_data (working conn)); [|done].
  destruct (stock_data_v2 (working conn)); [|done].
  destruct (for_each (FixDataTransfer.data_tuple_v2 _ _) _); [|done].
  by intros [= <-].
Qed.

Lemma process_file_no_table conn key content db_fault :
  stock_data (working conn) = None ∨ stock_data_v2 (working conn) = None →
  FixDataTransfer.process_file conn key content db_fault = FixDataTransfer.Skipped
  ∨ FixDataTransfer.process_file conn key content db_fault = FixDataTransfer.Failed
  ∨ FixDataTransfer.process_file conn key content db_fault = FixDataTransfer.Written conn.
Proof.
  intros Hno. unfold FixDataTransfer.process_file.
  destruct (negb _); [by left|].
  destruct (split_on _ key) as [|symbol [|timeframe rest]]; [by left..|].
  destruct content as [df|]; [|by right; left].
  destruct (df_empty df); [by left|].
  destruct (for_each (FixDataTransfer.data_tuple _) _) as [[|t ts]|];
    [by right; right| |by right; left].
  destruct db_fault; [by right; left|].
  destruct Hno as [-> | Hno]; [by right; left|].
  rewrite Hno. destruct (stock_data (working conn)); by right; left.
Qed.

Lemma process_files_no_table objects db_fault listing : ∀ i (db : Database),
  stock_data db = None ∨ stock_data_v2 db = None →
  FixDataTransfer.process_files objects db_fault i listing (connect db) = connect db.
Proof.
  induction listing as [|key rest IH]; intros i db Hno; [done|].
  cbn [FixDataTransfer.process_files].
  destruct (process_file_no_table (connect db) key (objects !! key) (db_fault key) Hno)
    as [-> | [-> | ->]].
  - by apply IH.
  - change (rollback (connect db)) with (connect db). by apply IH.
  - change (commit (connect db)) with (connect db).
    destruct (i mod 10 =? 0)%nat; by apply IH.
Qed.

(** X18.  One early failure makes the transfer utility write nothing.  The
    utility creates its tables in the transaction of the first files.  When
    one of the two tables does not exist and the first file of the listing
    fails, the rollback drops the tables again; every later file then fails
    on the missing table or is skipped, and the run leaves the database, and
    the whole world, as it found it, whatever the other files hold.  (The
    count queries that end the run then meet a missing table; they write
    nothing either way.) *)
Theorem transfer_fails_as_a_whole (w : World) (key : string) (rest : list string)
    (db_fault : string → bool) :
  stock_data (pg w) = None ∨ stock_data_v2 (pg w) = None →
  FixDataTransfer.process_file
    (execute create_stock_data_v2 (execute create_stock_data (connect (pg w))))
    key (default ∅ (minio w !! "stock-data") !! key) (db_fault key)
    = FixDataTransfer.Failed →
  FixDataTransfer.load_and_insert_data w (key :: rest) db_fault = w.
Proof.
  intros Hno Hfail. unfold FixDataTransfer.load_and_insert_data.
  cbn [FixDataTransfer.process_files]. rewrite Hfail.
  change (rollback (execute create_stock_data_v2 (execute create_stock_data (connect (pg w)))))
    with (connect (pg w)).
  rewrite process_files_no_table by done.
  by destruct w.
Qed.

Lemma transfer_fails_as_a_whole_witness :
  FixDataTransfer.load_and_insert_data pipeline_world
    ["AAPL/daily/missing.csv"; Pipeline.object_key_of "AAPL" "daily" "2024-01-01_00-00-00"]
    (λ _, false)
  = pipeline_world.
Proof.
  apply (transfer_fails_as_a_whole pipeline_world "AAPL/daily/missing.csv").
  - left. reflexivity.
  - reflexivity.
Defined.

(** X19.  A failure in the transfer utility also drops the files before it.
    The utility commits after the files whose index is a multiple of ten
    only: when files are written at other indices and the next file fails,
    the rollback takes the connection back to its last commit, so the rows
    of all the files written since are lost with it, and the run goes on
    from the committed state as if none of them had been there. *)
Theorem transfer_failure_drops_earlier_files (objects : gmap string DataFrame)
    (db_fault : string → bool) (written : list string) (b : string) (rest : list string) :
  ∀ (i : nat) (conn conn' : Connection),
  written_through objects db_fault conn written = Some conn' →
  (∀ j, (j < length written)%nat → ((i + j) mod 10 ≠ 0)%nat) →
  FixDataTransfer.process_file conn' b (objects !! b) (db_fault b) = FixDataTransfer.Failed →
  FixDataTransfer.process_files objects db_fault i (written ++ b :: rest) conn
    = FixDataTransfer.process_files objects db_fault (S (i + length written)) rest
        (rollback conn).
Proof.
  induction written as [|key keys IH]; intros i conn conn' Hw Hi Hb.
  - injection Hw as <-. cbn [app FixDataTransfer.process_files length]. rewrite Hb.
    by rewrite Nat.add_0_r.
  - cbn [written_through] in Hw.
    destruct (FixDataTransfer.process_file conn key (objects !! key) (db_fault key))
      as [|conn1|] eqn:Hkey; [done| |done].
    cbn [app FixDataTransfer.process_files length]. rewrite Hkey.
    pose proof (Hi 0%nat ltac:(simpl; lia)) as H0. rewrite Nat.add_0_r in H0.
    apply Nat.eqb_neq in H0. rewrite H0.
    rewrite (IH (S i) conn1 conn' Hw); [|intros j Hj; specialize (Hi (S j)); simpl in Hi;
      rewrite Nat.add_succ_r in Hi; apply Hi; lia|exact Hb].
    rewrite Nat.add_succ_r. f_equal.
    unfold rollback. by rewrite (process_file_committed _ _ _ _ _ Hkey).
Qed.

Lemma transfer_failure_drops_earlier_files_witness :
  let objects := default ∅ (minio pipeline_world !! "stock-data") in
  let conn :=
    execute create_stock_data_v2 (execute create_stock_data (connect (pg pipeline_world))) in
  FixDataTransfer.process_files objects (λ _, false) 1
    [Pipeline.object_key_of "AAPL" "daily" "2024-01-01_00-00-00"; "AAPL/daily/missing.csv"]
    conn
  = rollback conn.
Proof.
  intros objects conn.
  refine (transfer_failure_drops_earlier_files objects (λ _, false)
            [Pipeline.object_key_of "AAPL" "daily" "2024-01-01_00-00-00"]
            "AAPL/daily/missing.csv" [] 1 conn _ _ _ _).
  - vm_compute. reflexivity.
  - intros [|j] Hj; [discriminate|simpl in Hj; lia].
  - reflexivity.
Defined.

(** ** The reader of the tables *)

Lemma later_total : Total StockRoutes.later.
Proof.
  intros r1 r2. unfold StockRoutes.later.
  destruct (StockRoutes.instant r1), (StockRoutes.instant r2); try tauto. lia.
Qed.

Lemma later_trans : Transitive StockRoutes.later.
Proof.
  intros r1 r2 r3. unfold StockRoutes.later.
  destruct (StockRoutes.instant r1), (StockRoutes.instant r2), (StockRoutes.instant r3);
    try tauto. lia.
Qed.

Lemma latest_sorted limit l : StronglySorted StockRoutes.later (StockRoutes.latest limit l).
Proof.
  unfold StockRoutes.latest.
  pose proof (@StronglySorted_merge_sort _ StockRoutes.later _ later_trans later_total l) as H.
  rewrite <- (take_drop (Z.to_nat limit) (merge_sort StockRoutes.later l)) in H.
  by apply StronglySorted_app_1_l in H.
Qed.

Lemma latest_length limit l :
  length (StockRoutes.latest limit l) = Nat.min (Z.to_nat limit) (length l).
Proof.
  unfold StockRoutes.latest. rewrite length_take.
  by rewrite (Permutation_length (merge_sort_Permutation StockRoutes.later l)).
Qed.

Lemma latest_elem limit l r : r ∈ StockRoutes.latest limit l → r ∈ l.
Proof.
  unfold StockRoutes.latest. intros Hr.
  rewrite <- (merge_sort_Permutation StockRoutes.later l).
  by eapply subseteq_take.
Qed.

Lemma latest_top limit l x r :
  x ∈ StockRoutes.latest limit l → r ∈ l →
  r ∈ StockRoutes.latest limit l ∨ StockRoutes.later x r.
Proof.
  unfold StockRoutes.latest. intros Hx Hr.
  rewrite <- (merge_sort_Permutation StockRoutes.later l) in Hr.
  pose proof (@StronglySorted_merge_sort _ StockRoutes.later _ later_trans later_total l) as H.
  rewrite <- (take_drop (Z.to_nat limit) (merge_sort StockRoutes.later l)) in H, Hr.
  apply elem_of_app in Hr as [Hr|Hr]; [by left|right].
  by eapply StronglySorted_app_1_elem_of.
Qed.

Lemma StronglySorted_lookup {A} (R : relation A) l i j x y :
  StronglySorted R l → (i < j)%nat → l !! i = Some x → l !! j = Some y → R x y.
Proof.
  intros Hl. revert i j. induction Hl as [|a l Hl IH Ha]; intros i j Hij Hi Hj; [done|].
  destruct j as [|j]; [lia|]. destruct i as [|i]; simpl in *.
  - injection Hi as ->. rewrite Forall_forall in Ha. apply Ha.
    by eapply list_elem_of_lookup_2.
  - apply (IH i j); [lia|done..].
Qed.

Lemma instant_v2_item r : StockRoutes.instant (StockRoutes.v2_item r) = StockRoutes.instant r.
Proof.
  unfold StockRoutes.instant, StockRoutes.v2_item, StockCrawler.record_of.
  cbn [foldr fst snd]. rewrite lookup_set_cell, decide_False by done.
  by rewrite lookup_set_cell, decide_True.
Qed.

Lemma instant_legacy_item tf r :
  StockRoutes.instant (StockRoutes.legacy_item tf r) = StockRoutes.instant r.
Proof.
  unfold StockRoutes.instant, StockRoutes.legacy_item, StockCrawler.record_of.
  cbn [foldr fst snd]. rewrite lookup_set_cell, decide_False by done.
  by rewrite lookup_set_cell, decide_True.
Qed.

Lemma v2_item_keys r :
  StockRoutes.v2_item r !! "symbol" = r !! "symbol"
  ∧ StockRoutes.v2_item r !! "timeframe" = r !! "timeframe".
Proof.
  unfold StockRoutes.v2_item, StockCrawler.record_of. cbn [foldr fst snd]. split.
  - by rewrite lookup_set_cell, decide_True.
  - rewrite lookup_set_cell, decide_False by done.
    rewrite lookup_set_cell, decide_False by done.
    by rewrite lookup_set_cell, decide_True.
Qed.

Lemma legacy_item_keys tf r :
  StockRoutes.legacy_item tf r !! "symbol" = r !! "symbol"
  ∧ StockRoutes.legacy_item tf r !! "timeframe" = Some (VStr tf).
Proof.
  unfold StockRoutes.legacy_item, StockCrawler.record_of. cbn [foldr fst snd]. split.
  - by rewrite lookup_set_cell, decide_True.
  - rewrite lookup_set_cell, decide_False by done.
    rewrite lookup_set_cell, decide_False by done.
    by rewrite lookup_set_cell, decide_True.
Qed.

(** The answer built from the rows selected: reversed, so oldest first. *)
Lemma answer_shape (f : row → row) (P : row → Prop) `{∀ r, Decision (P r)}
    (limit : Z) (T : list row) (items : list row) :
  (∀ r, StockRoutes.instant (f r) = StockRoutes.instant r) →
  items = reverse (map f (StockRoutes.latest limit (filter P T))) →
  (length items ≤ Z.to_nat limit)%nat
  ∧ (∀ it, it ∈ items → ∃ r, r ∈ T ∧ P r ∧ it = f r)
  ∧ (∀ i j x y, (i < j)%nat → items !! i = Some x → items !! j = Some y →
       StockRoutes.later y x).
Proof.
  intros Hf ->. split_and!.
  - rewrite length_reverse, length_map, latest_length. lia.
  - intros it Hit. apply elem_of_reverse, list_elem_of_fmap in Hit as (r & -> & Hr).
    apply latest_elem, list_elem_of_filter in Hr as [HP Hr]. eauto.
  - intros i j x y Hij Hi Hj.
    set (L := StockRoutes.latest limit (filter P T)) in *.
    assert (Hlen : length (reverse (map f L)) = length L)
      by (by rewrite length_reverse, length_map).
    pose proof (lookup_lt_Some _ _ _ Hi) as Hi'. pose proof (lookup_lt_Some _ _ _ Hj) as Hj'.
    rewrite Hlen in Hi', Hj'.
    rewrite reverse_lookup in Hi by (rewrite length_map; lia).
    rewrite reverse_lookup in Hj by (rewrite length_map; lia).
    rewrite length_map in Hi, Hj. rewrite list_lookup_fmap in Hi, Hj.
    destruct (L !! (length L - S i)%nat) as [rx|] eqn:Ex; [|done].
    destruct (L !! (length L - S j)%nat) as [ry|] eqn:Ey; [|done].
    cbn in Hi, Hj. injection Hi as <-. injection Hj as <-.
    pose proof (StronglySorted_lookup _ L (length L - S j) (length L - S i) ry rx
                  (latest_sorted _ _) ltac:(lia) Ey Ex) as Hlater.
    unfold StockRoutes.later in *. by rewrite !Hf.
Qed.

Lemma mapped_period period :
  period ∈ ["1h"; "1d"; "1w"; "1m"] →
  ∃ name, StockRoutes.timeframe_mapping period = Some name
          ∧ name ∈ ["hourly"; "daily"; "weekly"; "monthly"].
Proof.
  intros Hp.
  repeat (apply elem_of_cons in Hp as [->|Hp]; [eexists; split; [reflexivity|in_list]|]).
  by apply elem_of_nil in Hp.
Qed.

(** X20.  The shape of the reader's answers.  When [get_stock_data] answers
    with a list, the list has at most [limit] items; every item carries the
    symbol asked for and the timeframe the reader looked up (also the items
    read from the legacy table, whose rows have no timeframe); the items are
    in chronological order, rows without a timestamp last.  When [period]
    is one of "1h", "1d", "1w", "1m", as it is by default, the [timeframe]
    parameter has no effect on the answer. *)
Theorem reader_answer_shape (db : Database) (symbol period timeframe : string)
    (limit : Z) (items : list row) :
  StockRoutes.get_stock_data db false symbol period timeframe limit
    = StockRoutes.Json items →
  (length items ≤ Z.to_nat limit)%nat
  ∧ (∀ it, it ∈ items →
       it !! "symbol" = Some (VStr symbol)
       ∧ it !! "timeframe" = Some (VStr (StockRoutes.db_timeframe period timeframe)))
  ∧ (∀ i j x y, (i < j)%nat → items !! i = Some x → items !! j = Some y →
       StockRoutes.later y x)
  ∧ (period ∈ ["1h"; "1d"; "1w"; "1m"] →
     ∀ other, StockRoutes.get_stock_data db false symbol period other limit
              = StockRoutes.Json items).
Proof.
  intros Hget.
  assert (Hlegacy : StockRoutes.read_legacy db symbol
                      (StockRoutes.db_timeframe period timeframe) limit
                    = StockRoutes.Json items →
    (length items ≤ Z.to_nat limit)%nat
    ∧ (∀ it, it ∈ items →
         it !! "symbol" = Some (VStr symbol)
         ∧ it !! "timeframe" = Some (VStr (StockRoutes.db_timeframe period timeframe)))
    ∧ (∀ i j x y, (i < j)%nat → items !! i = Some x → items !! j = Some y →
         StockRoutes.later y x)).
  { unfold StockRoutes.read_legacy. destruct (stock_data db) as [legacy|]; [|done].
    destruct (length _ =? 0)%nat.
    { intros [= <-]. split_and!; [simpl; lia|by intros ? ?%elem_of_nil|done]. }
    destruct (limit <? 0)%Z; [done|]. intros [= Hitems].
    destruct (answer_shape (StockRoutes.legacy_item (StockRoutes.db_timeframe period timeframe))
                (λ r : row, r !! "symbol" = Some (VStr symbol)) limit legacy items
                (instant_legacy_item _) (eq_sym Hitems)) as (Hlen & Hin & Hord).
    split_and!; [exact Hlen| |exact Hord].
    intros it Hit. destruct (Hin it Hit) as (r & _ & Hsym & ->).
    destruct (legacy_item_keys (StockRoutes.db_timeframe period timeframe) r) as [-> ->].
    done. }
  assert (Hshape :
    (length items ≤ Z.to_nat limit)%nat
    ∧ (∀ it, it ∈ items →
         it !! "symbol" = Some (VStr symbol)
         ∧ it !! "timeframe" = Some (VStr (StockRoutes.db_timeframe period timeframe)))
    ∧ (∀ i j x y, (i < j)%nat → items !! i = Some x → items !! j = Some y →
         StockRoutes.later y x)).
  { unfold StockRoutes.get_stock_data in Hget.
    destruct (stock_data_v2 db) as [v2|]; [|by apply Hlegacy].
    destruct (0 <? length _)%nat; [|by apply Hlegacy].
    destruct (limit <? 0)%Z; [done|]. injection Hget as Hitems.
    destruct (answer_shape StockRoutes.v2_item
                (λ r : row, r !! "symbol" = Some (VStr symbol)
                            ∧ r !! "timeframe"
                              = Some (VStr (StockRoutes.db_timeframe period timeframe)))
                limit v2 items instant_v2_item (eq_sym Hitems)) as (Hlen & Hin & Hord).
    split_and!; [exact Hlen| |exact Hord].
    intros it Hit. destruct (Hin it Hit) as (r & _ & [Hsym Htf] & ->).
    by destruct (v2_item_keys r) as [-> ->]. }
  destruct Hshape as (Hlen & Hin & Hord). split_and!; [done..|].
  intros Hp other. rewrite <- Hget.
  destruct (mapped_period period Hp) as (name & Hname & _).
  unfold StockRoutes.get_stock_data, StockRoutes.db_timeframe. by rewrite Hname.
Qed.

Lemma reader_answer_shape_witness :
  ∃ items,
    StockRoutes.get_stock_data (pg hourly_world) false "AAPL" "1h" "daily" 1
      = StockRoutes.Json items
    ∧ (length items ≤ 1)%nat.
Proof.
  eexists. split; [vm_compute; reflexivity|].
  eapply (reader_answer_shape (pg hourly_world) "AAPL" "1h" "daily" 1).
  vm_compute. reflexivity.
Defined.

(** X21.  The reader finds nothing of what the pipeline ingests.  After the
    pipeline has ingested a unit (the frame is staged and the insert task has
    run, whatever its faults), every request to [get_stock_data], for the
    symbol of the unit or for another, is answered as before the unit: the
    insert task has left no row behind.  Where the tables do not exist yet,
    as on a new deployment, the answer is still an error 500. *)
Theorem reader_after_pipeline_alone (env : Env) (insert_faults : Faults)
    (has_yfinance : bool) (w : World)
    (symbol timeframe_key execution_date : string) (bars : list Bar)
    (connect_fails : bool) (asked query_period query_timeframe : string) (limit : Z) :
  let timeframe := (Pipeline.TIMEFRAMES timeframe_key).1 in
  let period := (Pipeline.TIMEFRAMES timeframe_key).2 in
  let key := Pipeline.object_key_of symbol timeframe_key execution_date in
  yfinance_installed env = true →
  yf_history env symbol (StockCrawler.clamp_period timeframe period) timeframe = Ok bars →
  bars ≠ [] →
  replace "s3://stock-data/" "" key = key →
  let ingested :=
    (Pipeline.run_unit env no_faults insert_faults has_yfinance w symbol timeframe_key
       execution_date).1 in
  StockRoutes.get_stock_data (pg ingested) connect_fails asked query_period query_timeframe
    limit
    = StockRoutes.get_stock_data (pg w) connect_fails asked query_period query_timeframe limit
  ∧ (stock_data (pg w) = None → stock_data_v2 (pg w) = None →
     StockRoutes.get_stock_data (pg ingested) connect_fails asked query_period
       query_timeframe limit = StockRoutes.InternalServerError).
Proof.
  intros timeframe period key Hinst Hbars Hne Hkey ingested. subst ingested.
  rewrite (run_unit_staged env insert_faults has_yfinance w symbol timeframe_key
             execution_date bars) by done.
  cbn [fst pg]. split; [reflexivity|].
  intros Hlegacy Hversioned. unfold StockRoutes.get_stock_data, StockRoutes.read_legacy.
  rewrite Hlegacy, Hversioned. by destruct connect_fails.
Qed.

Lemma reader_after_pipeline_alone_witness :
  StockRoutes.get_stock_data (pg pipeline_world) false "AAPL" "1d" "daily" 100
    = StockRoutes.InternalServerError.
Proof.
  apply (reader_after_pipeline_alone (sample_env (sample_bars 2)) no_faults true empty_world
           "AAPL" "daily" "2024-01-01_00-00-00" (sample_bars 2) false "AAPL" "1d" "daily" 100);
    [reflexivity|reflexivity|discriminate|reflexivity|reflexivity|reflexivity].
Defined.

(** X22.  The reader finds what the transfer utility writes.  After the
    pipeline has ingested a unit (the frame is staged and the insert task has
    run, whatever its faults) and the utility has processed the staged file,
    a request whose [period] maps to the name of the unit ("1d" for "daily")
    and asks for at least one point is answered from the versioned table,
    with a list that is not empty and whose items carry the symbol and the
    name of the unit. *)
Theorem reader_sees_transferred_rows (env : Env) (insert_faults : Faults)
    (has_yfinance : bool) (w : World)
    (symbol timeframe_key execution_date : string) (bars : list Bar)
    (query_period query_timeframe : string) (limit : Z) :
  let timeframe := (Pipeline.TIMEFRAMES timeframe_key).1 in
  let period := (Pipeline.TIMEFRAMES timeframe_key).2 in
  let key := Pipeline.object_key_of symbol timeframe_key execution_date in
  yfinance_installed env = true →
  yf_history env symbol (StockCrawler.clamp_period timeframe period) timeframe = Ok bars →
  bars ≠ [] →
  replace "s3://stock-data/" "" key = key →
  free_of "/" symbol = true → free_of "/" timeframe_key = true →
  StockRoutes.timeframe_mapping query_period = Some timeframe_key →
  (0 < limit)%Z →
  let ingested :=
    (Pipeline.run_unit env no_faults insert_faults has_yfinance w symbol timeframe_key
       execution_date).1 in
  let after := FixDataTransfer.load_and_insert_data ingested [key] (λ _, false) in
  ∃ items,
    StockRoutes.get_stock_data (pg after) false symbol query_period query_timeframe limit
      = StockRoutes.Json items
    ∧ items ≠ []
    ∧ ∀ it, it ∈ items →
        it !! "symbol" = Some (VStr symbol) ∧ it !! "timeframe" = Some (VStr timeframe_key).
Proof.
  intros timeframe period key Hinst Hbars Hne Hkey Hsym Htfk Hmap Hlimit ingested after.
  subst after ingested key.
  rewrite (pipeline_then_transfer_state env insert_faults has_yfinance w symbol timeframe_key
             execution_date bars) by done.
  fold timeframe.
  set (out := StockCrawler._add_basic_indicators env
                (StockCrawler.yahoo_frame symbol (Some timeframe) bars)).
  set (T := execute_values FixDataTransfer.insert_v2_sql
              (map (versioned_tuple timeframe_key) (rows out))
              (default [] (stock_data_v2 (pg w)))).
  unfold StockRoutes.get_stock_data, StockRoutes.db_timeframe.
  rewrite Hmap. cbn [default id stock_data_v2 pg]. fold T.
  set (P := λ r : row, r !! "symbol" = Some (VStr symbol)
                       ∧ r !! "timeframe" = Some (VStr timeframe_key)).
  assert (Hsome : (0 < length (filter P T))%nat).
  { destruct bars as [|b bars]; [done|].
    destruct (transfer_row_stored env symbol timeframe timeframe_key (b :: bars)
                (default [] (stock_data_v2 (pg w))) b)
      as (r & Hr & Hs & _ & Hf); [in_list|].
    fold out T in Hr.
    assert (Hin : r ∈ filter P T) by (apply list_elem_of_filter; by split).
    destruct (filter P T); [by apply elem_of_nil in Hin|simpl; lia]. }
  assert (Hlt : (0 <? length (filter P T))%nat = true) by (by apply Nat.ltb_lt).
  rewrite Hlt.
  assert (Hneg : (limit <? 0)%Z = false) by (apply Z.ltb_ge; lia). rewrite Hneg.
  eexists. split; [reflexivity|].
  destruct (answer_shape StockRoutes.v2_item P limit T _ instant_v2_item eq_refl)
    as (_ & Hin & _).
  split.
  - intros Hnil. apply (f_equal length) in Hnil.
    rewrite length_reverse, length_map, latest_length in Hnil. simpl in Hnil. lia.
  - intros it Hit. destruct (Hin it Hit) as (r & _ & [Hs Hf] & ->).
    by destruct (v2_item_keys r) as [-> ->].
Qed.

Lemma reader_sees_transferred_rows_witness :
  let after :=
    FixDataTransfer.load_and_insert_data pipeline_world
      [Pipeline.object_key_of "AAPL" "daily" "2024-01-01_00-00-00"] (λ _, false) in
  ∃ items,
    StockRoutes.get_stock_data (pg after) false "AAPL" "1d" "daily" 100
      = StockRoutes.Json items
    ∧ items ≠ [].
Proof.
  intros after.
  destruct (reader_sees_transferred_rows (sample_env (sample_bars 2)) no_faults true
              empty_world "AAPL" "daily" "2024-01-01_00-00-00" (sample_bars 2)
              "1d" "daily" 100)
    as (items & Hget & Hne & _);
    [reflexivity|reflexivity|discriminate|reflexivity|reflexivity|reflexivity|reflexivity
    |reflexivity|].
  exists items. split; [exact Hget|exact Hne].
Defined.

(** ** More on the unit as a whole *)

(** X23.  A unit writes no row, the first time or again.  When Yahoo
    answers with a non-empty series and the crawl task stages it, the insert
    task of the unit leaves the database as it found it, whatever its faults,
    and returns normally when it can reach the stores: the frame has several
    of the listed columns, so its query holds several [%s] and
    [execute_values] raises on it.  A second run of the unit, under any
    execution date, leaves the database as it was too; under the same
    execution date it also rewrites the same object, so that the whole world
    is as after the first run. *)
Theorem rerun_unit_changes_nothing (env : Env) (first_faults second_faults : Faults)
    (first_flag second_flag : bool) (w : World)
    (symbol timeframe_key first_date second_date : string) (bars : list Bar) :
  let timeframe := (Pipeline.TIMEFRAMES timeframe_key).1 in
  let period := (Pipeline.TIMEFRAMES timeframe_key).2 in
  yfinance_installed env = true →
  yf_history env symbol (StockCrawler.clamp_period timeframe period) timeframe = Ok bars →
  bars ≠ [] →
  replace "s3://stock-data/" "" (Pipeline.object_key_of symbol timeframe_key first_date)
    = Pipeline.object_key_of symbol timeframe_key first_date →
  replace "s3://stock-data/" "" (Pipeline.object_key_of symbol timeframe_key second_date)
    = Pipeline.object_key_of symbol timeframe_key second_date →
  let once :=
    Pipeline.run_unit env no_faults first_faults first_flag w symbol timeframe_key
      first_date in
  let again :=
    Pipeline.run_unit env no_faults second_faults second_flag once.1 symbol timeframe_key
      second_date in
  pg once.1 = pg w
  ∧ pg again.1 = pg w
  ∧ (minio_fails first_faults = false → pg_connect_fails first_faults = false →
     once.2 = Ok tt)
  ∧ (minio_fails second_faults = false → pg_connect_fails second_faults = false →
     again.2 = Ok tt)
  ∧ (second_date = first_date → again.1 = once.1).
Proof.
  intros timeframe period Hinst Hbars Hne Hk1 Hk2 once again. subst again once.
  rewrite (run_unit_staged env first_faults first_flag w symbol timeframe_key first_date
             bars) by done.
  cbn [fst snd].
  rewrite (run_unit_staged env second_faults second_flag _ symbol timeframe_key second_date
             bars) by done.
  cbn [fst snd pg minio]. split_and!.
  - reflexivity.
  - reflexivity.
  - by intros -> ->.
  - by intros -> ->.
  - intros ->. f_equal. unfold Pipeline.put_object.
    rewrite lookup_insert_eq. cbn [default id]. by rewrite !insert_insert_eq.
Qed.

Lemma rerun_unit_changes_nothing_witness :
  let once :=
    Pipeline.run_unit (sample_env (sample_bars 2)) no_faults no_faults false empty_world
      "AAPL" "daily" "2024-01-01_00-00-00" in
  let again :=
    Pipeline.run_unit (sample_env (sample_bars 2)) no_faults no_faults true once.1
      "AAPL" "daily" "2024-01-01_01-00-00" in
  pg once.1 = pg empty_world ∧ pg again.1 = pg empty_world.
Proof.
  intros once again.
  destruct (rerun_unit_changes_nothing (sample_env (sample_bars 2)) no_faults no_faults
              false true empty_world
              "AAPL" "daily" "2024-01-01_00-00-00" "2024-01-01_01-00-00" (sample_bars 2))
    as (H1 & H2 & _);
    [reflexivity|reflexivity|discriminate|reflexivity|reflexivity|].
  split; [exact H1|exact H2].
Defined.

(** X24.  What the insert task can do and what it cannot.  Whatever the
    faults and the crawl result, the task writes neither the object store
    nor the legacy table; without a crawl result it returns at once; and
    when it raises it leaves the world as it was.  When the staged frame has
    none or several of the listed columns, as every frame of the crawler
    has, the task leaves the whole world as it was, the versioned table
    included, and returns normally as soon as it can reach the object store
    and the database: [execute_values] raises on a query that does not hold
    exactly one [%s], and the handler rolls the transaction back, the
    creation of the table with it. *)
Theorem insert_task_outcomes (faults : Faults) (w : World) (symbol timeframe_key : string)
    (crawl_result : option Pipeline.CrawlResult) :
  let run := Pipeline.insert_to_postgres faults w symbol timeframe_key crawl_result in
  minio run.1 = minio w
  ∧ stock_data (pg run.1) = stock_data (pg w)
  ∧ (crawl_result = None → run = (w, Ok tt))
  ∧ (∀ e, run.2 = Raise e → run.1 = w)
  ∧ (∀ cr df, crawl_result = Some cr →
       (minio w !! Pipeline.bucket_name) ≫=
         (λ b : gmap string DataFrame,
            b !! replace "s3://stock-data/" "" (Pipeline.cr_file_path cr)) = Some df →
       length (filter (λ c, c ∈ Pipeline.allowed_columns) (columns df)) ≠ 1%nat →
       run.1 = w
       ∧ (minio_fails faults = false → pg_connect_fails faults = false → run.2 = Ok tt)).
Proof.
  intros run. subst run. split_and!.
  - apply insert_minio.
  - apply insert_legacy.
  - by intros ->.
  - intros e. unfold Pipeline.insert_to_postgres.
    destruct crawl_result as [cr|]; [|done].
    destruct (minio_fails faults); [done|].
    destruct (_ ≫= _) as [df|]; [|done].
    by destruct (pg_connect_fails faults).
  - intros cr df -> Hobj Hcols.
    rewrite (insert_many_columns faults w symbol timeframe_key cr df Hobj Hcols).
    cbn [fst snd]. split; [reflexivity|]. by intros -> ->.
Qed.

(** ** More on the crawler's sources *)

(** X25.  The downgrade of a crawler is sticky.  A crawler built for the
    Yahoo source while the library is missing becomes a "mock" crawler and
    stays one: whatever the world is later, also once the library is there,
    its intraday fetch gives the synthetic series, and its historical fetch
    raises the [NameError] of the synthetic historical generator. *)
Theorem downgrade_is_sticky (env : Env) (key : option string) :
  yfinance_installed env = false →
  let crawler := (StockCrawler.__init__ env false key "yahoo").1 in
  StockCrawler.data_source crawler = "mock"
  ∧ (∀ later flag symbol interval outputsize,
       StockCrawler.get_intraday_data later flag crawler symbol interval outputsize
       = Ok (StockCrawler._get_mock_data later symbol interval))
  ∧ (∀ later flag symbol timeframe period,
       StockCrawler.get_historical_data later flag crawler symbol timeframe period
       = Raise (NameError "np")).
Proof.
  intros Hinst crawler. subst crawler.
  unfold StockCrawler.__init__, StockCrawler._check_yfinance_available.
  cbn [String.eqb Ascii.eqb Bool.eqb andb negb]. rewrite Hinst.
  cbn [fst StockCrawler.data_source]. split_and!.
  - reflexivity.
  - reflexivity.
  - intros later flag symbol timeframe period.
    unfold StockCrawler.get_historical_data.
    cbn [StockCrawler.data_source String.eqb Ascii.eqb Bool.eqb].
    apply mock_historical_raises.
Qed.

Lemma downgrade_is_sticky_witness :
  let crawler := (StockCrawler.__init__ offline_env false None "yahoo").1 in
  StockCrawler.get_intraday_data (sample_env (sample_bars 3)) true crawler "AAPL" "60min" "full"
    = Ok (StockCrawler._get_mock_data (sample_env (sample_bars 3)) "AAPL" "60min").
Proof.
  intros crawler.
  destruct (downgrade_is_sticky offline_env None) as (_ & H & _); [reflexivity|].
  apply H.
Defined.

Lemma init_yahoo_any_flag env key flag1 flag2 :
  yfinance_installed env = true →
  StockCrawler.__init__ env flag1 key "yahoo" = StockCrawler.__init__ env flag2 key "yahoo".
Proof.
  intros Hinst. unfold StockCrawler.__init__, StockCrawler._check_yfinance_available.
  cbn [String.eqb Ascii.eqb Bool.eqb andb]. rewrite Hinst.
  by destruct flag1, flag2.
Qed.

(** X26.  The module flag cannot change what a unit does.  The crawl task
    builds a new crawler for the Yahoo source each time, and the constructor
    probes the library whenever the flag is down; so the outcome of the crawl
    task, and of the whole unit, is the same whether an earlier crawler of
    the process has set [has_yfinance] or not. *)
Theorem unit_ignores_module_flag (env : Env) (crawl_faults insert_faults : Faults)
    (w : World) (symbol timeframe_key execution_date : string) (flag1 flag2 : bool) :
  Pipeline.crawl_stock_data env crawl_faults flag1 w symbol timeframe_key execution_date
    = Pipeline.crawl_stock_data env crawl_faults flag2 w symbol timeframe_key execution_date
  ∧ Pipeline.run_unit env crawl_faults insert_faults flag1 w symbol timeframe_key
      execution_date
    = Pipeline.run_unit env crawl_faults insert_faults flag2 w symbol timeframe_key
        execution_date.
Proof.
  assert (Heq :
    Pipeline.crawl_stock_data env crawl_faults flag1 w symbol timeframe_key execution_date
    = Pipeline.crawl_stock_data env crawl_faults flag2 w symbol timeframe_key execution_date).
  { destruct (yfinance_installed env) eqn:Hinst.
    - unfold Pipeline.crawl_stock_data.
      by rewrite (init_yahoo_any_flag env (env_api_key env) flag1 flag2 Hinst).
    - by rewrite !crawl_without_yahoo by (by left). }
  split; [exact Heq|]. unfold Pipeline.run_unit. by rewrite Heq.
Qed.

(** ** The objects the transfer utility passes over *)

Lemma process_files_skipped objects db_fault listing : ∀ i conn,
  Forall (λ key, FixDataTransfer.process_file conn key (objects !! key) (db_fault key)
                 = FixDataTransfer.Skipped) listing →
  FixDataTransfer.process_files objects db_fault i listing conn = conn.
Proof.
  induction listing as [|key rest IH]; intros i conn Hall; [done|].
  apply Forall_cons in Hall as [Hkey Hrest].
  cbn [FixDataTransfer.process_files]. rewrite Hkey. by apply IH.
Qed.

(** X27.  The transfer utility passes over what is not a staged file: an
    object whose key does not end in [.csv], or has no ["/"], or whose frame
    is empty, is skipped without an error.  A run over a listing of such
    objects only, and so a run over an empty bucket, creates the two tables
    where they are missing and changes nothing else. *)
Theorem transfer_skips_other_objects (w : World) (listing : list string)
    (db_fault : string → bool) :
  Forall (λ key, ends_with ".csv" key = false
                 ∨ free_of "/" key = true
                 ∨ ∃ df, default ∅ (minio w !! "stock-data") !! key = Some df
                         ∧ df_empty df = true) listing →
  FixDataTransfer.load_and_insert_data w listing db_fault
    = {| minio := minio w;
         pg := {| stock_data := create_if_absent (stock_data (pg w));
                  stock_data_v2 := create_if_absent (stock_data_v2 (pg w)) |} |}.
Proof.
  intros Hall. unfold FixDataTransfer.load_and_insert_data.
  rewrite process_files_skipped; [reflexivity|].
  eapply Forall_impl; [exact Hall|]. intros key Hkey. cbn beta.
  unfold FixDataTransfer.process_file.
  destruct (ends_with ".csv" key) eqn:Hcsv; cbn [negb]; [|done].
  destruct Hkey as [?|[Hfree|(df & Hdf & Hempty)]]; [congruence| |].
  - by rewrite (split_on_free _ _ Hfree).
  - destruct (split_on "/" key) as [|s [|t rest]]; [done..|]. by rewrite Hdf, Hempty.
Qed.

Lemma transfer_skips_other_objects_witness :
  FixDataTransfer.load_and_insert_data empty_world ["README.md"; "notes.csv"] (λ _, false)
    = {| minio := ∅; pg := {| stock_data := Some []; stock_data_v2 := Some [] |} |}.
Proof.
  apply (transfer_skips_other_objects empty_world ["README.md"; "notes.csv"] (λ _, false)).
  apply Forall_cons. split; [left; reflexivity|].
  apply Forall_cons. split; [right; left; reflexivity|].
  apply Forall_nil_2.
Defined.
